(** * da3_video_to_glb: the job-orchestration core, embedded in Rocq

    A shallow embedding of the worker's orchestration layer:

    - [Py]        the Python values the code manipulates (str slices, int/float
                  conversions, exceptions);
    - [Repo]      app/adapters/postgres_job_repository.py over an explicit model
                  of the [jobs] and [job_attempts] tables, of transactions and of
                  row locks;
    - [Lease]     two or more callers of [fetch_next_queued_job] interleaved
                  statement by statement;
    - [Ports]     the trace of port calls and their outcomes;
    - [DbReporter], [Composite]   the progress sinks;
    - [Convert], [RunJob]         the two use cases;
    - [Workers]   the worker registry behind the heartbeat;
    - [Storage]   app/adapters/minio_object_storage.py;
    - [Worker]    the poll loop and the heartbeat thread of app/worker_main.py.

    Definitions come first; the theorems about them follow. *)

From Stdlib Require Import ZArith List String Ascii Bool Lia Floats DecimalString.
Import ListNotations.

Local Open Scope string_scope.
Local Open Scope Z_scope.

(* ================================================================== *)
(** ** Python values *)
(* ================================================================== *)

Module Py.

(** A str is a [string], one element per character. The message literals of
    the source are kept as they are written there, in UTF-8; no statement
    depends on the length of a literal. *)

(** A raised Python exception object: its class name, whether the class derives
    from [Exception] (what [except Exception] tests; [KeyboardInterrupt] and
    [SystemExit] do not), and [str(ex)]. *)
Record PyExc : Type := mkExc {
  exc_class : string;
  exc_is_Exception : bool;
  exc_str : string
}.

(** The outcome of a call that may raise. *)
Inductive result (A : Type) : Type :=
| Ok (a : A)
| Raise (e : PyExc).
Arguments Ok {A} a.
Arguments Raise {A} e.

Definition FileNotFoundError (msg : string) : PyExc := mkExc "FileNotFoundError" true msg.
Definition ValueError (msg : string) : PyExc := mkExc "ValueError" true msg.
Definition RuntimeError (msg : string) : PyExc := mkExc "RuntimeError" true msg.
Definition OverflowError (msg : string) : PyExc := mkExc "OverflowError" true msg.

(** [s[:n]] on a str. *)
Fixpoint slice_to (n : nat) (s : string) : string :=
  match n, s with
  | O, _ => EmptyString
  | S _, EmptyString => EmptyString
  | S n', String c s' => String c (slice_to n' s')
  end.

(** [s.rstrip("/")]: the trailing slashes removed. *)
Fixpoint rstrip_slash (s : string) : string :=
  match s with
  | EmptyString => EmptyString
  | String c s' =>
      match rstrip_slash s' with
      | EmptyString => if Ascii.eqb c "/"%char then EmptyString else String c EmptyString
      | rest => String c rest
      end
  end.

(** [str(n)] of a Python int. *)
Definition str_of_int (n : Z) : string := NilZero.string_of_int (Z.to_int n).

(** [float(n)] of a Python int: the nearest double (ties to even); an int
    whose nearest double would be infinite raises OverflowError. *)
Definition float_of_int (n : Z) : result float :=
  let f := SF2Prim (binary_normalize prec emax n 0 false) in
  if PrimFloat.is_infinity f
  then Raise (OverflowError "int too large to convert to float")
  else Ok f.

(** [int(x)] of a Python float: truncation toward zero; infinities and NaN
    raise. *)
Definition int_of_float (x : float) : result Z :=
  match Prim2SF x with
  | S754_zero _ => Ok 0
  | S754_finite sign m e =>
      let mag := if 0 <=? e then Z.shiftl (Z.pos m) e else Z.shiftr (Z.pos m) (- e) in
      Ok (if sign then - mag else mag)
  | S754_infinity _ => Raise (OverflowError "cannot convert float infinity to integer")
  | S754_nan => Raise (ValueError "cannot convert float NaN to integer")
  end.

End Py.
Import Py.

(* ================================================================== *)
(** ** Domain objects (app/domain/job_models.py, app/domain/models.py) *)
(* ================================================================== *)

Module Models.

(** A filesystem path; [p / q] joins with a separator. *)
Definition Path : Type := string.
Definition path_join (p q : Path) : Path := (p ++ "/" ++ q)%string.

Record VideoJob : Type := mkVideoJob {
  job_id : string;
  input_object_key : string;
  output_prefix : string;
  fps : float;
  model_id : string
}.

Record WorkerInfo : Type := mkWorkerInfo {
  worker_id : string;
  worker_key : string;
  display_name : string
}.

Record JobAttemptInfo : Type := mkJobAttemptInfo {
  attempt_id : string;
  attempt_no : Z
}.

Record VideoToGlbRequest : Type := mkVideoToGlbRequest {
  input_video_path : Path;
  output_dir : Path;
  req_fps : float;
  keep_frames : bool;
  req_model_id : string
}.

Record FrameExtractionResult : Type := mkFrameExtractionResult {
  frames_dir : Path;
  extracted_frame_count : Z
}.

Record GlbExportResult : Type := mkGlbExportResult {
  export_output_dir : Path;
  glb_path : option Path;
  frame_count : Z
}.

End Models.
Import Models.

(* ================================================================== *)
(** ** The job store (app/adapters/postgres_job_repository.py) *)
(* ================================================================== *)

Module Repo.

(** A row of [jobs]. Timestamps are integers (microseconds); [params_json] is
    kept as the two fields the queries read from it. *)
Record JobRow : Type := mkJobRow {
  j_id : string;
  j_input_object_key : string;
  j_output_prefix : string;
  j_params_fps : option float;
  j_params_modelId : option string;
  j_status : string;
  j_priority : Z;
  j_created_at : Z;
  j_progress_percent : Z;
  j_error_code : option string;
  j_error_message : option string;
  j_started_at : option Z;
  j_finished_at : option Z
}.

(** A row of [job_attempts]. *)
Record AttemptRow : Type := mkAttemptRow {
  a_id : string;
  a_job_id : string;
  a_attempt_no : Z;
  a_worker_id : string;
  a_status : string;
  a_started_at : Z;
  a_finished_at : option Z;
  a_exit_code : option Z;
  a_error_message : option string
}.

Record Db : Type := mkDb {
  jobs : list JobRow;
  job_attempts : list AttemptRow
}.

(** *** Transactions

    Every method opens a connection, runs its statements and commits; leaving
    the [with psycopg.connect(...)] block on an exception discards the
    uncommitted work. A statement may raise (the server went away, a constraint
    refused the row): [Faults] says which statements of a transaction do. *)

Definition Faults : Type := nat -> bool.
Definition no_faults : Faults := fun _ => false.

Definition DatabaseError : PyExc := mkExc "psycopg.Error" true "statement failed".

Definition Tx (A : Type) : Type := Db -> result (A * Db).

Definition tx_ret {A} (a : A) : Tx A := fun db => Ok (a, db).

Definition tx_bind {A B} (m : Tx A) (k : A -> Tx B) : Tx B :=
  fun db =>
    match m db with
    | Ok (a, db') => k a db'
    | Raise e => Raise e
    end.

Local Notation "x <- m ;; k" := (tx_bind m (fun x => k))
  (at level 61, m at next level, right associativity).

(** [cur.execute(...)]: the [n]-th statement of the transaction. *)
Definition execute {A} (faults : Faults) (n : nat) (stmt : Db -> A * Db) : Tx A :=
  fun db => if faults n then Raise DatabaseError else Ok (stmt db).

(** [with psycopg.connect(dsn) as conn: ...; conn.commit()]. *)
Definition transaction {A} (body : Tx A) (db : Db) : result A * Db :=
  match body db with
  | Ok (a, db') => (Ok a, db')
  | Raise e => (Raise e, db)
  end.

(** *** SQL statements *)

(** [UPDATE jobs SET ... WHERE id = job_id]. *)
Definition update_jobs (job_id : string) (set : JobRow -> JobRow) (db : Db) : Db :=
  mkDb (map (fun j => if String.eqb (j_id j) job_id then set j else j) (jobs db))
       (job_attempts db).

(** [UPDATE job_attempts SET ... WHERE id = attempt_id]. *)
Definition update_attempts (attempt_id : string) (set : AttemptRow -> AttemptRow)
    (db : Db) : Db :=
  mkDb (jobs db)
       (map (fun a => if String.eqb (a_id a) attempt_id then set a else a)
            (job_attempts db)).

(** [MAX(attempt_no)] over the attempts of a job; NULL when there is none. *)
Fixpoint max_attempt_no (job_id : string) (rows : list AttemptRow) : option Z :=
  match rows with
  | [] => None
  | a :: rest =>
      if String.eqb (a_job_id a) job_id then
        match max_attempt_no job_id rest with
        | None => Some (a_attempt_no a)
        | Some m => Some (Z.max (a_attempt_no a) m)
        end
      else max_attempt_no job_id rest
  end.

Definition coalesce {A} (x : option A) (d : A) : A :=
  match x with Some v => v | None => d end.

(** *** start_job_attempt *)

Definition start_job_attempt (faults : Faults) (now : Z) (new_id : string)
    (job_id worker_id : string) (db : Db) : result JobAttemptInfo * Db :=
  transaction
    (next_attempt_no <- execute faults 0 (fun db =>
        (coalesce (max_attempt_no job_id (job_attempts db)) 0 + 1, db)) ;;
     attempt_row <- execute faults 1 (fun db =>
        let row := mkAttemptRow new_id job_id next_attempt_no worker_id
                                "running" now None None None in
        ((a_id row, a_attempt_no row),
         mkDb (jobs db) (job_attempts db ++ [row])%list)) ;;
     _ <- execute faults 2 (fun db =>
        (tt, update_jobs job_id (fun j =>
               mkJobRow (j_id j) (j_input_object_key j) (j_output_prefix j)
                        (j_params_fps j) (j_params_modelId j)
                        "running" (j_priority j) (j_created_at j)
                        0 None None
                        (Some (coalesce (j_started_at j) now)) None) db)) ;;
     tx_ret (mkJobAttemptInfo (fst attempt_row) (snd attempt_row)))
    db.

(** *** update_progress *)

Definition update_progress (faults : Faults) (job_id : string)
    (progress_percent : Z) (db : Db) : result unit * Db :=
  let safe_percent := progress_percent in
  let safe_percent := if safe_percent <? 0 then 0 else safe_percent in
  let safe_percent := if 100 <? safe_percent then 100 else safe_percent in
  transaction
    (execute faults 0 (fun db =>
        (tt, update_jobs job_id (fun j =>
               mkJobRow (j_id j) (j_input_object_key j) (j_output_prefix j)
                        (j_params_fps j) (j_params_modelId j)
                        (j_status j) (j_priority j) (j_created_at j)
                        safe_percent (j_error_code j) (j_error_message j)
                        (j_started_at j) (j_finished_at j)) db)))
    db.

(** *** mark_job_succeeded *)

Definition mark_job_succeeded (faults : Faults) (now : Z)
    (job_id attempt_id : string) (db : Db) : result unit * Db :=
  transaction
    (_ <- execute faults 0 (fun db =>
        (tt, update_attempts attempt_id (fun a =>
               mkAttemptRow (a_id a) (a_job_id a) (a_attempt_no a) (a_worker_id a)
                            "succeeded" (a_started_at a) (Some now) (Some 0) None) db)) ;;
     execute faults 1 (fun db =>
        (tt, update_jobs job_id (fun j =>
               mkJobRow (j_id j) (j_input_object_key j) (j_output_prefix j)
                        (j_params_fps j) (j_params_modelId j)
                        "succeeded" (j_priority j) (j_created_at j)
                        100 None None
                        (j_started_at j) (Some now)) db)))
    db.

(** *** mark_job_failed *)

Definition mark_job_failed (faults : Faults) (now : Z)
    (job_id : string) (attempt_id : option string) (error_code : option string)
    (error_message : string) (exit_code : option Z) (db : Db) : result unit * Db :=
  let truncated_message := slice_to 4000 error_message in
  transaction
    (_ <- match attempt_id with
          | Some attempt_id =>
              execute faults 0 (fun db =>
                (tt, update_attempts attempt_id (fun a =>
                       mkAttemptRow (a_id a) (a_job_id a) (a_attempt_no a)
                                    (a_worker_id a)
                                    "failed" (a_started_at a) (Some now)
                                    exit_code (Some truncated_message)) db))
          | None => tx_ret tt
          end ;;
     execute faults 1 (fun db =>
        (tt, update_jobs job_id (fun j =>
               mkJobRow (j_id j) (j_input_object_key j) (j_output_prefix j)
                        (j_params_fps j) (j_params_modelId j)
                        "failed" (j_priority j) (j_created_at j)
                        (j_progress_percent j) error_code (Some truncated_message)
                        (j_started_at j) (Some now)) db)))
    db.

(** *** fetch_next_queued_job

    The locking read needs the server's row locks: [locks] pairs the id of a
    locked [jobs] row with the connection whose open transaction holds it. *)

Definition Conn : Type := nat.

Record Server : Type := mkServer {
  db : Db;
  locks : list (string * Conn)
}.

Definition locked_by_other (me : Conn) (lk : list (string * Conn)) (id : string) : bool :=
  existsb (fun l => String.eqb (fst l) id && negb (Nat.eqb (snd l) me)) lk.

(** [ORDER BY j.priority DESC, j.created_at ASC]: [a] sorts strictly before [b]. *)
Definition sorts_before (a b : JobRow) : bool :=
  (j_priority b <? j_priority a)
  || ((j_priority a =? j_priority b) && (j_created_at a <? j_created_at b)).

(** [LIMIT 1] of the ordered rows: a row no other row sorts strictly before
    (among equals, the one met first). *)
Fixpoint first_in_order (rows : list JobRow) : option JobRow :=
  match rows with
  | [] => None
  | r :: rest =>
      match first_in_order rest with
      | None => Some r
      | Some b => if sorts_before b r then Some b else Some r
      end
  end.

(** The five columns of the SELECT list. *)
Definition select_list (j : JobRow) : string * string * string * float * string :=
  (j_id j, j_input_object_key j, j_output_prefix j,
   coalesce (j_params_fps j) 2%float,
   coalesce (j_params_modelId j) "depth-anything/da3nested-giant-large").

(** [SELECT ... FROM jobs j WHERE j.status = 'queued' ORDER BY ... FOR UPDATE
    SKIP LOCKED LIMIT 1], then [cur.fetchone()]: rows locked by another
    transaction are passed over, and the row read is locked for [me]. *)
Definition select_for_update_skip_locked (me : Conn) (s : Server)
    : option JobRow * Server :=
  let candidates :=
    filter (fun j => String.eqb (j_status j) "queued"
                     && negb (locked_by_other me (locks s) (j_id j)))
           (jobs (db s)) in
  match first_in_order candidates with
  | None => (None, s)
  | Some j => (Some j, mkServer (db s) ((j_id j, me) :: locks s))
  end.

(** [conn.commit()]: the transaction ends and its row locks go. *)
Definition commit (me : Conn) (s : Server) : Server :=
  mkServer (db s) (filter (fun l => negb (Nat.eqb (snd l) me)) (locks s)).

(** What the method builds from the fetched row. *)
Definition to_VideoJob (row : option JobRow) : option VideoJob :=
  match row with
  | None => None
  | Some j =>
      match select_list j with
      | (r0, r1, r2, r3, r4) => Some (mkVideoJob r0 r1 r2 r3 r4)
      end
  end.

Definition fetch_next_queued_job (worker_key : string) (me : Conn) (s : Server)
    : option VideoJob * Server :=
  let (row, s1) := select_for_update_skip_locked me s in
  let s2 := commit me s1 in
  (to_VideoJob row, s2).

End Repo.

(* ================================================================== *)
(** ** Interleaved calls of fetch_next_queued_job *)
(* ================================================================== *)

Module Lease.
Import Repo.

(** Where a caller stands inside the method: before [psycopg.connect], before
    [cur.execute], before [conn.commit] (holding the fetched row), or back in
    its caller with the method's value. *)
Inductive Pc : Type :=
| at_connect
| at_execute
| at_commit (row : option JobRow)
| returned (value : option VideoJob).

Record System : Type := mkSystem {
  server : Server;
  pcs : Conn -> Pc
}.

Definition set_pc (c : Conn) (pc : Pc) (f : Conn -> Pc) : Conn -> Pc :=
  fun c' => if Nat.eqb c' c then pc else f c'.

(** One atomic step of caller [c]. No step waits for another caller: the
    locking read passes over the rows it finds locked. *)
Definition step (c : Conn) (sys : System) : System :=
  match pcs sys c with
  | at_connect => mkSystem (server sys) (set_pc c at_execute (pcs sys))
  | at_execute =>
      let (row, srv) := select_for_update_skip_locked c (server sys) in
      mkSystem srv (set_pc c (at_commit row) (pcs sys))
  | at_commit row =>
      mkSystem (commit c (server sys)) (set_pc c (returned (to_VideoJob row)) (pcs sys))
  | returned _ => sys
  end.

(** A schedule names, step by step, the caller that moves. *)
Definition run (schedule : list Conn) (sys : System) : System :=
  fold_left (fun s c => step c s) schedule sys.

Definition start (d : Db) : System :=
  mkSystem (mkServer d []) (fun _ => at_connect).

(** How far a caller has got: 0 before connecting, 3 once returned. *)
Definition stage (pc : Pc) : nat :=
  match pc with
  | at_connect => 0
  | at_execute => 1
  | at_commit _ => 2
  | returned _ => 3
  end.

(** Every caller whose transaction is open holds the lock of the row it read. *)
Definition holds_its_row (sys : System) : Prop :=
  forall c j, pcs sys c = at_commit (Some j) -> In (j_id j, c) (locks (server sys)).

(** A caller is inside the method once it has connected and until it returns. *)
Definition in_call (pc : Pc) : bool :=
  match pc with
  | at_execute | at_commit _ => true
  | at_connect | returned _ => false
  end.

End Lease.

(* ================================================================== *)
(** ** Port calls and their outcomes (app/application/ports.py) *)
(* ================================================================== *)

Module Ports.

(** A call made through a port, with its arguments. [SinkPhase] and
    [SinkProgress] are the calls a composite reporter makes on its [sink]-th
    reporter. *)
Inductive Call : Type :=
| EnsureDir (path : Path)
| ListFrameImages (frames_dir : Path)
| RemoveDir (path : Path)
| ExtractFrames (input_video_path frames_dir : Path) (fps : float)
| ExportGlbFromImages (image_paths : list Path) (output_dir : Path) (model_id : string)
| DownloadFile (bucket key : string) (local_path : Path)
| UploadFile (local_path : Path) (bucket key : string) (content_type : option string)
| StartJobAttempt (job_id worker_id : string)
| UpdateProgress (job_id : string) (progress_percent : Z)
| AddArtifact (job_id artifact_type object_key : string)
              (content_type : option string) (size_bytes : option Z)
| MarkJobSucceeded (job_id attempt_id : string)
| MarkJobFailed (job_id : string) (attempt_id : option string)
                (error_code : option string) (error_message : string)
                (exit_code : option Z)
| ReportPhase (phase message : string)
| SinkPhase (sink : nat) (phase message : string)
| SinkProgress (sink : nat) (current total : Z) (message : string).

(** A computation that makes port calls, and returns or raises: it extends the
    trace of the calls made so far. *)
Definition M (A : Type) : Type := list Call -> result A * list Call.

Definition ret {A} (a : A) : M A := fun tr => (Ok a, tr).

Definition raise {A} (e : PyExc) : M A := fun tr => (Raise e, tr).

Definition bind {A B} (m : M A) (k : A -> M B) : M B :=
  fun tr =>
    match m tr with
    | (Ok a, tr') => k a tr'
    | (Raise e, tr') => (Raise e, tr')
    end.

(** The port call [c], whose implementation answers [outcome]. *)
Definition call {A} (c : Call) (outcome : result A) : M A :=
  fun tr => (outcome, (tr ++ [c])%list).

(** A pure operation that may raise. *)
Definition lift {A} (r : result A) : M A := fun tr => (r, tr).

(** [try: body / except Exception as ex: handler(ex)]. *)
Definition try_except {A} (body : M A) (handler : PyExc -> M A) : M A :=
  fun tr =>
    match body tr with
    | (Raise e, tr') => if exc_is_Exception e then handler e tr' else (Raise e, tr')
    | ok => ok
    end.

(** [x = None / try: x = first(); rest(x) / except Exception as ex:
    handler(x, ex)]: the handler finds in [x] what [first] returned, or None
    when [first] itself raised. *)
Definition try_assigning_except {A B} (first : M A) (rest : A -> M B)
    (handler : option A -> PyExc -> M B) : M B :=
  fun tr =>
    match first tr with
    | (Raise e, tr1) =>
        if exc_is_Exception e then handler None e tr1 else (Raise e, tr1)
    | (Ok x, tr1) =>
        match rest x tr1 with
        | (Raise e, tr2) =>
            if exc_is_Exception e then handler (Some x) e tr2 else (Raise e, tr2)
        | ok => ok
        end
    end.

(** [for x in xs: f(x)]. *)
Fixpoint for_each {A} (f : A -> M unit) (xs : list A) : M unit :=
  match xs with
  | [] => ret tt
  | x :: rest => bind (f x) (fun _ => for_each f rest)
  end.

(** What the adapters behind the ports answer, and what the filesystem says. *)
Record Env : Type := mkEnv {
  ensure_dir_outcome : Path -> result unit;
  list_frame_images_outcome : Path -> result (list Path);
  remove_dir_outcome : Path -> result unit;
  extract_frames_outcome : result FrameExtractionResult;
  export_glb_from_images_outcome : result GlbExportResult;
  download_file_outcome : result unit;
  upload_file_outcome : result unit;
  start_job_attempt_outcome : result JobAttemptInfo;
  update_progress_outcome : result unit;
  add_artifact_outcome : result unit;
  mark_job_succeeded_outcome : result unit;
  mark_job_failed_outcome : result unit;
  report_phase_outcome : string -> result unit;
  input_video_exists : Path -> bool;
  glb_exists : Path -> bool;
  glb_st_size : Path -> Z
}.

(** The number of [mark_job_failed] calls in a trace. *)
Definition is_MarkJobFailed (c : Call) : bool :=
  match c with MarkJobFailed _ _ _ _ _ => true | _ => false end.

Definition mark_job_failed_calls (tr : list Call) : nat :=
  List.length (filter is_MarkJobFailed tr).

Definition not_MarkJobFailed (c : Call) : bool := negb (is_MarkJobFailed c).

(** [m] extends the trace, and only by calls that satisfy [P]. *)
Definition only (P : Call -> bool) {A : Type} (m : M A) : Prop :=
  forall tr, exists delta, snd (m tr) = (tr ++ delta)%list /\ forallb P delta = true.

(** The [update_progress] calls of a trace, in order. *)
Definition update_progress_calls (tr : list Call) : list (string * Z) :=
  flat_map (fun c => match c with UpdateProgress j p => [(j, p)] | _ => [] end) tr.

(** A call that reaches one of the external capabilities: object storage,
    frame extraction, inference. *)
Definition is_external_capability (c : Call) : bool :=
  match c with
  | DownloadFile _ _ _ | UploadFile _ _ _ _
  | ExtractFrames _ _ _ | ExportGlbFromImages _ _ _ => true
  | _ => false
  end.

End Ports.

Notation "x <- m ;; k" := (Ports.bind m (fun x => k))
  (at level 61, m at next level, right associativity).
Notation "m ;;; k" := (Ports.bind m (fun _ => k))
  (at level 61, right associativity).

(* ================================================================== *)
(** ** DbProgressReporter (app/adapters/db_progress_reporter.py) *)
(* ================================================================== *)

Module DbReporter.
Import Ports.

Record DbProgressReporter : Type := mkDbProgressReporter {
  _job_id : string;
  _min_interval_sec : float;
  _last_update_at : float
}.

(** [__init__]; [min_interval_sec] defaults to 2.0. *)
Definition init (job_id : string) (min_interval_sec : option float) : DbProgressReporter :=
  mkDbProgressReporter job_id (Repo.coalesce min_interval_sec 2%float) 0%float.

Definition report_phase (self : DbProgressReporter) (phase message : string)
    : M DbProgressReporter :=
  ret self.

Definition safe_total (total : Z) : Z := if 0 <? total then total else 1.

(** [int((float(current) / float(safe_total)) * 100.0)]. *)
Definition percent_of (current total : Z) : result Z :=
  match float_of_int current with
  | Raise e => Raise e
  | Ok fc =>
      match float_of_int (safe_total total) with
      | Raise e => Raise e
      | Ok ft => int_of_float (PrimFloat.mul (PrimFloat.div fc ft) 100%float)
      end
  end.

(** [(now - self._last_update_at) < self._min_interval_sec and current < safe_total]. *)
Definition throttled (self : DbProgressReporter) (now : float) (current total : Z) : bool :=
  PrimFloat.ltb (PrimFloat.sub now (_last_update_at self)) (_min_interval_sec self)
  && (current <? safe_total total).

(** [report_progress]; [now] is what [time.time()] returns during the call. The
    value is the reporter after the call. *)
Definition report_progress (env : Env) (self : DbProgressReporter) (now : float)
    (current total : Z) (message : string) : M DbProgressReporter :=
  percent <- lift (percent_of current total) ;;
  if throttled self now current total then ret self
  else
    call (UpdateProgress (_job_id self) percent) (update_progress_outcome env) ;;;
    ret (mkDbProgressReporter (_job_id self) (_min_interval_sec self) now).

(** What an accepted report comes to: one [update_progress] call, and the
    reporter remembers the clock reading unless that call raised. *)
Definition accepted (env : Env) (self : DbProgressReporter) (now : float) (percent : Z)
    (tr : list Call) : result DbProgressReporter * list Call :=
  (match update_progress_outcome env with
   | Ok _ => Ok (mkDbProgressReporter (_job_id self) (_min_interval_sec self) now)
   | Raise e => Raise e
   end,
   (tr ++ [UpdateProgress (_job_id self) percent])%list).

(** A series of [report_progress] calls, each with its clock reading. *)
Fixpoint report_all (env : Env) (self : DbProgressReporter)
    (reports : list (float * Z * Z * string)) : M DbProgressReporter :=
  match reports with
  | [] => ret self
  | (now, current, total, message) :: rest =>
      self' <- report_progress env self now current total message ;;
      report_all env self' rest
  end.

End DbReporter.

(* ================================================================== *)
(** ** CompositeProgressReporter (app/adapters/composite_progress_reporter.py) *)
(* ================================================================== *)

Module Composite.
Import Ports.

(** An implementation of ProgressReporterPort, as the composite sees it. *)
Record Sink : Type := mkSink {
  sink_report_phase : string -> string -> M unit;
  sink_report_progress : Z -> Z -> string -> M unit
}.

Record CompositeProgressReporter : Type := mkComposite {
  _reporters : list Sink
}.

Definition report_phase (self : CompositeProgressReporter) (phase message : string)
    : M unit :=
  for_each (fun reporter => sink_report_phase reporter phase message) (_reporters self).

Definition report_progress (self : CompositeProgressReporter) (current total : Z)
    (message : string) : M unit :=
  for_each (fun reporter => sink_report_progress reporter current total message)
           (_reporters self).

(** The [i]-th reporter of a composite: being called is recorded, and the call
    returns or raises as [outcome] says. *)
Definition recording_sink (i : nat) (outcome : result unit) : Sink :=
  mkSink (fun phase message => call (SinkPhase i phase message) outcome)
         (fun current total message => call (SinkProgress i current total message) outcome).

(** Reporters numbered from [i] on, one per outcome. *)
Fixpoint recording_sinks (i : nat) (outcomes : list (result unit)) : list Sink :=
  match outcomes with
  | [] => []
  | o :: rest => recording_sink i o :: recording_sinks (S i) rest
  end.

(** The outcomes up to and including the first that raises. *)
Fixpoint until_first_raise (outcomes : list (result unit)) : list (result unit) :=
  match outcomes with
  | [] => []
  | Ok u :: rest => Ok u :: until_first_raise rest
  | Raise e :: _ => [Raise e]
  end.

Fixpoint first_raise (outcomes : list (result unit)) : result unit :=
  match outcomes with
  | [] => Ok tt
  | Ok _ :: rest => first_raise rest
  | Raise e :: _ => Raise e
  end.

End Composite.

(* ================================================================== *)
(** ** ConvertVideoToGlbUseCase (app/application/use_cases.py) *)
(* ================================================================== *)

Module Convert.
Import Ports.

Section UseCase.

Variable env : Env.

Definition report_phase (phase message : string) : M unit :=
  call (ReportPhase phase message) (report_phase_outcome env phase).

Definition ensure_dir (path : Path) : M unit :=
  call (EnsureDir path) (ensure_dir_outcome env path).

Definition _validate_request (request : VideoToGlbRequest) : M unit :=
  if Bool.eqb (input_video_exists env (input_video_path request)) false
  then raise (FileNotFoundError
                ("入力動画が見つかりません: " ++ input_video_path request)%string)
  else if PrimFloat.leb (req_fps request) 0%float
  then raise (ValueError "fps は 0 より大きい値を指定してください。")
  else ret tt.

Definition execute (request : VideoToGlbRequest) : M GlbExportResult :=
  _validate_request request ;;;
  report_phase "prepare" "出力ディレクトリを準備します。" ;;;
  ensure_dir (output_dir request) ;;;
  let frames_dir := path_join (output_dir request) "frames" in
  ensure_dir frames_dir ;;;
  extraction <- call (ExtractFrames (input_video_path request) frames_dir (req_fps request))
                     (extract_frames_outcome env) ;;
  image_paths <- call (ListFrameImages (Models.frames_dir extraction))
                      (list_frame_images_outcome env (Models.frames_dir extraction)) ;;
  (if Nat.eqb (List.length image_paths) 0
   then raise (RuntimeError
     "フレーム抽出結果が0件でした。ffmpegの設定や入力動画を確認してください。")
   else ret tt) ;;;
  report_phase "infer"
    ("DA3推論を開始します。frames=" ++ str_of_int (Z.of_nat (List.length image_paths))
       ++ " model=" ++ req_model_id request)%string ;;;
  result <- call (ExportGlbFromImages image_paths (output_dir request) (req_model_id request))
                 (export_glb_from_images_outcome env) ;;
  (if Bool.eqb (keep_frames request) false
   then try_except
          (report_phase "cleanup" "中間フレームを削除します。" ;;;
           call (RemoveDir (Models.frames_dir extraction))
                (remove_dir_outcome env (Models.frames_dir extraction)))
          (fun ex =>
             report_phase "cleanup_warn"
               ("中間フレーム削除をスキップします: " ++ exc_str ex)%string)
   else ret tt) ;;;
  report_phase "done" "GLB変換が完了しました。" ;;;
  ret result.

End UseCase.

End Convert.

(* ================================================================== *)
(** ** RunSingleJobUseCase (app/application/job_runner_use_cases.py) *)
(* ================================================================== *)

Module RunJob.
Import Ports.

Section UseCase.

Variable env : Env.
Variables _input_bucket _output_bucket : string.
Variable _keep_frames_for_debug : bool.

Definition work_dir (job : VideoJob) : Path := path_join "work" (job_id job).
Definition input_dir (job : VideoJob) : Path := path_join (work_dir job) "input".
Definition output_dir (job : VideoJob) : Path := path_join (work_dir job) "output".
Definition local_video_path (job : VideoJob) : Path := path_join (input_dir job) "source.mp4".

(** The statements of the [try] block after [start_job_attempt] has returned
    [attempt_info]. *)
Definition after_start (job : VideoJob) (worker : WorkerInfo)
    (attempt_info : JobAttemptInfo) : M unit :=
  Convert.report_phase env "download" "入力動画をストレージから取得します。" ;;;
  call (DownloadFile _input_bucket (input_object_key job) (local_video_path job))
       (download_file_outcome env) ;;;
  let convert_request :=
    mkVideoToGlbRequest (local_video_path job) (output_dir job) (fps job)
                        _keep_frames_for_debug (model_id job) in
  convert_result <- Convert.execute env convert_request ;;
  match glb_path convert_result with
  | None => raise (RuntimeError "GLB出力に失敗しました。出力ファイルが見つかりません。")
  | Some glb =>
      let glb_object_key := (rstrip_slash (output_prefix job) ++ "/result.glb")%string in
      Convert.report_phase env "upload" "GLBをストレージへアップロードします。" ;;;
      call (UploadFile glb _output_bucket glb_object_key (Some "model/gltf-binary"))
           (upload_file_outcome env) ;;;
      let glb_size := if glb_exists env glb then Some (glb_st_size env glb) else None in
      call (AddArtifact (job_id job) "glb" glb_object_key (Some "model/gltf-binary") glb_size)
           (add_artifact_outcome env) ;;;
      call (MarkJobSucceeded (job_id job) (attempt_id attempt_info))
           (mark_job_succeeded_outcome env)
  end.

(** The [except Exception as ex] block. *)
Definition on_exception (job : VideoJob) (attempt_info : option JobAttemptInfo)
    (ex : PyExc) : M unit :=
  call (MarkJobFailed (job_id job)
          (match attempt_info with Some a => Some (attempt_id a) | None => None end)
          (Some "worker_runtime_error") (exc_str ex) (Some 1))
       (mark_job_failed_outcome env) ;;;
  raise ex.

(** The statements of the [try] block, run without the handler. *)
Definition try_block (job : VideoJob) (worker : WorkerInfo) : M unit :=
  attempt_info <- call (StartJobAttempt (job_id job) (worker_id worker))
                       (start_job_attempt_outcome env) ;;
  after_start job worker attempt_info.

(** The [try] statement of [execute]. *)
Definition guarded (job : VideoJob) (worker : WorkerInfo) : M unit :=
  try_assigning_except
    (call (StartJobAttempt (job_id job) (worker_id worker)) (start_job_attempt_outcome env))
    (after_start job worker)
    (on_exception job).

Definition execute (job : VideoJob) (worker : WorkerInfo) : M unit :=
  Convert.ensure_dir env (input_dir job) ;;;
  Convert.ensure_dir env (output_dir job) ;;;
  guarded job worker.

End UseCase.

End RunJob.

(* ================================================================== *)
(** ** The store behind the repository port *)
(* ================================================================== *)

Module Replay.
Import Ports.

(** What a repository call of a trace does to [jobs] and [job_attempts] when
    its transaction commits; [now] is the server's clock and [new_id] the id
    it generates for an inserted attempt. [add_artifact] inserts into
    [artifacts], a table the store does not hold, and the calls of the other
    ports do not reach the repository. A trace holds the calls its
    computation makes itself: what an adapter does with the reporter it is
    handed is not in the trace of the use case that calls the adapter. *)
Definition replay_call (now : Z) (new_id : string) (c : Call) (d : Repo.Db) : Repo.Db :=
  match c with
  | StartJobAttempt job_id worker_id =>
      snd (Repo.start_job_attempt Repo.no_faults now new_id job_id worker_id d)
  | UpdateProgress job_id progress_percent =>
      snd (Repo.update_progress Repo.no_faults job_id progress_percent d)
  | MarkJobSucceeded job_id attempt_id =>
      snd (Repo.mark_job_succeeded Repo.no_faults now job_id attempt_id d)
  | MarkJobFailed job_id attempt_id error_code error_message exit_code =>
      snd (Repo.mark_job_failed Repo.no_faults now job_id attempt_id error_code
                                error_message exit_code d)
  | _ => d
  end.

Definition replay (now : Z) (new_id : string) (tr : list Call) (d : Repo.Db) : Repo.Db :=
  fold_left (fun d c => replay_call now new_id c d) tr d.

(** [progress_percent] of the job [job_id], when the table has it. *)
Definition progress_of (job_id : string) (d : Repo.Db) : option Z :=
  option_map Repo.j_progress_percent
    (find (fun j => String.eqb (Repo.j_id j) job_id) (Repo.jobs d)).

(** [progress_percent] of the reporter's job once the calls of one
    [report_progress] have run on the store. *)
Definition persisted (env : Env) (self : DbReporter.DbProgressReporter) (now : float)
    (current total : Z) (d : Repo.Db) : option Z :=
  progress_of (DbReporter._job_id self)
    (replay 0 "" (snd (DbReporter.report_progress env self now current total "" [])) d).

End Replay.

(* ================================================================== *)
(** ** Attempt cycles and the predicates the statements use *)
(* ================================================================== *)

Module Cycles.
Import Repo.

(** A job started and failed once per id of [new_ids], every transaction
    committing: the attempt numbers handed out, and the store at the end. *)
Fixpoint start_fail_cycles (now : Z) (new_ids : list string) (job_id worker_id : string)
    (message : string) (d : Db) : list Z * Db :=
  match new_ids with
  | [] => ([], d)
  | new_id :: rest =>
      match start_job_attempt no_faults now new_id job_id worker_id d with
      | (Ok info, d1) =>
          let d2 := snd (mark_job_failed no_faults now job_id (Some (attempt_id info))
                           (Some "worker_runtime_error") message (Some 1) d1) in
          let (numbers, d3) := start_fail_cycles now rest job_id worker_id message d2 in
          (attempt_no info :: numbers, d3)
      | (Raise _, d1) => ([], d1)
      end
  end.

(** [n] is one more than the greatest attempt number [rows] holds for the job,
    and 1 when they hold none. *)
Definition next_attempt_no_of (job_id : string) (rows : list AttemptRow) (n : Z) : Prop :=
  ((forall a, In a rows -> a_job_id a <> job_id) /\ n = 1)
  \/ (exists a, In a rows /\ a_job_id a = job_id /\ n = a_attempt_no a + 1
               /\ forall a', In a' rows -> a_job_id a' = job_id ->
                             a_attempt_no a' <= a_attempt_no a).

(** Row [j'] is row [j] after [start_job_attempt] on [job_id] at time [now]. *)
Definition started (job_id : string) (now : Z) (j j' : JobRow) : Prop :=
  if String.eqb (j_id j) job_id then
    j_id j' = j_id j /\ j_status j' = "running" /\ j_progress_percent j' = 0
    /\ j_error_code j' = None /\ j_error_message j' = None
    /\ j_started_at j' = Some (coalesce (j_started_at j) now)
    /\ j_finished_at j' = None
    /\ j_priority j' = j_priority j /\ j_created_at j' = j_created_at j
    /\ j_input_object_key j' = j_input_object_key j
    /\ j_output_prefix j' = j_output_prefix j
  else j' = j.

(** Row [j'] is row [j] after [mark_job_failed] on [job_id]. *)
Definition failed (job_id : string) (now : Z) (error_code : option string)
    (stored_message : string) (j j' : JobRow) : Prop :=
  if String.eqb (j_id j) job_id then
    j_id j' = j_id j /\ j_status j' = "failed" /\ j_error_code j' = error_code
    /\ j_error_message j' = Some stored_message
    /\ j_finished_at j' = Some now
    /\ j_progress_percent j' = j_progress_percent j
    /\ j_started_at j' = j_started_at j
    /\ j_priority j' = j_priority j /\ j_created_at j' = j_created_at j
    /\ j_input_object_key j' = j_input_object_key j
    /\ j_output_prefix j' = j_output_prefix j
    /\ j_params_fps j' = j_params_fps j
    /\ j_params_modelId j' = j_params_modelId j
  else j' = j.

(** Attempt [a'] is attempt [a] after [mark_job_failed] with [attempt_id]. *)
Definition attempt_failed (attempt_id : string) (now : Z) (exit_code : option Z)
    (stored_message : string) (a a' : AttemptRow) : Prop :=
  if String.eqb (a_id a) attempt_id then
    a_id a' = a_id a /\ a_job_id a' = a_job_id a /\ a_attempt_no a' = a_attempt_no a
    /\ a_worker_id a' = a_worker_id a /\ a_started_at a' = a_started_at a
    /\ a_status a' = "failed" /\ a_finished_at a' = Some now
    /\ a_exit_code a' = exit_code /\ a_error_message a' = Some stored_message
  else a' = a.

(** [p] is a prefix of [s]. *)
Definition is_prefix (p s : string) : Prop := exists rest, s = (p ++ rest)%string.

End Cycles.

(* ================================================================== *)
(** ** The percentage as the specification words it *)
(* ================================================================== *)

Module ProgressSpec.

(** Clamping to [0,100]. *)
Definition clamp (p : Z) : Z := Z.max 0 (Z.min 100 p).

(** The specification's sentence, in exact arithmetic:
    floor(current/total * 100), total taken as 1 when it is given as 0,
    clamped to [0,100]. *)
Definition spec_percent (current total : Z) : Z :=
  clamp (current * 100 / (if total =? 0 then 1 else total)).

(** The [n] integers from [lo] on. *)
Definition zrange (lo : Z) (n : nat) : list Z :=
  map (fun i => lo + Z.of_nat i) (seq 0 n).

(** The computed percentage is the exact floor or one below it. *)
Definition floor_or_one_below (current total : Z) : bool :=
  match DbReporter.percent_of current total with
  | Ok p => (current * 100 / total - 1 <=? p) && (p <=? current * 100 / total)
  | Raise _ => false
  end.

(** [floor_or_one_below] for every 0 <= current <= total with
    1 <= total <= total_max. *)
Definition floor_or_one_below_up_to (total_max : nat) : bool :=
  forallb (fun total =>
             forallb (fun current => floor_or_one_below current total)
                     (zrange 0 (S (Z.to_nat total))))
          (zrange 1 total_max).

End ProgressSpec.

(* ================================================================== *)
(** ** Sample data used by the worked instances *)
(* ================================================================== *)

Module Sample.
Import Repo.

Definition job (id status : string) (priority created_at : Z) : JobRow :=
  mkJobRow id ("videos/" ++ id)%string ("results/" ++ id)%string None None
           status priority created_at 0 None None None None.

Definition attempt (id job_id : string) (no : Z) (status : string) : AttemptRow :=
  mkAttemptRow id job_id no "w1" status 0 None None None.

(** Three jobs: one already running, two queued with priorities 1 and 5. *)
Definition three_jobs : Db :=
  mkDb [job "a" "running" 9 10; job "b" "queued" 1 20; job "c" "queued" 5 30] [].

(** One queued job and nothing else. *)
Definition one_job : Db := mkDb [job "j1" "queued" 0 100] [].

(** Adapters that all succeed: one frame extracted, one asset exported. *)
Definition all_fine : Ports.Env :=
  Ports.mkEnv
    (fun _ => Ok tt)
    (fun _ => Ok ["work/j1/output/frames/frame_000001.png"])
    (fun _ => Ok tt)
    (Ok (mkFrameExtractionResult "work/j1/output/frames" 1))
    (Ok (mkGlbExportResult "work/j1/output" (Some "work/j1/output/scene.glb") 1))
    (Ok tt) (Ok tt)
    (Ok (mkJobAttemptInfo "a1" 1))
    (Ok tt) (Ok tt) (Ok tt) (Ok tt)
    (fun _ => Ok tt)
    (fun _ => true) (fun _ => true) (fun _ => 2048).

Definition PermissionError : PyExc :=
  mkExc "PermissionError" true "[Errno 13] Permission denied: 'work'".

(** The working directory cannot be created. *)
Definition read_only_disk : Ports.Env :=
  Ports.mkEnv
    (fun _ => Raise PermissionError)
    (Ports.list_frame_images_outcome all_fine)
    (Ports.remove_dir_outcome all_fine)
    (Ports.extract_frames_outcome all_fine)
    (Ports.export_glb_from_images_outcome all_fine)
    (Ok tt) (Ok tt)
    (Ports.start_job_attempt_outcome all_fine)
    (Ok tt) (Ok tt) (Ok tt) (Ok tt)
    (fun _ => Ok tt)
    (fun _ => true) (fun _ => true) (fun _ => 2048).

(** The object storage refuses the download. *)
Definition storage_down : Ports.Env :=
  Ports.mkEnv
    (fun _ => Ok tt)
    (Ports.list_frame_images_outcome all_fine)
    (Ports.remove_dir_outcome all_fine)
    (Ports.extract_frames_outcome all_fine)
    (Ports.export_glb_from_images_outcome all_fine)
    (Raise (RuntimeError "S3 operation failed")) (Ok tt)
    (Ports.start_job_attempt_outcome all_fine)
    (Ok tt) (Ok tt) (Ok tt) (Ok tt)
    (fun _ => Ok tt)
    (fun _ => true) (fun _ => true) (fun _ => 2048).

Definition video_job (fps : float) : VideoJob :=
  mkVideoJob "j1" "videos/j1" "results/j1/" fps "depth-anything/da3nested-giant-large".

Definition worker : WorkerInfo := mkWorkerInfo "w1" "gpu-01" "GPU 01".

End Sample.

(* ================================================================== *)
(** ** The worker registry (upsert_worker_heartbeat) *)
(* ================================================================== *)

Module Workers.

(** A row of [gpu_workers]. *)
Record WorkerRow : Type := mkWorkerRow {
  w_id : string;
  w_worker_key : string;
  w_display_name : string;
  w_status : string;
  w_last_heartbeat_at : Z;
  w_ip_address : option string;
  w_tags_json : string;
  w_capacity_json : string;
  w_created_at : Z;
  w_updated_at : Z
}.

Definition has_key (worker_key : string) (w : WorkerRow) : bool :=
  String.eqb (w_worker_key w) worker_key.

(** [INSERT INTO gpu_workers ... ON CONFLICT (worker_key) DO UPDATE SET ...
    RETURNING id::text, worker_key, display_name]: the row of that key is
    rewritten in place, keeping its id and [created_at]; without one, a row is
    added under the id the table generates. The value is the RETURNING row. *)
Fixpoint insert_on_conflict_update (now : Z) (new_id : string)
    (worker_key display_name status : string) (ip_address : option string)
    (tags_json_text capacity_json_text : string) (rows : list WorkerRow)
    : (string * string * string) * list WorkerRow :=
  match rows with
  | [] =>
      let row := mkWorkerRow new_id worker_key display_name status now ip_address
                             tags_json_text capacity_json_text now now in
      ((w_id row, w_worker_key row, w_display_name row), [row])
  | w :: rest =>
      if has_key worker_key w then
        let row := mkWorkerRow (w_id w) (w_worker_key w) display_name status now
                               ip_address tags_json_text capacity_json_text
                               (w_created_at w) now in
        ((w_id row, w_worker_key row, w_display_name row), row :: rest)
      else
        let (returning, rest') :=
          insert_on_conflict_update now new_id worker_key display_name status
            ip_address tags_json_text capacity_json_text rest in
        (returning, w :: rest')
  end.

(** [upsert_worker_heartbeat]; [failing] says that the statement raises (the
    server is away, the JSON text does not cast to jsonb). *)
Definition upsert_worker_heartbeat (failing : bool) (now : Z) (new_id : string)
    (worker_key display_name status : string) (ip_address : option string)
    (tags_json_text capacity_json_text : string) (rows : list WorkerRow)
    : result WorkerInfo * list WorkerRow :=
  if failing then (Raise Repo.DatabaseError, rows)
  else
    match insert_on_conflict_update now new_id worker_key display_name status
            ip_address tags_json_text capacity_json_text rows with
    | ((r0, r1, r2), rows') => (Ok (mkWorkerInfo r0 r1 r2), rows')
    end.

(** [worker_key] is unique in the table. *)
Definition keys_unique (rows : list WorkerRow) : Prop :=
  NoDup (map w_worker_key rows).

End Workers.

(* ================================================================== *)
(** ** Row relations for the attempt life cycle *)
(* ================================================================== *)

Module Lifecycle.
Import Repo.

(** Row [j'] is row [j] after [mark_job_succeeded] on [job_id]. *)
Definition job_succeeded (job_id : string) (now : Z) (j j' : JobRow) : Prop :=
  if String.eqb (j_id j) job_id then
    j_id j' = j_id j /\ j_status j' = "succeeded" /\ j_progress_percent j' = 100
    /\ j_error_code j' = None /\ j_error_message j' = None
    /\ j_finished_at j' = Some now
    /\ j_started_at j' = j_started_at j
    /\ j_priority j' = j_priority j /\ j_created_at j' = j_created_at j
  else j' = j.

(** Attempt [a'] is attempt [a] after [mark_job_succeeded] with [attempt_id]. *)
Definition attempt_succeeded (attempt_id : string) (now : Z) (a a' : AttemptRow) : Prop :=
  if String.eqb (a_id a) attempt_id then
    a_id a' = a_id a /\ a_job_id a' = a_job_id a /\ a_attempt_no a' = a_attempt_no a
    /\ a_worker_id a' = a_worker_id a /\ a_started_at a' = a_started_at a
    /\ a_status a' = "succeeded" /\ a_finished_at a' = Some now
    /\ a_exit_code a' = Some 0 /\ a_error_message a' = None
  else a' = a.

(** Row [j'] is row [j] with the progress of [job_id] set to [p]: the twelve
    other columns are those of [j]. *)
Definition progress_set (job_id : string) (p : Z) (j j' : JobRow) : Prop :=
  if String.eqb (j_id j) job_id then
    j_progress_percent j' = p
    /\ j_id j' = j_id j /\ j_status j' = j_status j
    /\ j_error_code j' = j_error_code j /\ j_error_message j' = j_error_message j
    /\ j_started_at j' = j_started_at j /\ j_finished_at j' = j_finished_at j
    /\ j_priority j' = j_priority j /\ j_created_at j' = j_created_at j
    /\ j_input_object_key j' = j_input_object_key j
    /\ j_output_prefix j' = j_output_prefix j
    /\ j_params_fps j' = j_params_fps j
    /\ j_params_modelId j' = j_params_modelId j
  else j' = j.

(** The progress updates [ps] of one job, in order, each committing. *)
Definition update_progress_all (job_id : string) (ps : list Z) (d : Db) : Db :=
  fold_left (fun d p => snd (update_progress no_faults job_id p d)) ps d.

(** A first attempt that fails and a second that is started: the two attempt
    numbers handed out and the store at the end. *)
Definition start_fail_start (now1 now2 now3 : Z) (id1 id2 : string)
    (job_id worker_id : string) (error_code : option string) (message : string)
    (exit_code : option Z) (d : Db) : result Z * result Z * Db :=
  let r1 := start_job_attempt no_faults now1 id1 job_id worker_id d in
  let d2 := snd (mark_job_failed no_faults now2 job_id (Some id1) error_code
                                 message exit_code (snd r1)) in
  let r3 := start_job_attempt no_faults now3 id2 job_id worker_id d2 in
  (match fst r1 with Ok i => Ok (attempt_no i) | Raise e => Raise e end,
   match fst r3 with Ok i => Ok (attempt_no i) | Raise e => Raise e end,
   snd r3).

(** An attempt that is started and then succeeds. *)
Definition start_succeed (now1 now2 : Z) (new_id : string) (job_id worker_id : string)
    (d : Db) : Db :=
  match start_job_attempt no_faults now1 new_id job_id worker_id d with
  | (Ok info, d1) => snd (mark_job_succeeded no_faults now2 job_id (attempt_id info) d1)
  | (Raise _, d1) => d1
  end.

End Lifecycle.

(* ================================================================== *)
(** ** Reporters inside reporters, and environments that differ in one answer *)
(* ================================================================== *)

Module Nesting.
Import Ports Composite.

(** A composite is itself a ProgressReporterPort: as a reporter of another
    composite it is called through its two methods. *)
Definition as_sink (c : CompositeProgressReporter) : Sink :=
  mkSink (report_phase c) (report_progress c).

End Nesting.

Module Variations.
Import Ports.

(** [env] with another answer of [remove_dir]. *)
Definition with_remove_dir (f : Path -> result unit) (env : Env) : Env :=
  mkEnv (ensure_dir_outcome env) (list_frame_images_outcome env) f
        (extract_frames_outcome env) (export_glb_from_images_outcome env)
        (download_file_outcome env) (upload_file_outcome env)
        (start_job_attempt_outcome env) (update_progress_outcome env)
        (add_artifact_outcome env) (mark_job_succeeded_outcome env)
        (mark_job_failed_outcome env) (report_phase_outcome env)
        (input_video_exists env) (glb_exists env) (glb_st_size env).

Definition is_RemoveDir (c : Call) : bool :=
  match c with RemoveDir _ => true | _ => false end.

Definition is_ExportGlbFromImages (c : Call) : bool :=
  match c with ExportGlbFromImages _ _ _ => true | _ => false end.

(** The repository calls that write to [jobs] or [job_attempts]. *)
Definition is_repository_call (c : Call) : bool :=
  match c with
  | StartJobAttempt _ _ | UpdateProgress _ _
  | MarkJobSucceeded _ _ | MarkJobFailed _ _ _ _ _ => true
  | _ => false
  end.

(** The calls [RunSingleJobUseCase.execute] makes itself once the conversion
    is over. *)
Definition is_finishing_call (c : Call) : bool :=
  match c with
  | UploadFile _ _ _ _ | AddArtifact _ _ _ _ _ => true
  | _ => false
  end.

(** Neither a finishing call nor a call that writes to the job store. *)
Definition is_conversion_call (c : Call) : bool :=
  negb (is_finishing_call c) && negb (is_repository_call c).

(** The object key the asset of a job is stored under. *)
Definition glb_object_key (job : VideoJob) : string :=
  (rstrip_slash (output_prefix job) ++ "/result.glb")%string.

(** [n] slashes. *)
Fixpoint slashes (n : nat) : string :=
  match n with
  | O => EmptyString
  | S n' => String "/"%char (slashes n')
  end.

(** The last character of a str is a slash. *)
Fixpoint ends_with_slash (s : string) : bool :=
  match s with
  | EmptyString => false
  | String c EmptyString => Ascii.eqb c "/"%char
  | String _ rest => ends_with_slash rest
  end.

End Variations.

(* ================================================================== *)
(** ** MinioObjectStorageAdapter (app/adapters/minio_object_storage.py) *)
(* ================================================================== *)

Module Storage.

(** A call on the MinIO client, or on the filesystem. [content_type] of
    [FputObject] is None when the argument is not passed. *)
Inductive ClientCall : Type :=
| MkdirParent (local_path : Path)
| FgetObject (bucket_name object_name : string) (file_path : Path)
| BucketExists (bucket : string)
| MakeBucket (bucket : string)
| FputObject (bucket_name object_name : string) (file_path : Path)
             (content_type : option string).

Record Client : Type := mkClient {
  mkdir_outcome : Path -> result unit;
  fget_object_outcome : string -> string -> result unit;
  bucket_exists_outcome : string -> result bool;
  make_bucket_outcome : string -> result unit;
  fput_object_outcome : string -> string -> result unit
}.

Definition S (A : Type) : Type := list ClientCall -> result A * list ClientCall.

Definition ret {A} (a : A) : S A := fun tr => (Ok a, tr).

Definition bind {A B} (m : S A) (k : A -> S B) : S B :=
  fun tr =>
    match m tr with
    | (Ok a, tr') => k a tr'
    | (Raise e, tr') => (Raise e, tr')
    end.

Definition call {A} (c : ClientCall) (outcome : result A) : S A :=
  fun tr => (outcome, (tr ++ [c])%list).

Section Adapter.

Variable client : Client.

Definition download_file (bucket key : string) (local_path : Path) : S unit :=
  bind (call (MkdirParent local_path) (mkdir_outcome client local_path)) (fun _ =>
  call (FgetObject bucket key local_path) (fget_object_outcome client bucket key)).

Definition _ensure_bucket_exists (bucket : string) : S unit :=
  bind (call (BucketExists bucket) (bucket_exists_outcome client bucket)) (fun exists_ =>
  if Bool.eqb exists_ false
  then call (MakeBucket bucket) (make_bucket_outcome client bucket)
  else ret tt).

Definition upload_file (local_path : Path) (bucket key : string)
    (content_type : option string) : S unit :=
  bind (_ensure_bucket_exists bucket) (fun _ =>
  match content_type with
  | None =>
      call (FputObject bucket key local_path None) (fput_object_outcome client bucket key)
  | Some content_type =>
      call (FputObject bucket key local_path (Some content_type))
           (fput_object_outcome client bucket key)
  end).

End Adapter.

Definition is_bucket_call (c : ClientCall) : bool :=
  match c with BucketExists _ | MakeBucket _ => true | _ => false end.

End Storage.

(* ================================================================== *)
(** ** The worker: poll loop and heartbeat (app/worker_main.py) *)
(* ================================================================== *)

Module Worker.

(** [WorkerState]; its lock makes [set_status] and [get_snapshot] atomic. *)
Record WorkerState : Type := mkWorkerState {
  _status : string;
  _current_job_id : option string
}.

(** What the worker does, as seen from outside: the state it publishes, its
    calls on the repository, its pauses and prints, and the port calls of a
    job execution. *)
Inductive Event : Type :=
| StatusSet (status : string) (current_job_id : option string)
| Fetch (worker_key : string)
| Sleep (seconds : float)
| Heartbeat (worker_key display_name status : string) (ip_address : option string)
            (tags_json_text capacity_json_text : string)
| Print (line : string)
| Port (c : Ports.Call)
| StopEventSet
| Join (timeout : float)
| StopEventWait (seconds : float).

Record World : Type := mkWorld {
  state : WorkerState;
  events : list Event
}.

Definition W (A : Type) : Type := World -> result A * World.

Definition ret {A} (a : A) : W A := fun w => (Ok a, w).

Definition raise {A} (e : PyExc) : W A := fun w => (Raise e, w).

Definition bind {A B} (m : W A) (k : A -> W B) : W B :=
  fun w =>
    match m w with
    | (Ok a, w') => k a w'
    | (Raise e, w') => (Raise e, w')
    end.

Definition emit (ev : Event) : W unit :=
  fun w => (Ok tt, mkWorld (state w) (events w ++ [ev])%list).

Definition call {A} (ev : Event) (outcome : result A) : W A :=
  fun w => (outcome, mkWorld (state w) (events w ++ [ev])%list).

(** [state.set_status(status, current_job_id)]. *)
Definition set_status (status : string) (current_job_id : option string) : W unit :=
  fun w => (Ok tt, mkWorld (mkWorkerState status current_job_id)
                           (events w ++ [StatusSet status current_job_id])%list).

(** [state.get_snapshot()]. *)
Definition get_snapshot : W (string * option string) :=
  fun w => (Ok (_status (state w), _current_job_id (state w)), w).

Definition print (line : string) : W unit := emit (Print line).

(** [try: body / except Exception as ex: handler(ex)]. *)
Definition try_except {A} (body : W A) (handler : PyExc -> W A) : W A :=
  fun w =>
    match body w with
    | (Raise e, w') => if exc_is_Exception e then handler e w' else (Raise e, w')
    | ok => ok
    end.

(** [try: body / finally: final]. *)
Definition try_finally {A} (body : W A) (final : W unit) : W A :=
  fun w =>
    match body w with
    | (r, w') =>
        match final w' with
        | (Ok _, w'') => (r, w'')
        | (Raise e, w'') => (Raise e, w'')
        end
    end.

(** What [main] reads from the environment before the loop. *)
Record Config : Type := mkConfig {
  worker_key : string;
  worker_display_name : string;
  worker_ip : option string;
  tags_json_text : string;
  capacity_json_text : string;
  idle_sleep_sec : float;
  input_bucket : string;
  output_bucket : string;
  keep_frames_for_debug : bool
}.

(** What one pass of the loop meets: the answers of the repository, of the
    pause, and of the adapters behind the job execution. *)
Record Tick : Type := mkTick {
  fetch_outcome : result (option VideoJob);
  sleep_outcome : result unit;
  heartbeat_outcome : result WorkerInfo;
  ports : Ports.Env
}.

Section Main.

Variable cfg : Config.

(** [run_job_use_case.execute(job=job, worker=worker)], with the use cases
    wired as [main] wires them. *)
Definition run_job (tick : Tick) (job : VideoJob) (worker : WorkerInfo) : W unit :=
  fun w =>
    match RunJob.execute (ports tick) (input_bucket cfg) (output_bucket cfg)
                         (keep_frames_for_debug cfg) job worker [] with
    | (r, calls) => (r, mkWorld (state w) (events w ++ map Port calls)%list)
    end.

(** The body of [while True]. *)
Definition iteration (tick : Tick) : W unit :=
  bind get_snapshot (fun snapshot =>
  bind (if negb (String.eqb (fst snapshot) "online")
        then set_status "online" None else ret tt) (fun _ =>
  bind (call (Fetch (worker_key cfg)) (fetch_outcome tick)) (fun job =>
  match job with
  | None => call (Sleep (idle_sleep_sec cfg)) (sleep_outcome tick)
  | Some job =>
      bind (set_status "draining" (Some (job_id job))) (fun _ =>
      try_finally
        (try_except
           (bind (call (Heartbeat (worker_key cfg) (worker_display_name cfg) "draining"
                                  (worker_ip cfg) (tags_json_text cfg)
                                  (capacity_json_text cfg))
                       (heartbeat_outcome tick)) (fun worker =>
            bind (print ("[INFO] start job_id=" ++ job_id job ++ " worker_key="
                           ++ Models.worker_key worker)%string) (fun _ =>
            bind (run_job tick job worker) (fun _ =>
            print ("[INFO] completed job_id=" ++ job_id job)%string))))
           (fun ex =>
              print ("[ERROR] job failed job_id=" ++ job_id job ++ " error="
                       ++ exc_str ex)%string))
        (set_status "online" None))
  end))).

(** The loop over the passes given; it returns when they are used up and the
    loop would go on, and raises what left the loop. *)
Fixpoint poll (ticks : list Tick) : W unit :=
  match ticks with
  | [] => ret tt
  | tick :: rest => bind (iteration tick) (fun _ => poll rest)
  end.

(** The [finally] block of [main]. *)
Definition shutdown (offline_outcome : result WorkerInfo) : W unit :=
  bind (emit StopEventSet) (fun _ =>
  bind (emit (Join 3%float)) (fun _ =>
  try_except
    (bind (call (Heartbeat (worker_key cfg) (worker_display_name cfg) "offline"
                           (worker_ip cfg) (tags_json_text cfg) (capacity_json_text cfg))
                offline_outcome) (fun _ => ret tt))
    (fun ex => print ("[WARN] failed to set offline heartbeat: " ++ exc_str ex)%string))).

(** [main] from the moment the loop is left by the exception [e]: the
    [except KeyboardInterrupt] clause, the [finally] block, [return 0]. *)
Definition leave_loop (offline_outcome : result WorkerInfo) (e : PyExc) : W Z :=
  bind (try_finally
          (if String.eqb (exc_class e) "KeyboardInterrupt"
           then print "[INFO] stopping worker..."
           else raise e)
          (shutdown offline_outcome)) (fun _ =>
  ret 0).

(** One pass of [_heartbeat_loop]: the snapshot is published, a failure is
    printed, and the thread waits for the interval. *)
Definition heartbeat_pass (interval_sec : float) (outcome : result WorkerInfo) : W unit :=
  bind (try_except
          (bind get_snapshot (fun snapshot =>
           let display_name :=
             match snd snapshot with
             | None => worker_display_name cfg
             | Some _ => (worker_display_name cfg ++ " (busy)")%string
             end in
           bind (call (Heartbeat (worker_key cfg) display_name (fst snapshot)
                                 (worker_ip cfg) (tags_json_text cfg)
                                 (capacity_json_text cfg)) outcome) (fun _ =>
           ret tt)))
          (fun ex => print ("[WARN] heartbeat failed: " ++ exc_str ex)%string)) (fun _ =>
  emit (StopEventWait interval_sec)).

(** [_heartbeat_loop] over the passes given: each has what
    [stop_event.is_set()] answers and what the repository answers. *)
Fixpoint _heartbeat_loop (interval_sec : float)
    (passes : list (bool * result WorkerInfo)) : W unit :=
  match passes with
  | [] => ret tt
  | (is_set, outcome) :: rest =>
      if Bool.eqb is_set false
      then bind (heartbeat_pass interval_sec outcome) (fun _ =>
           _heartbeat_loop interval_sec rest)
      else ret tt
  end.

End Main.

(** A published state is consistent: 'draining' exactly with a job id. *)
Definition consistent (st : WorkerState) : Prop :=
  _status st = "draining" <-> _current_job_id st <> None.

Definition is_StatusSet (ev : Event) : bool :=
  match ev with StatusSet _ _ => true | _ => false end.

(** A published status is 'draining' exactly when a job id comes with it. *)
Definition status_ok (ev : Event) : bool :=
  match ev with
  | StatusSet status current_job_id =>
      Bool.eqb (String.eqb status "draining")
               (match current_job_id with Some _ => true | None => false end)
  | _ => true
  end.

Definition is_Fetch (ev : Event) : bool :=
  match ev with Fetch _ => true | _ => false end.

Definition is_Heartbeat (ev : Event) : bool :=
  match ev with Heartbeat _ _ _ _ _ _ => true | _ => false end.

(** The outcome is a return, or an exception that [except Exception] catches. *)
Definition recoverable {A} (r : result A) : bool :=
  match r with Ok _ => true | Raise e => exc_is_Exception e end.

(** A pass the loop survives: the lease and the pause return, and what the
    heartbeat and the execution raise, if anything, is an [Exception]. *)
Definition survivable (cfg : Config) (tick : Tick) : bool :=
  match fetch_outcome tick with
  | Raise _ => false
  | Ok None => match sleep_outcome tick with Ok _ => true | Raise _ => false end
  | Ok (Some job) =>
      match heartbeat_outcome tick with
      | Raise e => exc_is_Exception e
      | Ok worker =>
          recoverable (fst (RunJob.execute (ports tick) (input_bucket cfg)
                              (output_bucket cfg) (keep_frames_for_debug cfg)
                              job worker []))
      end
  end.

End Worker.

(* ================================================================== *)
(** * Theorems *)
(* ================================================================== *)

(** ** The ordering of the locking read *)

Section Ordering.
Import Repo.

Lemma sorts_before_false (a b : JobRow) :
  sorts_before a b = false <->
  j_priority a <= j_priority b
  /\ (j_priority a = j_priority b -> j_created_at b <= j_created_at a).
Proof.
  unfold sorts_before.
  destruct (Z.ltb_spec (j_priority b) (j_priority a));
    destruct (Z.eqb_spec (j_priority a) (j_priority b));
    destruct (Z.ltb_spec (j_created_at a) (j_created_at b));
    cbn; split; intros; try discriminate; try lia; auto.
Qed.

Lemma sorts_before_true (a b : JobRow) :
  sorts_before a b = true <->
  j_priority b < j_priority a
  \/ (j_priority a = j_priority b /\ j_created_at a < j_created_at b).
Proof.
  unfold sorts_before.
  destruct (Z.ltb_spec (j_priority b) (j_priority a));
    destruct (Z.eqb_spec (j_priority a) (j_priority b));
    destruct (Z.ltb_spec (j_created_at a) (j_created_at b));
    cbn; split; intros; try discriminate; try lia; auto.
Qed.

Lemma first_in_order_None (rows : list JobRow) :
  first_in_order rows = None -> rows = [].
Proof.
  destruct rows as [|r rest]; [reflexivity|].
  cbn. destruct (first_in_order rest); [destruct (sorts_before j r)|]; discriminate.
Qed.

Lemma first_in_order_In (rows : list JobRow) (j : JobRow) :
  first_in_order rows = Some j -> In j rows.
Proof.
  revert j. induction rows as [|r rest IH]; cbn; intros j H; [discriminate|].
  destruct (first_in_order rest) as [b|].
  - destruct (sorts_before b r); inversion H; subst; auto.
  - inversion H; auto.
Qed.

Lemma first_in_order_least (rows : list JobRow) (j : JobRow) :
  first_in_order rows = Some j ->
  forall j', In j' rows -> sorts_before j' j = false.
Proof.
  revert j. induction rows as [|r rest IH]; cbn; intros j H j' Hin; [contradiction|].
  destruct (first_in_order rest) as [b|] eqn:Hb.
  - destruct (sorts_before b r) eqn:Hbr; inversion H; subst; clear H.
    + destruct Hin as [->|Hin]; [|eauto].
      apply sorts_before_true in Hbr. apply sorts_before_false. lia.
    + destruct Hin as [->|Hin].
      * apply sorts_before_false. lia.
      * specialize (IH b eq_refl j' Hin).
        apply sorts_before_false in IH, Hbr. apply sorts_before_false. lia.
  - inversion H; subst. apply first_in_order_None in Hb. subst rest.
    destruct Hin as [->|[]]. apply sorts_before_false. lia.
Qed.

(** What the locking read returns, whatever the locks: a queued row no other
    transaction has locked, and none of those sorts before it. *)
Lemma select_for_update_skip_locked_spec (me : Conn) (s : Server) :
  match fst (select_for_update_skip_locked me s) with
  | None =>
      forall j, In j (jobs (db s)) -> j_status j = "queued" ->
                locked_by_other me (locks s) (j_id j) = true
  | Some j =>
      In j (jobs (db s)) /\ j_status j = "queued"
      /\ locked_by_other me (locks s) (j_id j) = false
      /\ forall j', In j' (jobs (db s)) -> j_status j' = "queued" ->
                    locked_by_other me (locks s) (j_id j') = false ->
                    sorts_before j' j = false
  end.
Proof.
  unfold select_for_update_skip_locked.
  set (ok := fun j => (j_status j =? "queued")%string
                      && negb (locked_by_other me (locks s) (j_id j))).
  destruct (first_in_order (filter ok (jobs (db s)))) as [j|] eqn:Hf; cbn.
  - pose proof (first_in_order_In _ _ Hf) as Hin.
    apply filter_In in Hin. destruct Hin as [Hin Hok].
    unfold ok in Hok. apply andb_true_iff in Hok. destruct Hok as [Hq Hl].
    apply String.eqb_eq in Hq. apply negb_true_iff in Hl.
    repeat split; auto.
    intros j' Hin' Hq' Hl'. apply (first_in_order_least _ _ Hf).
    apply filter_In. split; [assumption|].
    unfold ok. rewrite Hq', Hl'. reflexivity.
  - apply first_in_order_None in Hf.
    intros j Hin Hq.
    destruct (locked_by_other me (locks s) (j_id j)) eqn:Hl; [reflexivity|].
    assert (In j (filter ok (jobs (db s)))) as Hc.
    { apply filter_In. split; [assumption|]. unfold ok. rewrite Hq, Hl. reflexivity. }
    rewrite Hf in Hc. contradiction.
Qed.

Lemma select_for_update_skip_locked_db (me : Conn) (s : Server) :
  db (snd (select_for_update_skip_locked me s)) = db s.
Proof.
  unfold select_for_update_skip_locked.
  destruct (first_in_order _); reflexivity.
Qed.

Lemma select_for_update_skip_locked_locks (me : Conn) (s : Server) :
  locks (snd (select_for_update_skip_locked me s)) =
  match fst (select_for_update_skip_locked me s) with
  | Some j => (j_id j, me) :: locks s
  | None => locks s
  end.
Proof.
  unfold select_for_update_skip_locked.
  destruct (first_in_order _); reflexivity.
Qed.

Lemma fetch_next_queued_job_unfold (worker_key : string) (me : Conn) (s : Server) :
  fetch_next_queued_job worker_key me s =
  (to_VideoJob (fst (select_for_update_skip_locked me s)),
   commit me (snd (select_for_update_skip_locked me s))).
Proof.
  unfold fetch_next_queued_job.
  destruct (select_for_update_skip_locked me s); reflexivity.
Qed.

Lemma commit_locks_not_mine (me : Conn) (s : Server) (l : string * Conn) :
  In l (locks (commit me s)) <-> In l (locks s) /\ snd l <> me.
Proof.
  unfold commit; cbn. rewrite filter_In, negb_true_iff, Nat.eqb_neq.
  reflexivity.
Qed.

End Ordering.

(** ** fetch_next_queued_job: what it selects *)

Section Selection.
Import Repo.

(** C2, as the code has it. In every state of the server,
    [fetch_next_queued_job] looks at the rows whose status is 'queued' and
    that no other open transaction has locked. It returns None exactly when
    there is no such row. Otherwise the VideoJob it returns is built from one
    of them: its id, input object key and output prefix are the row's, its
    fps and model id are those of [params_json], or 2.0 and
    'depth-anything/da3nested-giant-large' where [params_json] has none; and
    no such row comes before that one by priority descending, then creation
    time ascending. Without a queued row it returns None; when every lock
    held is the caller's own, the rows it looks at are all the queued rows;
    and with a queued job of priority 5 that no other transaction has locked
    and a queued job of priority 1, it returns the priority-5 job in
    whichever order the table holds them. *)
Theorem fetch_next_queued_job_selects_first_queued
    (worker_key : string) (me : Conn) (s : Server) :
  let eligible := fun j =>
    In j (jobs (db s)) /\ j_status j = "queued"
    /\ locked_by_other me (locks s) (j_id j) = false in
  let built_from := fun j =>
    mkVideoJob (j_id j) (j_input_object_key j) (j_output_prefix j)
               (match j_params_fps j with Some f => f | None => 2%float end)
               (match j_params_modelId j with
                | Some m => m
                | None => "depth-anything/da3nested-giant-large"
                end) in
  let answer := fst (fetch_next_queued_job worker_key me s) in
  (answer = None <-> forall j, ~ eligible j)
  /\ (forall v, answer = Some v ->
        exists j,
          eligible j /\ v = built_from j
          /\ forall j', eligible j' ->
               j_priority j' <= j_priority j
               /\ (j_priority j' = j_priority j -> j_created_at j <= j_created_at j'))
  /\ ((forall j, In j (jobs (db s)) -> j_status j <> "queued") -> answer = None)
  /\ ((forall l, In l (locks s) -> snd l = me) ->
        forall j, eligible j <-> In j (jobs (db s)) /\ j_status j = "queued")
  /\ (forall (hi lo : JobRow) (attempts : list AttemptRow),
        j_status hi = "queued" -> j_status lo = "queued" ->
        j_priority hi = 5 -> j_priority lo = 1 ->
        locked_by_other me (locks s) (j_id hi) = false ->
        fst (fetch_next_queued_job worker_key me
               (mkServer (mkDb [hi; lo] attempts) (locks s)))
          = Some (built_from hi)
        /\ fst (fetch_next_queued_job worker_key me
                  (mkServer (mkDb [lo; hi] attempts) (locks s)))
          = Some (built_from hi)).
Proof.
  cbv zeta.
  assert (forall j, to_VideoJob (Some j) =
            Some (mkVideoJob (j_id j) (j_input_object_key j) (j_output_prefix j)
                    (match j_params_fps j with Some f => f | None => 2%float end)
                    (match j_params_modelId j with
                     | Some m => m
                     | None => "depth-anything/da3nested-giant-large"
                     end))) as Hbuilt by reflexivity.
  rewrite fetch_next_queued_job_unfold. cbn [fst].
  pose proof (select_for_update_skip_locked_spec me s) as H.
  split; [|split; [|split; [|split]]].
  - destruct (fst (select_for_update_skip_locked me s)) as [j|].
    + rewrite Hbuilt. split; [discriminate|].
      intros Hno. exfalso. apply (Hno j). tauto.
    + split; [|reflexivity]. intros _ j (Hin & Hq & Hfree).
      rewrite (H j Hin Hq) in Hfree. discriminate.
  - intros v Hv.
    destruct (fst (select_for_update_skip_locked me s)) as [j|]; [|discriminate].
    rewrite Hbuilt in Hv. inversion Hv; subst v. clear Hv.
    destruct H as (Hin & Hq & Hfree & Hleast).
    exists j. split; [tauto|]. split; [reflexivity|].
    intros j' (Hin' & Hq' & Hfree'). specialize (Hleast j' Hin' Hq' Hfree').
    apply sorts_before_false in Hleast. lia.
  - intros Hnone.
    destruct (fst (select_for_update_skip_locked me s)) as [j|]; [|reflexivity].
    destruct H as (Hin & Hq & _). exfalso. exact (Hnone j Hin Hq).
  - intros Hmine j. split; [tauto|]. intros [Hin Hq]. split; [exact Hin|].
    split; [exact Hq|].
    destruct (locked_by_other me (locks s) (j_id j)) eqn:Hex; [|reflexivity].
    unfold locked_by_other in Hex. apply existsb_exists in Hex. destruct Hex as (l & Hl & Hc).
    apply andb_true_iff in Hc. destruct Hc as [_ Hc].
    apply negb_true_iff, Nat.eqb_neq in Hc. exfalso. exact (Hc (Hmine l Hl)).
  - intros hi lo attempts Hh Hl Ph Pl Hfree.
    rewrite !fetch_next_queued_job_unfold. cbn [fst]. rewrite <- Hbuilt.
    unfold select_for_update_skip_locked. cbn [db locks jobs filter].
    rewrite Hh, Hl, Hfree. cbn [String.eqb Ascii.eqb Bool.eqb andb negb].
    destruct (locked_by_other me (locks s) (j_id lo));
      cbn [negb first_in_order]; unfold sorts_before; rewrite ?Ph, ?Pl;
      cbn; split; reflexivity.
Qed.

(** On the sample table: the running job is passed over, and of the two
    queued ones the priority-5 job comes first. *)
Example fetch_next_queued_job_on_three_jobs :
  option_map job_id
    (fst (fetch_next_queued_job "gpu-01" 0%nat (mkServer Sample.three_jobs [])))
  = Some "c".
Proof. reflexivity. Qed.

End Selection.

(** C2, as stated, fails while another transaction is open. Connection 1 has
    read job c (priority 5) and not yet committed: both b and c are queued,
    and [fetch_next_queued_job] on connection 0 returns job b, of priority 1.
    And where the only queued job is held that way, it returns None although
    a queued job exists. *)
Lemma fetch_next_queued_job_passes_over_a_locked_row :
  let s := Lease.server (Lease.run [1; 1]%nat (Lease.start Sample.three_jobs)) in
  let s1 := Lease.server (Lease.run [1; 1]%nat (Lease.start Sample.one_job)) in
  Repo.locks s = [("c", 1%nat)]
  /\ map (fun j => (Repo.j_id j, Repo.j_status j, Repo.j_priority j)) (Repo.jobs (Repo.db s))
     = [("a", "running", 9); ("b", "queued", 1); ("c", "queued", 5)]
  /\ option_map job_id (fst (Repo.fetch_next_queued_job "gpu-01" 0%nat s)) = Some "b"
  /\ map (fun j => (Repo.j_id j, Repo.j_status j)) (Repo.jobs (Repo.db s1))
     = [("j1", "queued")]
  /\ fst (Repo.fetch_next_queued_job "gpu-01" 0%nat s1) = None.
Proof. cbv zeta. repeat split. Qed.

(** ** fetch_next_queued_job: what it leaves behind *)

Section Leasing.
Import Repo.

Lemma locked_by_other_In (me c : Conn) (lk : list (string * Conn)) (id : string) :
  In (id, c) lk -> c <> me -> locked_by_other me lk id = true.
Proof.
  intros Hin Hne. unfold locked_by_other. apply existsb_exists.
  exists (id, c). split; [assumption|]. cbn.
  rewrite String.eqb_refl. cbn. apply negb_true_iff, Nat.eqb_neq. assumption.
Qed.

(** While a transaction that read row [j] is open, the locking read of
    another connection does not return that row. *)
Lemma select_passes_over_locked_row (me other : Conn) (s : Server) (j j' : JobRow) :
  other <> me ->
  fst (select_for_update_skip_locked me s) = Some j ->
  fst (select_for_update_skip_locked other (snd (select_for_update_skip_locked me s)))
    = Some j' ->
  j_id j' <> j_id j.
Proof.
  intros Hne Hj Hj' Heq.
  pose proof (select_for_update_skip_locked_spec other
                (snd (select_for_update_skip_locked me s))) as H.
  rewrite Hj' in H. destruct H as (_ & _ & Hfree & _).
  rewrite select_for_update_skip_locked_locks, Hj in Hfree.
  rewrite (locked_by_other_In other me _ (j_id j')) in Hfree; try discriminate.
  - left. rewrite Heq. reflexivity.
  - auto.
Qed.

(** C10. A call of [fetch_next_queued_job] modifies no row: the store after it
    is the store before it, and the job it returns is still 'queued'. The row
    lock its read takes is held while its transaction is open, during which
    the read of another connection passes over the row, and is gone when the
    call returns: made after the return, another call returns the same job. *)
Theorem fetch_next_queued_job_changes_nothing
    (worker_key worker_key' : string) (me other : Conn) (s : Server) :
  let reading := select_for_update_skip_locked me s in
  let after := fetch_next_queued_job worker_key me s in
  db (snd after) = db s
  /\ (forall v, fst after = Some v ->
        exists j, In j (jobs (db (snd after)))
                  /\ j_id j = job_id v /\ j_status j = "queued")
  /\ (forall j, fst reading = Some j -> In (j_id j, me) (locks (snd reading)))
  /\ (forall j j', other <> me -> fst reading = Some j ->
        fst (select_for_update_skip_locked other (snd reading)) = Some j' ->
        j_id j' <> j_id j)
  /\ (forall l, In l (locks (snd after)) -> snd l <> me)
  /\ (locks s = [] ->
        snd after = s
        /\ fst (fetch_next_queued_job worker_key' other (snd after)) = fst after).
Proof.
  cbv zeta. rewrite fetch_next_queued_job_unfold. cbn [fst snd].
  split; [|split; [|split; [|split; [|split]]]].
  - unfold commit. cbn [db]. apply select_for_update_skip_locked_db.
  - intros v Hv.
    pose proof (select_for_update_skip_locked_spec me s) as H.
    destruct (fst (select_for_update_skip_locked me s)) as [j|]; [|discriminate].
    destruct H as (Hin & Hq & _). exists j.
    unfold commit. cbn [db]. rewrite select_for_update_skip_locked_db.
    cbn in Hv. inversion Hv; subst; cbn. auto.
  - intros j Hj. rewrite select_for_update_skip_locked_locks, Hj. left; reflexivity.
  - intros j j' Hne Hj Hj'. eapply select_passes_over_locked_row; eauto.
  - intros l Hl. apply commit_locks_not_mine in Hl. tauto.
  - intros Hfree. destruct s as [d lk]. cbn in Hfree. subst lk.
    assert (commit me (snd (select_for_update_skip_locked me (mkServer d [])))
            = mkServer d []) as Hsame.
    { unfold commit, select_for_update_skip_locked. cbn.
      destruct (first_in_order _); cbn; rewrite ?Nat.eqb_refl; reflexivity. }
    split; [exact Hsame|].
    rewrite Hsame, fetch_next_queued_job_unfold. cbn [fst]. f_equal.
    unfold select_for_update_skip_locked. cbn.
    destruct (first_in_order _); reflexivity.
Qed.

End Leasing.

(** ** Interleaved leasing calls *)

Section Interleavings.
Import Repo Lease.

Lemma step_keeps_other_pc (c c' : Conn) (sys : System) :
  c' <> c -> pcs (step c sys) c' = pcs sys c'.
Proof.
  intros Hne. unfold step.
  destruct (pcs sys c) eqn:Hpc; cbn; try reflexivity;
    try (destruct (select_for_update_skip_locked c (server sys)); cbn);
    unfold set_pc; destruct (Nat.eqb_spec c' c); congruence.
Qed.

(** No step waits: whatever the other callers did or hold, three steps of its
    own take a caller from [psycopg.connect] to its return. *)
Lemma step_never_waits (c : Conn) (sys : System) :
  match pcs sys c with
  | at_connect => pcs (step c sys) c = at_execute
  | at_execute => exists row, pcs (step c sys) c = at_commit row
  | at_commit row => pcs (step c sys) c = returned (to_VideoJob row)
  | returned v => step c sys = sys
  end.
Proof.
  unfold step. destruct (pcs sys c) eqn:Hpc; cbn.
  - unfold set_pc. rewrite Nat.eqb_refl. reflexivity.
  - destruct (select_for_update_skip_locked c (server sys)) as [row srv]. cbn.
    exists row. unfold set_pc. rewrite Nat.eqb_refl. reflexivity.
  - unfold set_pc. rewrite Nat.eqb_refl. reflexivity.
  - reflexivity.
Qed.

Lemma set_pc_same (c : Conn) (pc : Pc) (f : Conn -> Pc) : set_pc c pc f c = pc.
Proof. unfold set_pc. rewrite Nat.eqb_refl. reflexivity. Qed.

Lemma step_at_connect (c : Conn) (sys : System) :
  pcs sys c = at_connect ->
  step c sys = mkSystem (server sys) (set_pc c at_execute (pcs sys)).
Proof. intros H. unfold step. rewrite H. reflexivity. Qed.

Lemma step_at_execute (c : Conn) (sys : System) :
  pcs sys c = at_execute ->
  step c sys =
  mkSystem (snd (select_for_update_skip_locked c (server sys)))
           (set_pc c (at_commit (fst (select_for_update_skip_locked c (server sys))))
                   (pcs sys)).
Proof.
  intros H. unfold step. rewrite H.
  destruct (select_for_update_skip_locked c (server sys)); reflexivity.
Qed.

Lemma step_at_commit (c : Conn) (sys : System) (row : option JobRow) :
  pcs sys c = at_commit row ->
  step c sys =
  mkSystem (commit c (server sys)) (set_pc c (returned (to_VideoJob row)) (pcs sys)).
Proof. intros H. unfold step. rewrite H. reflexivity. Qed.

Lemma step_stage (c : Conn) (sys : System) :
  stage (pcs (step c sys) c) = Nat.min 3 (S (stage (pcs sys c))).
Proof.
  destruct (pcs sys c) as [| |row|v] eqn:Hpc.
  - rewrite (step_at_connect c sys Hpc). cbn [pcs]. rewrite set_pc_same. reflexivity.
  - rewrite (step_at_execute c sys Hpc). cbn [pcs]. rewrite set_pc_same. reflexivity.
  - rewrite (step_at_commit c sys row Hpc). cbn [pcs]. rewrite set_pc_same. reflexivity.
  - unfold step. rewrite Hpc, Hpc. reflexivity.
Qed.

(** Whatever the schedule, a caller that gets three steps returns: nothing
    another caller does or holds can keep it inside the method. *)
Lemma run_returns (c : Conn) (schedule : list Conn) (sys : System) :
  (3 <= stage (pcs sys c) + count_occ Nat.eq_dec schedule c)%nat ->
  exists v, pcs (run schedule sys) c = returned v.
Proof.
  revert sys. induction schedule as [|c' rest IH]; intros sys H; cbn in *.
  - destruct (pcs sys c); cbn in H; try lia. eauto.
  - apply IH. destruct (Nat.eq_dec c' c) as [->|Hne].
    + rewrite step_stage. lia.
    + rewrite step_keeps_other_pc by congruence. lia.
Qed.

Lemma step_holds_its_row (c : Conn) (sys : System) :
  holds_its_row sys -> holds_its_row (step c sys).
Proof.
  intros Inv c' j Hpc'.
  destruct (Nat.eq_dec c' c) as [->|Hne].
  - destruct (pcs sys c) as [| |row|v] eqn:Hpc.
    + rewrite (step_at_connect c sys Hpc) in Hpc'. cbn [pcs] in Hpc'.
      rewrite set_pc_same in Hpc'. discriminate.
    + rewrite (step_at_execute c sys Hpc) in Hpc' |- *. cbn [pcs server] in *.
      rewrite set_pc_same in Hpc'. inversion Hpc' as [Hrow].
      rewrite select_for_update_skip_locked_locks, Hrow. left; reflexivity.
    + rewrite (step_at_commit c sys row Hpc) in Hpc'. cbn [pcs] in Hpc'.
      rewrite set_pc_same in Hpc'. discriminate.
    + unfold step in Hpc'. rewrite Hpc in Hpc'. congruence.
  - rewrite step_keeps_other_pc in Hpc' by assumption.
    specialize (Inv c' j Hpc').
    destruct (pcs sys c) as [| |row|v] eqn:Hpc.
    + rewrite (step_at_connect c sys Hpc). exact Inv.
    + rewrite (step_at_execute c sys Hpc). cbn [server].
      rewrite select_for_update_skip_locked_locks.
      destruct (fst (select_for_update_skip_locked c (server sys))); [right|]; exact Inv.
    + rewrite (step_at_commit c sys row Hpc). cbn [server].
      apply commit_locks_not_mine. split; [exact Inv|exact Hne].
    + unfold step. rewrite Hpc. exact Inv.
Qed.

Lemma run_holds_its_row (schedule : list Conn) (sys : System) :
  holds_its_row sys -> holds_its_row (run schedule sys).
Proof.
  revert sys. induction schedule as [|c rest IH]; intros sys Inv; [exact Inv|].
  cbn. apply IH, step_holds_its_row, Inv.
Qed.

(** X7. The half of the leasing invariant the locking read does give: a read
    made while another caller's transaction is open does not return that
    caller's row, under every schedule. *)
Lemma read_during_open_transaction_differs
    (d : Db) (schedule : list Conn) (c1 c2 : Conn) (j1 j2 : JobRow) :
  let sys := run schedule (start d) in
  c1 <> c2 ->
  pcs sys c1 = at_commit (Some j1) ->
  pcs sys c2 = at_execute ->
  pcs (step c2 sys) c2 = at_commit (Some j2) ->
  pcs (step c2 sys) c1 = at_commit (Some j1) /\ j_id j2 <> j_id j1.
Proof.
  cbv zeta. intros Hne H1 H2 H2'.
  assert (holds_its_row (run schedule (start d))) as Inv.
  { apply run_holds_its_row. intros c j Hpc. discriminate. }
  split; [rewrite step_keeps_other_pc by assumption; exact H1|].
  rewrite (step_at_execute c2 _ H2) in H2'. cbn [pcs] in H2'.
  rewrite set_pc_same in H2'. inversion H2' as [Hrow].
  pose proof (select_for_update_skip_locked_spec c2 (server (run schedule (start d))))
    as Hspec.
  rewrite Hrow in Hspec. destruct Hspec as (_ & _ & Hfree & _).
  intros Heq. rewrite Heq in Hfree.
  rewrite (locked_by_other_In c2 c1 _ (j_id j1) (Inv c1 j1 H1) Hne) in Hfree.
  discriminate.
Qed.

(** Run on its own, a caller's three steps are one call of the method. *)
Lemma three_steps_are_one_call (worker_key : string) (c : Conn) (sys : System) :
  pcs sys c = at_connect ->
  let after := run [c; c; c] sys in
  pcs after c = returned (fst (fetch_next_queued_job worker_key c (server sys)))
  /\ server after = snd (fetch_next_queued_job worker_key c (server sys)).
Proof.
  intros Hpc. cbv zeta. rewrite fetch_next_queued_job_unfold. cbn [run fold_left fst snd].
  rewrite (step_at_connect c sys Hpc).
  rewrite (step_at_execute c (mkSystem (server sys) (set_pc c at_execute (pcs sys))))
    by apply set_pc_same.
  cbn [server pcs].
  erewrite step_at_commit by (cbn [pcs]; apply set_pc_same). cbn [server pcs].
  rewrite set_pc_same. auto.
Qed.

(** C1, on the code: two calls that are inside the method at the same time,
    the second reading after the first has committed, both return job j1. *)
Theorem fetch_next_queued_job_returns_one_job_twice :
  let both_inside := run [0; 1]%nat (start Sample.one_job) in
  let finished := run [0; 1; 0; 0; 1; 1]%nat (start Sample.one_job) in
  in_call (pcs both_inside 0%nat) = true
  /\ in_call (pcs both_inside 1%nat) = true
  /\ (exists v, pcs finished 0%nat = returned (Some v)
                /\ pcs finished 1%nat = returned (Some v)
                /\ job_id v = "j1")
  /\ db (server finished) = Sample.one_job.
Proof.
  cbv zeta. repeat split.
  eexists. repeat split.
Qed.

End Interleavings.

(** ** start_job_attempt *)

Section Attempts.
Import Repo Cycles.

Lemma Forall2_map_self {A : Type} (R : A -> A -> Prop) (f : A -> A) (l : list A) :
  (forall x, In x l -> R x (f x)) -> Forall2 R l (map f l).
Proof.
  induction l as [|x l IH]; cbn; intros H; constructor; auto.
Qed.

Lemma max_attempt_no_None (job_id : string) (rows : list AttemptRow) :
  max_attempt_no job_id rows = None ->
  forall a, In a rows -> a_job_id a <> job_id.
Proof.
  induction rows as [|r rows IH]; cbn; intros H a Hin; [contradiction|].
  destruct (String.eqb_spec (a_job_id r) job_id) as [Heq|Hne].
  - destruct (max_attempt_no job_id rows); discriminate.
  - destruct Hin as [->|Hin]; auto.
Qed.

Lemma max_attempt_no_Some (job_id : string) (rows : list AttemptRow) (m : Z) :
  max_attempt_no job_id rows = Some m ->
  exists a, In a rows /\ a_job_id a = job_id /\ a_attempt_no a = m
            /\ forall a', In a' rows -> a_job_id a' = job_id -> a_attempt_no a' <= m.
Proof.
  revert m. induction rows as [|r rows IH]; cbn; intros m H; [discriminate|].
  destruct (String.eqb_spec (a_job_id r) job_id) as [Heq|Hne].
  - destruct (max_attempt_no job_id rows) as [m'|] eqn:Hm.
    + inversion H; subst m; clear H.
      destruct (IH m' eq_refl) as (a & Hin & Hj & Hn & Hle).
      destruct (Z.max_spec (a_attempt_no r) m') as [[Hlt Hmax]|[Hge Hmax]]; rewrite Hmax.
      * exists a. repeat split; auto.
        intros a' [<-|Hin'] Hj'; [lia|]. apply Hle; auto.
      * exists r. repeat split; auto.
        intros a' [<-|Hin'] Hj'; [lia|]. specialize (Hle a' Hin' Hj'). lia.
    + inversion H; subst m; clear H.
      exists r. repeat split; auto.
      intros a' [<-|Hin'] Hj'; [lia|].
      exfalso. exact (max_attempt_no_None _ _ Hm a' Hin' Hj').
  - destruct (IH m H) as (a & Hin & Hj & Hn & Hle).
    exists a. repeat split; auto.
    intros a' [<-|Hin'] Hj'; [contradiction|]. apply Hle; auto.
Qed.

Lemma next_attempt_no_of_max (job_id : string) (rows : list AttemptRow) :
  next_attempt_no_of job_id rows (coalesce (max_attempt_no job_id rows) 0 + 1).
Proof.
  unfold next_attempt_no_of.
  destruct (max_attempt_no job_id rows) as [m|] eqn:Hm; cbn.
  - right. destruct (max_attempt_no_Some _ _ _ Hm) as (a & Hin & Hj & Hn & Hle).
    exists a. subst m. repeat split; auto.
  - left. split; [|reflexivity]. apply max_attempt_no_None. assumption.
Qed.

Lemma max_attempt_no_snoc (job_id : string) (rows : list AttemptRow) (r : AttemptRow) :
  a_job_id r = job_id ->
  max_attempt_no job_id (rows ++ [r]) =
  Some (match max_attempt_no job_id rows with
        | None => a_attempt_no r
        | Some m => Z.max m (a_attempt_no r)
        end).
Proof.
  intros Hr. induction rows as [|x rows IH]; cbn.
  - rewrite (proj2 (String.eqb_eq _ _) Hr). reflexivity.
  - rewrite IH. destruct (String.eqb (a_job_id x) job_id); [|reflexivity].
    destruct (max_attempt_no job_id rows); f_equal; lia.
Qed.

Lemma max_attempt_no_map (job_id : string) (f : AttemptRow -> AttemptRow)
    (rows : list AttemptRow) :
  (forall a, a_job_id (f a) = a_job_id a /\ a_attempt_no (f a) = a_attempt_no a) ->
  max_attempt_no job_id (map f rows) = max_attempt_no job_id rows.
Proof.
  intros Hf. induction rows as [|x rows IH]; cbn; [reflexivity|].
  destruct (Hf x) as [-> ->]. rewrite IH. reflexivity.
Qed.

(** When no statement fails the transaction commits: the value and the store. *)
Lemma start_job_attempt_committed (now : Z) (new_id job_id worker_id : string) (d : Db) :
  let n := coalesce (max_attempt_no job_id (job_attempts d)) 0 + 1 in
  start_job_attempt no_faults now new_id job_id worker_id d =
  (Ok (mkJobAttemptInfo new_id n),
   update_jobs job_id
     (fun j => mkJobRow (j_id j) (j_input_object_key j) (j_output_prefix j)
                        (j_params_fps j) (j_params_modelId j)
                        "running" (j_priority j) (j_created_at j) 0 None None
                        (Some (coalesce (j_started_at j) now)) None)
     (mkDb (jobs d)
           (job_attempts d ++ [mkAttemptRow new_id job_id n worker_id
                                            "running" now None None None]))).
Proof. reflexivity. Qed.

Lemma start_fail_cycles_from (now : Z) (new_ids : list string)
    (job_id worker_id message : string) (d : Db) :
  fst (start_fail_cycles now new_ids job_id worker_id message d) =
  map (fun i => coalesce (max_attempt_no job_id (job_attempts d)) 0 + Z.of_nat i)
      (seq 1 (List.length new_ids)).
Proof.
  revert d. induction new_ids as [|new_id rest IH]; intros d; [reflexivity|].
  cbn [start_fail_cycles]. rewrite start_job_attempt_committed. cbv zeta.
  match goal with
  | |- context [start_fail_cycles now rest job_id worker_id message ?d2] =>
      specialize (IH d2); destruct (start_fail_cycles now rest job_id worker_id message d2)
        as [numbers d3] eqn:Hrest;
      assert (coalesce (max_attempt_no job_id (job_attempts d2)) 0
              = coalesce (max_attempt_no job_id (job_attempts d)) 0 + 1) as Hmax
  end.
  { cbn. rewrite max_attempt_no_map by (intros a; destruct (String.eqb _ _); auto).
    rewrite max_attempt_no_snoc by reflexivity. cbn.
    destruct (max_attempt_no job_id (job_attempts d)); cbn; lia. }
  cbn [fst] in *. cbn [List.length seq map attempt_no]. f_equal.
  rewrite IH, Hmax, <- (seq_shift (List.length rest) 1), map_map.
  apply map_ext. intros i. lia.
Qed.

(** C3. [start_job_attempt] is all or nothing. Either a statement raised and
    the store is as it was, or: the attempt number returned is one more than
    the greatest the job had (1 when it had none), [job_attempts] gained
    exactly one row with that number, the generated id, the worker and status
    'running', and every [jobs] row of that id is 'running' with progress 0 and
    no error code or message, the other rows being untouched. The second case
    is the one that happens when no statement fails. Started and failed over
    and over from no attempt at all, a job is handed the numbers 1, 2, 3, ... *)
Theorem start_job_attempt_all_or_nothing
    (faults : Faults) (now : Z) (new_id job_id worker_id : string) (d : Db) :
  let r := start_job_attempt faults now new_id job_id worker_id d in
  (((exists e, fst r = Raise e) /\ snd r = d)
   \/ (exists n,
         next_attempt_no_of job_id (job_attempts d) n
         /\ fst r = Ok (mkJobAttemptInfo new_id n)
         /\ job_attempts (snd r) =
              (job_attempts d ++ [mkAttemptRow new_id job_id n worker_id
                                               "running" now None None None])%list
         /\ Forall2 (started job_id now) (jobs d) (jobs (snd r))))
  /\ ((faults 0%nat = false /\ faults 1%nat = false /\ faults 2%nat = false) ->
      exists n, fst r = Ok (mkJobAttemptInfo new_id n))
  /\ (forall (new_ids : list string) (message : string),
        (forall a, In a (job_attempts d) -> a_job_id a <> job_id) ->
        fst (start_fail_cycles now new_ids job_id worker_id message d)
          = map Z.of_nat (seq 1 (List.length new_ids))).
Proof.
  cbv zeta. split; [|split].
  - unfold start_job_attempt, transaction, tx_bind, execute, tx_ret.
    destruct (faults 0%nat); [left; cbn; eauto|].
    destruct (faults 1%nat); [left; cbn; eauto|].
    destruct (faults 2%nat); [left; cbn; eauto|].
    right. cbn.
    exists (coalesce (max_attempt_no job_id (job_attempts d)) 0 + 1).
    split; [apply next_attempt_no_of_max|].
    split; [reflexivity|]. split; [reflexivity|].
    apply Forall2_map_self. intros j _. unfold started.
    destruct (String.eqb (j_id j) job_id); cbn; repeat split; reflexivity.
  - intros (H0 & H1 & H2).
    unfold start_job_attempt, transaction, tx_bind, execute, tx_ret.
    rewrite H0, H1, H2. cbn. eauto.
  - intros new_ids message Hnone. rewrite start_fail_cycles_from.
    assert (max_attempt_no job_id (job_attempts d) = None) as ->.
    { destruct (max_attempt_no job_id (job_attempts d)) as [m|] eqn:Hm; [|reflexivity].
      destruct (max_attempt_no_Some _ _ _ Hm) as (a & Hin & Hj & _).
      exfalso. exact (Hnone a Hin Hj). }
    cbn. apply map_ext. intros i. lia.
Qed.

(** Three start/fail cycles of the sample job. *)
Example start_fail_cycles_of_one_job :
  fst (start_fail_cycles 7 ["a1"; "a2"; "a3"] "j1" "w1" "boom" Sample.one_job)
  = [1; 2; 3].
Proof. reflexivity. Qed.

End Attempts.

(** ** mark_job_failed *)

Section Failure.
Import Repo Cycles.

Lemma slice_to_length (n : nat) (s : string) :
  String.length (slice_to n s) = Nat.min n (String.length s).
Proof.
  revert s. induction n as [|n IH]; intros s; [reflexivity|].
  destruct s as [|c s]; cbn; [reflexivity|]. rewrite IH. reflexivity.
Qed.

Lemma slice_to_prefix (n : nat) (s : string) : is_prefix (slice_to n s) s.
Proof.
  revert s. induction n as [|n IH]; intros s.
  - exists s. reflexivity.
  - destruct s as [|c s]; cbn.
    + exists EmptyString. reflexivity.
    + destruct (IH s) as [rest Hrest]. exists rest. cbn. rewrite <- Hrest. reflexivity.
Qed.

Lemma slice_to_short (n : nat) (s : string) :
  (String.length s <= n)%nat -> slice_to n s = s.
Proof.
  revert s. induction n as [|n IH]; intros s Hlen.
  - destruct s; [reflexivity|cbn in Hlen; lia].
  - destruct s as [|c s]; cbn; [reflexivity|]. rewrite IH; [reflexivity|cbn in Hlen; lia].
Qed.

(** C4. [mark_job_failed] commits when no statement fails. The message it
    stores is the first 4000 characters of the one given: a prefix of it whose
    length is the smaller of 4000 and the length given, so all of it when it
    is no longer. Every [jobs] row of the given id gets status 'failed', the
    given error code and the stored message, and keeps its other columns; the
    other rows are untouched. With an attempt id, the [job_attempts] row of
    that id gets status 'failed', the same stored message and the given exit
    code; with None, [job_attempts] is left exactly as it was and the job is
    updated all the same. *)
Theorem mark_job_failed_records_failure
    (now : Z) (job_id : string) (attempt_id : option string)
    (error_code : option string) (error_message : string) (exit_code : option Z)
    (d : Db) :
  let stored := slice_to 4000 error_message in
  let r := mark_job_failed no_faults now job_id attempt_id error_code
                           error_message exit_code d in
  fst r = Ok tt
  /\ String.length stored = Nat.min 4000 (String.length error_message)
  /\ (String.length stored <= 4000)%nat
  /\ is_prefix stored error_message
  /\ ((String.length error_message <= 4000)%nat -> stored = error_message)
  /\ Forall2 (failed job_id now error_code stored) (jobs d) (jobs (snd r))
  /\ match attempt_id with
     | Some a =>
         Forall2 (attempt_failed a now exit_code stored)
                 (job_attempts d) (job_attempts (snd r))
     | None => job_attempts (snd r) = job_attempts d
     end.
Proof.
  cbv zeta. split; [|split; [|split; [|split; [|split; [|split]]]]].
  - destruct attempt_id; reflexivity.
  - apply slice_to_length.
  - rewrite slice_to_length. lia.
  - apply slice_to_prefix.
  - apply slice_to_short.
  - destruct attempt_id; cbn [mark_job_failed];
      apply Forall2_map_self; intros j _; unfold failed;
      destruct (String.eqb (j_id j) job_id); cbn -[slice_to]; repeat split; reflexivity.
  - destruct attempt_id as [a|]; [|reflexivity].
    apply Forall2_map_self; intros x _; unfold attempt_failed.
    destruct (String.eqb (a_id x) a); cbn -[slice_to]; repeat split; reflexivity.
Qed.

(** The scenario of the specification: no attempt id, code "E", message
    "boom". Only the job row changes. *)
Example mark_job_failed_without_attempt :
  let d := mkDb [Sample.job "j1" "running" 0 100]
                [Sample.attempt "a1" "j1" 1 "running"] in
  let d' := snd (mark_job_failed no_faults 7 "j1" None (Some "E") "boom" None d) in
  job_attempts d' = job_attempts d
  /\ map j_status (jobs d') = ["failed"]
  /\ map j_error_code (jobs d') = [Some "E"]
  /\ map j_error_message (jobs d') = [Some "boom"].
Proof. cbv zeta. repeat split. Qed.

End Failure.

(** ** Which calls a computation can make *)

Section Effects.
Import Ports.

Variable P : Call -> bool.

Lemma only_ret {A} (a : A) : only P (ret a).
Proof. intros tr. exists []. rewrite app_nil_r. auto. Qed.

Lemma only_raise {A} (e : PyExc) : only P (@raise A e).
Proof. intros tr. exists []. rewrite app_nil_r. auto. Qed.

Lemma only_lift {A} (r : result A) : only P (lift r).
Proof. intros tr. exists []. rewrite app_nil_r. auto. Qed.

Lemma only_call {A} (c : Call) (o : result A) : P c = true -> only P (call c o).
Proof. intros Hc tr. exists [c]. cbn. rewrite Hc. auto. Qed.

Lemma only_bind {A B} (m : M A) (k : A -> M B) :
  only P m -> (forall a, only P (k a)) -> only P (bind m k).
Proof.
  intros Hm Hk tr. unfold bind.
  destruct (Hm tr) as (d1 & H1 & P1).
  destruct (m tr) as [[a|e] tr1]; cbn in H1; subst tr1.
  - destruct (Hk a (tr ++ d1)%list) as (d2 & H2 & P2).
    exists (d1 ++ d2)%list. rewrite H2, app_assoc, forallb_app, P1, P2. auto.
  - exists d1. auto.
Qed.

Lemma only_try_except {A} (body : M A) (handler : PyExc -> M A) :
  only P body -> (forall e, only P (handler e)) -> only P (try_except body handler).
Proof.
  intros Hb Hh tr. unfold try_except.
  destruct (Hb tr) as (d1 & H1 & P1).
  destruct (body tr) as [[a|e] tr1]; cbn in H1; subst tr1.
  - exists d1. auto.
  - destruct (exc_is_Exception e); [|exists d1; auto].
    destruct (Hh e (tr ++ d1)%list) as (d2 & H2 & P2).
    exists (d1 ++ d2)%list. rewrite H2, app_assoc, forallb_app, P1, P2. auto.
Qed.

End Effects.

Ltac only_step :=
  first
    [ apply only_ret | apply only_raise | apply only_lift
    | apply only_call; reflexivity
    | apply only_try_except; [|intros ?]
    | apply only_bind; [|intros ?]
    | match goal with
      | |- Ports.only _ (if ?b then _ else _) => destruct b
      | |- Ports.only _ (match ?o with Some _ => _ | None => _ end) => destruct o
      end ].

Ltac only_steps := repeat only_step.

Section PipelineCalls.
Import Ports.

Lemma Convert_execute_no_mark_job_failed (env : Env) (request : VideoToGlbRequest) :
  only not_MarkJobFailed (Convert.execute env request).
Proof.
  unfold Convert.execute, Convert._validate_request, Convert.report_phase,
    Convert.ensure_dir.
  only_steps.
Qed.

Lemma try_block_no_mark_job_failed (env : Env) (ib ob : string) (keep : bool)
    (job : VideoJob) (worker : WorkerInfo) :
  only not_MarkJobFailed (RunJob.try_block env ib ob keep job worker).
Proof.
  unfold RunJob.try_block, RunJob.after_start, Convert.report_phase.
  repeat first [apply Convert_execute_no_mark_job_failed | only_step].
Qed.

Lemma mark_job_failed_calls_app (tr1 tr2 : list Call) :
  mark_job_failed_calls (tr1 ++ tr2) =
  (mark_job_failed_calls tr1 + mark_job_failed_calls tr2)%nat.
Proof.
  unfold mark_job_failed_calls. rewrite filter_app, length_app. reflexivity.
Qed.

Lemma mark_job_failed_calls_none (tr : list Call) :
  forallb not_MarkJobFailed tr = true -> mark_job_failed_calls tr = 0%nat.
Proof.
  unfold mark_job_failed_calls, not_MarkJobFailed.
  induction tr as [|c tr IH]; cbn; [reflexivity|].
  intros H. apply andb_true_iff in H. destruct H as [Hc Ht].
  apply negb_true_iff in Hc. rewrite Hc. auto.
Qed.

(** The [try] statement in terms of its block: the handler runs when the block
    raised an [Exception], and finds the attempt when [start_job_attempt] had
    returned one. *)
Lemma guarded_by_cases (env : Env) (ib ob : string) (keep : bool)
    (job : VideoJob) (worker : WorkerInfo) (tr0 : list Call) :
  RunJob.guarded env ib ob keep job worker tr0 =
  match RunJob.try_block env ib ob keep job worker tr0 with
  | (Ok u, tr) => (Ok u, tr)
  | (Raise e, tr) =>
      if exc_is_Exception e
      then RunJob.on_exception env job
             (match start_job_attempt_outcome env with
              | Ok info => Some info
              | Raise _ => None
              end) e tr
      else (Raise e, tr)
  end.
Proof.
  unfold RunJob.guarded, RunJob.try_block, try_assigning_except, bind, call.
  destruct (start_job_attempt_outcome env) as [info|e]; [|reflexivity].
  destruct (RunJob.after_start env ib ob keep job worker info _) as [[u|e] tr];
    reflexivity.
Qed.

Lemma on_exception_run (env : Env) (job : VideoJob) (info : option JobAttemptInfo)
    (e : PyExc) (tr : list Call) :
  RunJob.on_exception env job info e tr =
  (match mark_job_failed_outcome env with Ok _ => Raise e | Raise e' => Raise e' end,
   (tr ++ [MarkJobFailed (job_id job)
             (match info with Some a => Some (attempt_id a) | None => None end)
             (Some "worker_runtime_error") (exc_str e) (Some 1)])%list).
Proof.
  unfold RunJob.on_exception, bind, call, raise.
  destruct (mark_job_failed_outcome env); reflexivity.
Qed.

End PipelineCalls.

(** ** RunSingleJobUseCase.execute: recording a failure *)

Section FailureRecording.
Import Ports.

Variable env : Env.
Variables ib ob : string.
Variable keep : bool.
Variable job : VideoJob.
Variable worker : WorkerInfo.

Let run := RunJob.execute env ib ob keep job worker [].
Let prepared := [EnsureDir (RunJob.input_dir job); EnsureDir (RunJob.output_dir job)].

Lemma execute_by_cases :
  match ensure_dir_outcome env (RunJob.input_dir job) with
  | Raise e => run = (Raise e, [EnsureDir (RunJob.input_dir job)])
  | Ok _ =>
      match ensure_dir_outcome env (RunJob.output_dir job) with
      | Raise e => run = (Raise e, prepared)
      | Ok _ => run = RunJob.guarded env ib ob keep job worker prepared
      end
  end.
Proof.
  unfold run, prepared, RunJob.execute, Convert.ensure_dir, bind, call. cbn [app].
  destruct (ensure_dir_outcome env (RunJob.input_dir job)); [|reflexivity].
  destruct (ensure_dir_outcome env (RunJob.output_dir job)); reflexivity.
Qed.

Lemma try_block_trace (tr : list Call) (r : result unit) :
  RunJob.try_block env ib ob keep job worker prepared = (r, tr) ->
  mark_job_failed_calls tr = 0%nat.
Proof.
  intros H.
  destruct (try_block_no_mark_job_failed env ib ob keep job worker prepared)
    as (delta & Htr & Hnone).
  rewrite H in Htr. cbn [snd] in Htr. subst tr.
  rewrite mark_job_failed_calls_app, (mark_job_failed_calls_none delta Hnone).
  reflexivity.
Qed.

(** C5, as the code has it. The two [ensure_dir] calls come before the [try]:
    when one of them raises, the exception leaves [execute] and no
    [mark_job_failed] call is made. Past them, when a statement of the [try]
    block raises an [Exception], exactly one [mark_job_failed] call is made, as
    the last call of the execution, with error code 'worker_runtime_error', the
    text of the exception, exit code 1, and the attempt id when
    [start_job_attempt] had returned (None otherwise); the exception is then
    raised again, unless [mark_job_failed] itself raised. An exception that is
    not an [Exception] passes through unrecorded. In no execution is there more
    than one [mark_job_failed] call, and an execution that returns made none. *)
Theorem execute_records_failure_of_try_block :
  let attempt :=
    match start_job_attempt_outcome env with
    | Ok info => Some (attempt_id info)
    | Raise _ => None
    end in
  (mark_job_failed_calls (snd run) <= 1)%nat
  /\ (forall u, fst run = Ok u -> mark_job_failed_calls (snd run) = 0%nat)
  /\ (forall e,
        ensure_dir_outcome env (RunJob.input_dir job) = Raise e
        \/ ((exists u, ensure_dir_outcome env (RunJob.input_dir job) = Ok u)
            /\ ensure_dir_outcome env (RunJob.output_dir job) = Raise e) ->
        fst run = Raise e /\ mark_job_failed_calls (snd run) = 0%nat)
  /\ (forall u u' e tr,
        ensure_dir_outcome env (RunJob.input_dir job) = Ok u ->
        ensure_dir_outcome env (RunJob.output_dir job) = Ok u' ->
        RunJob.try_block env ib ob keep job worker prepared = (Raise e, tr) ->
        if exc_is_Exception e then
          snd run = (tr ++ [MarkJobFailed (job_id job) attempt
                              (Some "worker_runtime_error") (exc_str e) (Some 1)])%list
          /\ mark_job_failed_calls tr = 0%nat
          /\ mark_job_failed_calls (snd run) = 1%nat
          /\ fst run = match mark_job_failed_outcome env with
                       | Ok _ => Raise e
                       | Raise e' => Raise e'
                       end
        else
          run = (Raise e, tr) /\ mark_job_failed_calls (snd run) = 0%nat).
Proof.
  cbv zeta.
  pose proof execute_by_cases as Hrun.
  pose proof (guarded_by_cases env ib ob keep job worker prepared) as Hg.
  pose proof try_block_trace as Hnone.
  destruct (ensure_dir_outcome env (RunJob.input_dir job)) as [u1|e1] eqn:H1.
  2:{ rewrite Hrun. cbn. split; [lia|]. split; [|split].
      - intros u Hu. discriminate.
      - intros e [H|[[u H] _]]; [inversion H; auto|discriminate].
      - intros u u' e tr Hu. discriminate. }
  destruct (ensure_dir_outcome env (RunJob.output_dir job)) as [u2|e2] eqn:H2.
  2:{ rewrite Hrun. cbn. split; [lia|]. split; [|split].
      - intros u Hu. discriminate.
      - intros e [H|[_ H]]; [discriminate|inversion H; auto].
      - intros u u' e tr _ Hu. discriminate. }
  rewrite Hrun, Hg.
  destruct (RunJob.try_block env ib ob keep job worker prepared) as [[u|e] tr] eqn:Hb.
  - specialize (Hnone tr (Ok u) eq_refl). cbn [fst snd]. rewrite Hnone.
    split; [lia|]. split; [|split].
    + reflexivity.
    + intros e [H|[_ H]]; discriminate.
    + intros v v' e tr' _ _ Hr. discriminate.
  - specialize (Hnone tr (Raise e) eq_refl).
    destruct (exc_is_Exception e) eqn:He.
    + rewrite on_exception_run. cbn [fst snd].
      rewrite mark_job_failed_calls_app, Hnone. cbn.
      split; [lia|]. split; [|split].
      * intros u Hu. destruct (mark_job_failed_outcome env); discriminate.
      * intros e' [H|[_ H]]; discriminate.
      * intros v v' e' tr' _ _ Hr. inversion Hr; subst e' tr'. rewrite He.
        destruct (start_job_attempt_outcome env); rewrite Hnone; repeat split.
    + cbn [fst snd]. rewrite Hnone.
      split; [lia|]. split; [|split].
      * intros u Hu. discriminate.
      * intros e' [H|[_ H]]; discriminate.
      * intros v v' e' tr' _ _ Hr. inversion Hr; subst e' tr'. rewrite He.
        split; reflexivity.
Qed.

End FailureRecording.

(** C5, as stated, fails: the working directory cannot be created, the
    execution raises, and no [mark_job_failed] call was made. *)
Lemma execute_failure_before_try_is_not_recorded :
  let run := RunJob.execute Sample.read_only_disk "in" "out" false
               (Sample.video_job 2%float) Sample.worker [] in
  fst run = Raise Sample.PermissionError
  /\ snd run = [Ports.EnsureDir "work/j1/input"]
  /\ Ports.mark_job_failed_calls (snd run) = 0%nat.
Proof. cbv zeta. repeat split. Qed.

(** A failing download, for comparison: recorded once, with the attempt id. *)
Example execute_download_failure_is_recorded :
  let run := RunJob.execute Sample.storage_down "in" "out" false
               (Sample.video_job 2%float) Sample.worker [] in
  fst run = Raise (RuntimeError "S3 operation failed")
  /\ Ports.mark_job_failed_calls (snd run) = 1%nat
  /\ last (snd run) (Ports.EnsureDir "") =
       Ports.MarkJobFailed "j1" (Some "a1") (Some "worker_runtime_error")
                           "S3 operation failed" (Some 1).
Proof. cbv zeta. repeat split. Qed.

(** ** Validation of the request *)

Section Validation.
Import Ports.

Variable env : Env.

Lemma validate_missing_input (request : VideoToGlbRequest) (tr : list Call) :
  input_video_exists env (input_video_path request) = false ->
  Convert.execute env request tr =
  (Raise (FileNotFoundError
            ("入力動画が見つかりません: " ++ input_video_path request)%string), tr).
Proof.
  intros H. unfold Convert.execute, Convert._validate_request, bind, raise.
  rewrite H. reflexivity.
Qed.

Lemma validate_bad_fps (request : VideoToGlbRequest) (tr : list Call) :
  input_video_exists env (input_video_path request) = true ->
  PrimFloat.leb (req_fps request) 0%float = true ->
  Convert.execute env request tr =
  (Raise (ValueError "fps は 0 より大きい値を指定してください。"), tr).
Proof.
  intros H Hf. unfold Convert.execute, Convert._validate_request, bind, raise.
  rewrite H, Hf. reflexivity.
Qed.

(** C9, as the code has it. [ConvertVideoToGlbUseCase.execute] validates
    first: with a missing input file it raises FileNotFoundError (whatever the
    fps), and with an existing file and fps <= 0 it raises ValueError, before
    any call through its ports (progress, filesystem, extraction, inference).
    In [RunSingleJobUseCase.execute] that validation is reached only after the
    two [ensure_dir] calls, [start_job_attempt], the download phase report and
    the storage download: a validation failure there, FileNotFoundError for a
    missing file and ValueError otherwise, is followed by one
    [mark_job_failed] call that carries the id of the attempt already started
    and the text of that exception, and by no extraction, inference, upload
    or artifact call. *)
Theorem validation_comes_first_in_convert_not_in_pipeline
    (ib ob : string) (keep : bool) (job : VideoJob) (worker : WorkerInfo) :
  (forall request tr,
      (input_video_exists env (input_video_path request) = false ->
       Convert.execute env request tr =
       (Raise (mkExc "FileNotFoundError" true
                 ("入力動画が見つかりません: " ++ input_video_path request)%string), tr))
      /\ (input_video_exists env (input_video_path request) = true ->
          PrimFloat.leb (req_fps request) 0%float = true ->
          Convert.execute env request tr =
          (Raise (mkExc "ValueError" true "fps は 0 より大きい値を指定してください。"), tr)))
  /\ (forall info u1 u2 u3 u4,
        ensure_dir_outcome env (RunJob.input_dir job) = Ok u1 ->
        ensure_dir_outcome env (RunJob.output_dir job) = Ok u2 ->
        start_job_attempt_outcome env = Ok info ->
        report_phase_outcome env "download" = Ok u3 ->
        download_file_outcome env = Ok u4 ->
        input_video_exists env (RunJob.local_video_path job) = false
        \/ PrimFloat.leb (fps job) 0%float = true ->
        let e :=
          if input_video_exists env (RunJob.local_video_path job)
          then mkExc "ValueError" true "fps は 0 より大きい値を指定してください。"
          else mkExc "FileNotFoundError" true
                 ("入力動画が見つかりません: " ++ RunJob.local_video_path job)%string in
        snd (RunJob.execute env ib ob keep job worker []) =
          [EnsureDir (RunJob.input_dir job);
           EnsureDir (RunJob.output_dir job);
           StartJobAttempt (job_id job) (worker_id worker);
           ReportPhase "download" "入力動画をストレージから取得します。";
           DownloadFile ib (input_object_key job) (RunJob.local_video_path job);
           MarkJobFailed (job_id job) (Some (attempt_id info))
                         (Some "worker_runtime_error") (exc_str e) (Some 1)]
        /\ fst (RunJob.execute env ib ob keep job worker []) =
             match mark_job_failed_outcome env with
             | Ok _ => Raise e
             | Raise e' => Raise e'
             end).
Proof.
  split.
  { intros request tr. split.
    - intros Hmissing. exact (validate_missing_input request tr Hmissing).
    - intros Hex Hfps. exact (validate_bad_fps request tr Hex Hfps). }
  intros info u1 u2 u3 u4 H1 H2 H3 H4 H5 Hbad.
  pose (request := mkVideoToGlbRequest (RunJob.local_video_path job)
                     (RunJob.output_dir job) (fps job) keep (model_id job)).
  pose (tr5 := [EnsureDir (RunJob.input_dir job);
                EnsureDir (RunJob.output_dir job);
                StartJobAttempt (job_id job) (worker_id worker);
                ReportPhase "download" "入力動画をストレージから取得します。";
                DownloadFile ib (input_object_key job) (RunJob.local_video_path job)]).
  assert (Convert.execute env request tr5 =
          (Raise (if input_video_exists env (RunJob.local_video_path job)
                  then mkExc "ValueError" true "fps は 0 より大きい値を指定してください。"
                  else mkExc "FileNotFoundError" true
                         ("入力動画が見つかりません: " ++ RunJob.local_video_path job)%string),
           tr5)) as Hrun.
  { destruct (input_video_exists env (RunJob.local_video_path job)) eqn:Hex.
    - destruct Hbad as [Hbad|Hbad]; [discriminate|].
      exact (validate_bad_fps request tr5 Hex Hbad).
    - exact (validate_missing_input request tr5 Hex). }
  cbv zeta.
  unfold RunJob.execute, RunJob.guarded, RunJob.after_start, RunJob.on_exception,
    try_assigning_except, Convert.ensure_dir, Convert.report_phase, bind, call, raise.
  rewrite H1, H2, H3, H4, H5. cbn [app].
  fold request. fold tr5. rewrite Hrun.
  destruct (input_video_exists env (RunJob.local_video_path job));
    cbn [exc_is_Exception];
    destruct (mark_job_failed_outcome env); split; reflexivity.
Qed.

End Validation.

(** C9, as stated, fails in the pipeline: with fps = 0 the validation error is
    raised after [start_job_attempt] and after the storage download, and the
    failure is recorded on the attempt too: the store ends with an attempt row,
    marked failed. *)
Lemma validation_failure_follows_attempt_and_download :
  let run := RunJob.execute Sample.all_fine "in" "out" false
               (Sample.video_job 0%float) Sample.worker [] in
  (exists e, fst run = Raise e /\ exc_class e = "ValueError")
  /\ existsb Ports.is_external_capability (snd run) = true
  /\ In (Ports.StartJobAttempt "j1" "w1") (snd run)
  /\ (exists e, last (snd run) (Ports.EnsureDir "") =
                Ports.MarkJobFailed "j1" (Some "a1") (Some "worker_runtime_error")
                                    (exc_str e) (Some 1))
  /\ Repo.job_attempts Sample.one_job = []
  /\ map (fun a => (Repo.a_id a, Repo.a_status a))
         (Repo.job_attempts (Replay.replay 7 "a1" (snd run) Sample.one_job))
     = [("a1", "failed")].
Proof.
  cbv zeta. split; [eexists; split; reflexivity|].
  split; [reflexivity|]. split; [cbn; tauto|].
  split; [eexists; reflexivity|]. split; reflexivity.
Qed.

(** ** CompositeProgressReporter *)

Section Fanout.
Import Ports Composite.

Lemma for_each_recording_phase (phase message : string) (outcomes : list (result unit))
    (i : nat) (tr : list Call) :
  for_each (fun reporter => sink_report_phase reporter phase message)
           (recording_sinks i outcomes) tr =
  (first_raise outcomes,
   (tr ++ map (fun k => SinkPhase k phase message)
              (seq i (List.length (until_first_raise outcomes))))%list).
Proof.
  revert i tr. induction outcomes as [|o rest IH]; intros i tr; cbn.
  - rewrite app_nil_r. reflexivity.
  - unfold bind, call. destruct o as [[]|e]; cbn.
    + rewrite IH, <- app_assoc. reflexivity.
    + reflexivity.
Qed.

Lemma for_each_recording_progress (current total : Z) (message : string)
    (outcomes : list (result unit)) (i : nat) (tr : list Call) :
  for_each (fun reporter => sink_report_progress reporter current total message)
           (recording_sinks i outcomes) tr =
  (first_raise outcomes,
   (tr ++ map (fun k => SinkProgress k current total message)
              (seq i (List.length (until_first_raise outcomes))))%list).
Proof.
  revert i tr. induction outcomes as [|o rest IH]; intros i tr; cbn.
  - rewrite app_nil_r. reflexivity.
  - unfold bind, call. destruct o as [[]|e]; cbn.
    + rewrite IH, <- app_assoc. reflexivity.
    + reflexivity.
Qed.

Lemma until_first_raise_all_ok (outcomes : list (result unit)) :
  (forall o, In o outcomes -> exists u, o = Ok u) ->
  first_raise outcomes = Ok tt /\ until_first_raise outcomes = outcomes.
Proof.
  induction outcomes as [|o rest IH]; cbn; intros H; [auto|].
  destruct (H o (or_introl eq_refl)) as [u ->].
  destruct IH as [IH1 IH2]; [intros; apply H; auto|].
  rewrite IH1, IH2. auto.
Qed.

Lemma until_first_raise_stops (before after : list (result unit)) (e : PyExc) :
  (forall o, In o before -> exists u, o = Ok u) ->
  first_raise (before ++ Raise e :: after) = Raise e
  /\ until_first_raise (before ++ Raise e :: after) = (before ++ [Raise e])%list.
Proof.
  induction before as [|o rest IH]; cbn; intros H; [auto|].
  destruct (H o (or_introl eq_refl)) as [u ->].
  destruct IH as [IH1 IH2]; [intros; apply H; auto|].
  rewrite IH1, IH2. auto.
Qed.

(** C8, as the code has it. A call on the composite goes to its reporters in
    list order, one after the other, and stops at the first that raises: that
    exception leaves the composite, and the reporters after it are not called.
    When no reporter raises, every one of them has been called, in order. *)
Theorem composite_delivers_in_order_until_a_raise
    (outcomes : list (result unit)) (phase message : string) (current total : Z)
    (tr : list Call) :
  let self := mkComposite (recording_sinks 0 outcomes) in
  let reached := seq 0 (List.length (until_first_raise outcomes)) in
  report_phase self phase message tr =
    (first_raise outcomes,
     (tr ++ map (fun k => SinkPhase k phase message) reached)%list)
  /\ report_progress self current total message tr =
       (first_raise outcomes,
        (tr ++ map (fun k => SinkProgress k current total message) reached)%list)
  /\ ((forall o, In o outcomes -> exists u, o = Ok u) ->
      first_raise outcomes = Ok tt
      /\ reached = seq 0 (List.length outcomes))
  /\ (forall before e after,
        outcomes = (before ++ Raise e :: after)%list ->
        (forall o, In o before -> exists u, o = Ok u) ->
        first_raise outcomes = Raise e
        /\ reached = seq 0 (S (List.length before)))
  /\ (forall (s : Sink) (rest : list Sink) e tr',
        sink_report_phase s phase message tr = (Raise e, tr') ->
        report_phase (mkComposite (s :: rest)) phase message tr = (Raise e, tr')).
Proof.
  cbv zeta. split; [|split; [|split; [|split]]].
  - apply for_each_recording_phase.
  - apply for_each_recording_progress.
  - intros H. destruct (until_first_raise_all_ok outcomes H) as [H1 H2].
    rewrite H1, H2. auto.
  - intros before e after -> H.
    destruct (until_first_raise_stops before after e H) as [H1 H2].
    rewrite H1, H2, length_app. cbn. rewrite Nat.add_1_r. auto.
  - intros s rest e tr' H. unfold report_phase. cbn. unfold bind. rewrite H.
    reflexivity.
Qed.

End Fanout.

(** C8, as stated, fails: the first of two reporters raises; the exception
    leaves the composite and the second reporter is never called. *)
Lemma composite_stops_at_a_failing_sink :
  let boom := RuntimeError "console closed" in
  let self := Composite.mkComposite (Composite.recording_sinks 0 [Raise boom; Ok tt]) in
  Composite.report_phase self "download" "start" [] =
    (Raise boom, [Ports.SinkPhase 0 "download" "start"])
  /\ ~ In (Ports.SinkPhase 1 "download" "start")
          (snd (Composite.report_phase self "download" "start" []))
  /\ Composite.report_progress self 1 2 "half" [] =
       (Raise boom, [Ports.SinkProgress 0 1 2 "half"]).
Proof.
  cbv zeta. split; [reflexivity|]. split; [|reflexivity].
  cbn. intros [H|[]]. discriminate.
Qed.

(** ** DbProgressReporter *)

Section Throttle.
Import Ports DbReporter.

Variable env : Env.

Lemma report_progress_run (self : DbProgressReporter) (now : float)
    (current total percent : Z) (message : string) (tr : list Call) :
  percent_of current total = Ok percent ->
  report_progress env self now current total message tr =
  if throttled self now current total then (Ok self, tr)
  else accepted env self now percent tr.
Proof.
  intros Hp. unfold report_progress, accepted, bind, lift, call, ret. rewrite Hp.
  destruct (throttled self now current total); [reflexivity|].
  destruct (update_progress_outcome env); reflexivity.
Qed.

Lemma percent_of_100_100 : percent_of 100 100 = Ok 100.
Proof. reflexivity. Qed.

(** C6, as the code has it. A report is dropped, with no [update_progress]
    call and the reporter unchanged, when the clock reading minus the reading
    of the last accepted report is below the minimum interval and current is
    below the safe total (total, or 1 when total <= 0). Otherwise it is
    accepted at once: one [update_progress] call, whatever the interval; so it
    is whenever total > 0 and current >= total. The interval defaults to 2.0.
    Of two identical reports, the first accepted and the second inside the
    window, one is persisted; a report (100, 100) always is. *)
Theorem report_progress_throttles_below_safe_total
    (self : DbProgressReporter) (now : float) (current total percent : Z)
    (message : string) (tr : list Call) :
  percent_of current total = Ok percent ->
  let within :=
    PrimFloat.ltb (PrimFloat.sub now (_last_update_at self)) (_min_interval_sec self) in
  let run := report_progress env self now current total message tr in
  (within = true -> current < safe_total total -> run = (Ok self, tr))
  /\ (within = false -> run = accepted env self now percent tr)
  /\ (safe_total total <= current -> run = accepted env self now percent tr)
  /\ (0 < total -> total <= current -> run = accepted env self now percent tr)
  /\ _min_interval_sec (init (_job_id self) None) = 2%float
  /\ (forall now2 u,
        update_progress_outcome env = Ok u ->
        within = false ->
        PrimFloat.ltb (PrimFloat.sub now2 now) (_min_interval_sec self) = true ->
        current < safe_total total ->
        update_progress_calls
          (snd (report_all env self
                  [(now, current, total, message); (now2, current, total, message)] []))
        = [(_job_id self, percent)])
  /\ (forall self' now',
        update_progress_calls (snd (report_progress env self' now' 100 100 message []))
        = [(_job_id self', 100)]).
Proof.
  intros Hp. cbv zeta.
  rewrite (report_progress_run self now current total percent message tr Hp).
  unfold throttled.
  split; [|split; [|split; [|split; [|split; [|split]]]]].
  - intros Hw Hc. rewrite Hw. apply Z.ltb_lt in Hc. rewrite Hc. reflexivity.
  - intros Hw. rewrite Hw. reflexivity.
  - intros Hc. apply Z.ltb_ge in Hc. rewrite Hc, andb_false_r. reflexivity.
  - intros Ht Hc. unfold safe_total. apply Z.ltb_lt in Ht. rewrite Ht.
    apply Z.ltb_ge in Hc. rewrite Hc, andb_false_r. reflexivity.
  - reflexivity.
  - intros now2 u Hu Hw Hw2 Hc. cbn [report_all]. unfold bind.
    rewrite (report_progress_run self now current total percent message [] Hp).
    unfold throttled. rewrite Hw. cbn [andb]. unfold accepted. rewrite Hu.
    rewrite (report_progress_run _ now2 current total percent message _ Hp).
    unfold throttled. cbn [_last_update_at _min_interval_sec].
    rewrite Hw2. apply Z.ltb_lt in Hc. rewrite Hc. reflexivity.
  - intros self' now'.
    rewrite (report_progress_run self' now' 100 100 100 message [] percent_of_100_100).
    unfold throttled. replace (100 <? safe_total 100) with false by reflexivity.
    rewrite andb_false_r. reflexivity.
Qed.

End Throttle.

(** The theorem at a concrete report: half way, two seconds and more after the
    last update. *)
Lemma report_progress_throttles_below_safe_total_witness :
  DbReporter.report_progress Sample.all_fine (DbReporter.init "j1" None)
    1000%float 50 100 "x" [] =
  (Ok (DbReporter.mkDbProgressReporter "j1" 2%float 1000%float),
   [Ports.UpdateProgress "j1" 50]).
Proof.
  exact (proj1 (proj2
    (report_progress_throttles_below_safe_total Sample.all_fine
       (DbReporter.init "j1" None) 1000%float 50 100 50 "x" [] eq_refl)) eq_refl).
Defined.

(** C6, as stated, fails: a report (5, 10) is accepted at time 1000.0; half a
    second later a report (0, 0), whose current is >= its total, is dropped. *)
Lemma report_progress_drops_zero_of_zero :
  let fresh := DbReporter.init "j1" None in
  let after_first := DbReporter.mkDbProgressReporter "j1" 2%float 1000%float in
  DbReporter.report_progress Sample.all_fine fresh 1000%float 5 10 "x" [] =
    (Ok after_first, [Ports.UpdateProgress "j1" 50])
  /\ (0 >=? 0) = true
  /\ PrimFloat.ltb (PrimFloat.sub 1000.5%float 1000%float) 2%float = true
  /\ DbReporter.report_progress Sample.all_fine after_first 1000.5%float 0 0 "x"
       [Ports.UpdateProgress "j1" 50]
     = (Ok after_first, [Ports.UpdateProgress "j1" 50])
  /\ Ports.update_progress_calls
       (snd (DbReporter.report_all Sample.all_fine fresh
               [(1000%float, 5, 10, "x"); (1000.5%float, 0, 0, "x")] []))
     = [("j1", 50)].
Proof. cbv zeta. repeat split. Qed.

(** ** The persisted percentage *)

Section Percentage.
Import Ports DbReporter ProgressSpec Replay.

Lemma progress_of_update_progress (job_id : string) (p : Z) (d : Repo.Db) :
  progress_of job_id (snd (Repo.update_progress Repo.no_faults job_id p d)) =
  option_map (fun _ => clamp p) (progress_of job_id d).
Proof.
  unfold Repo.update_progress, Repo.transaction, Repo.execute, Repo.no_faults,
    progress_of, Repo.update_jobs. cbn [snd Repo.jobs].
  induction (Repo.jobs d) as [|j rows IH]; [reflexivity|].
  cbn [map find]. destruct (String.eqb (Repo.j_id j) job_id) eqn:Hid.
  - cbn [Repo.j_id]. rewrite Hid. cbn. f_equal. unfold clamp.
    destruct (Z.ltb_spec p 0); destruct (Z.ltb_spec 100 p);
      try destruct (Z.ltb_spec 100 0); lia.
  - rewrite Hid. exact IH.
Qed.

Lemma clamp_range (p : Z) : 0 <= clamp p <= 100.
Proof. unfold clamp. lia. Qed.

Lemma In_zrange (lo : Z) (n : nat) (x : Z) :
  lo <= x < lo + Z.of_nat n -> In x (zrange lo n).
Proof.
  intros H. unfold zrange. apply in_map_iff.
  exists (Z.to_nat (x - lo)). split; [lia|]. apply in_seq. lia.
Qed.

Lemma floor_or_one_below_checked : floor_or_one_below_up_to 100 = true.
Proof. vm_compute. reflexivity. Qed.

(** For 0 <= current <= total <= 100 the double-precision computation gives
    the exact floor or one below it. *)
Lemma percent_of_near_floor (current total : Z) :
  0 < total <= 100 -> 0 <= current <= total ->
  exists p, percent_of current total = Ok p
            /\ current * 100 / total - 1 <= p <= current * 100 / total.
Proof.
  intros Ht Hc. pose proof floor_or_one_below_checked as H.
  unfold floor_or_one_below_up_to in H.
  rewrite forallb_forall in H. specialize (H total (In_zrange 1 100 total ltac:(lia))).
  rewrite forallb_forall in H.
  specialize (H current (In_zrange 0 (S (Z.to_nat total)) current ltac:(lia))).
  unfold floor_or_one_below in H.
  destruct (percent_of current total) as [p|e]; [|discriminate].
  exists p. split; [reflexivity|].
  apply andb_true_iff in H. destruct H as [H1 H2].
  apply Z.leb_le in H1, H2. lia.
Qed.

(** C7, as the code has it. An accepted report makes one [update_progress]
    call with int((float(current) / float(safe_total)) * 100.0), safe_total
    being total when total > 0 and 1 otherwise (so for every total <= 0, not
    only 0); what is stored is that value clamped to [0,100]. A report
    (-5, 100) computes -5 and stores 0; (999, 100) computes 999 and stores 100.
    For 0 <= current <= total <= 100 the value computed is the exact floor of
    current * 100 / total, or one below it. *)
Theorem persisted_percent_is_computed_then_clamped
    (env : Env) (self : DbProgressReporter) (now : float)
    (current total percent : Z) (message : string)
    (clock : Z) (new_id : string) (d : Repo.Db) :
  percent_of current total = Ok percent ->
  throttled self now current total = false ->
  let tr := snd (report_progress env self now current total message []) in
  tr = [UpdateProgress (_job_id self) percent]
  /\ progress_of (_job_id self) (replay clock new_id tr d) =
       option_map (fun _ => clamp percent) (progress_of (_job_id self) d)
  /\ 0 <= clamp percent <= 100
  /\ (total <= 0 -> percent_of current total = percent_of current 1)
  /\ (percent_of (-5) 100 = Ok (-5) /\ clamp (-5) = 0)
  /\ (percent_of 999 100 = Ok 999 /\ clamp 999 = 100)
  /\ (forall c t, 0 < t <= 100 -> 0 <= c <= t ->
        exists p, percent_of c t = Ok p /\ c * 100 / t - 1 <= p <= c * 100 / t).
Proof.
  intros Hp Hacc. cbv zeta.
  assert (snd (report_progress env self now current total message [])
          = [UpdateProgress (_job_id self) percent]) as Htr.
  { unfold report_progress, bind, lift, call, ret. rewrite Hp, Hacc.
    destruct (update_progress_outcome env); reflexivity. }
  rewrite Htr. split; [reflexivity|]. split; [|split; [|split; [|split; [|split]]]].
  - cbn [replay fold_left replay_call]. apply progress_of_update_progress.
  - apply clamp_range.
  - intros Hneg. unfold percent_of, safe_total.
    destruct (Z.ltb_spec 0 total); [lia|reflexivity].
  - split; reflexivity.
  - split; reflexivity.
  - apply percent_of_near_floor.
Qed.

End Percentage.

(** The theorem at the report (-5, 100): 0 is stored. *)
Lemma persisted_percent_is_computed_then_clamped_witness :
  Replay.progress_of "j1"
    (Replay.replay 0 ""
       (snd (DbReporter.report_progress Sample.all_fine (DbReporter.init "j1" None)
               1000%float (-5) 100 "x" []))
       Sample.one_job)
  = Some 0.
Proof.
  exact (proj1 (proj2
    (persisted_percent_is_computed_then_clamped Sample.all_fine
       (DbReporter.init "j1" None) 1000%float (-5) 100 (-5) "x" 0 "" Sample.one_job
       eq_refl eq_refl))).
Defined.

(** C7, as stated, fails. With total = -4 the code takes the total as 1 and
    stores 100, where floor(2 / -4 * 100) clamped is 0; and (29, 100) stores
    28, the double 0.29 * 100.0 being just below 29. *)
Lemma persisted_percent_is_not_the_floor :
  let self := DbReporter.init "j1" None in
  Replay.persisted Sample.all_fine self 1000%float 2 (-4) Sample.one_job = Some 100
  /\ ProgressSpec.spec_percent 2 (-4) = 0
  /\ Replay.persisted Sample.all_fine self 1000%float 29 100 Sample.one_job = Some 28
  /\ ProgressSpec.spec_percent 29 100 = 29.
Proof. cbv zeta. repeat split. Qed.

(** The two reports of the specification, end to end. *)
Example persisted_percent_of_the_two_reports :
  let self := DbReporter.init "j1" None in
  Replay.persisted Sample.all_fine self 1000%float (-5) 100 Sample.one_job = Some 0
  /\ Replay.persisted Sample.all_fine self 1000%float 999 100 Sample.one_job = Some 100.
Proof. cbv zeta. repeat split. Qed.

(* ================================================================== *)
(** * Further properties of the code *)
(* ================================================================== *)

(** ** The job store: success, progress, retries *)

Section StoreLifecycle.
Import Repo Cycles Lifecycle ProgressSpec.

(** X1. [mark_job_succeeded] is all or nothing: when one of its two updates
    raises the store is as it was; otherwise the attempt of the given id is
    'succeeded' with exit code 0 and no error message, and every job row of
    the given id is 'succeeded' at 100 percent with its error cleared, all
    other rows being untouched. It commits when no statement fails. *)
Theorem mark_job_succeeded_all_or_nothing
    (faults : Faults) (now : Z) (job_id attempt_id : string) (d : Db) :
  let r := mark_job_succeeded faults now job_id attempt_id d in
  (((exists e, fst r = Raise e) /\ snd r = d)
   \/ (fst r = Ok tt
       /\ Forall2 (job_succeeded job_id now) (jobs d) (jobs (snd r))
       /\ Forall2 (attempt_succeeded attempt_id now)
                  (job_attempts d) (job_attempts (snd r))))
  /\ (faults 0%nat = false /\ faults 1%nat = false -> fst r = Ok tt).
Proof.
  cbv zeta. unfold mark_job_succeeded, transaction, tx_bind, execute.
  destruct (faults 0%nat); [split; [left; cbn; eauto|intros [H _]; discriminate]|].
  destruct (faults 1%nat); [split; [left; cbn; eauto|intros [_ H]; discriminate]|].
  split; [right|reflexivity]. cbn. split; [reflexivity|]. split.
  - apply Forall2_map_self. intros j _. unfold job_succeeded.
    destruct (String.eqb (j_id j) job_id); cbn; repeat split; reflexivity.
  - apply Forall2_map_self. intros a _. unfold attempt_succeeded.
    destruct (String.eqb (a_id a) attempt_id); cbn; repeat split; reflexivity.
Qed.

Lemma update_progress_committed (job_id : string) (p : Z) (d : Db) :
  update_progress no_faults job_id p d =
  (Ok tt,
   update_jobs job_id
     (fun j => mkJobRow (j_id j) (j_input_object_key j) (j_output_prefix j)
                        (j_params_fps j) (j_params_modelId j)
                        (j_status j) (j_priority j) (j_created_at j)
                        (clamp p) (j_error_code j) (j_error_message j)
                        (j_started_at j) (j_finished_at j)) d).
Proof.
  unfold update_progress, transaction, execute, no_faults.
  replace (if 100 <? (if p <? 0 then 0 else p) then 100 else if p <? 0 then 0 else p)
    with (clamp p); [reflexivity|].
  unfold clamp. destruct (Z.ltb_spec p 0); destruct (Z.ltb_spec 100 p);
    try destruct (Z.ltb_spec 100 0); lia.
Qed.

(** X2. [update_progress] writes one column: when its statement raises the
    store is as it was; otherwise every job row of the given id keeps all its
    other columns ([params_json] included) and gets the percentage clamped to
    [0,100], the other rows and [job_attempts] being untouched. Nothing compares with the value
    already stored: of two updates the second decides, also when it is lower. *)
Theorem update_progress_writes_one_column
    (faults : Faults) (job_id : string) (p q : Z) (d : Db) :
  let r := update_progress faults job_id p d in
  (((exists e, fst r = Raise e) /\ snd r = d)
   \/ (fst r = Ok tt
       /\ Forall2 (progress_set job_id (clamp p)) (jobs d) (jobs (snd r))
       /\ job_attempts (snd r) = job_attempts d))
  /\ 0 <= clamp p <= 100
  /\ snd (update_progress no_faults job_id q
            (snd (update_progress no_faults job_id p d)))
     = snd (update_progress no_faults job_id q d).
Proof.
  cbv zeta. split; [|split].
  - destruct (faults 0%nat) eqn:Hf.
    + left. unfold update_progress, transaction, execute. rewrite Hf. cbn. eauto.
    + right.
      assert (update_progress faults job_id p d = update_progress no_faults job_id p d)
        as ->.
      { unfold update_progress, transaction, execute, no_faults. rewrite Hf. reflexivity. }
      rewrite update_progress_committed. cbn [fst snd]. split; [reflexivity|].
      split; [|reflexivity].
      apply Forall2_map_self. intros j _. unfold progress_set.
      destruct (String.eqb (j_id j) job_id); cbn; repeat split; reflexivity.
  - unfold clamp. lia.
  - rewrite !update_progress_committed. cbn [snd]. unfold update_jobs. cbn [jobs job_attempts].
    f_equal. rewrite map_map. apply map_ext. intros j.
    destruct (String.eqb (j_id j) job_id) eqn:Hid; cbn [j_id]; rewrite Hid; reflexivity.
Qed.

(** X3. A retry keeps the first start time. When a job is started, fails and
    is started again, the two attempts get consecutive numbers, and every job
    row of that id ends 'running' at 0 percent with the error of the failed
    attempt and its finish time cleared, while [started_at] is the one it had,
    or the time of the first start when it had none: the second start does
    not move it. *)
Theorem retry_keeps_first_start_time
    (now1 now2 now3 : Z) (id1 id2 job_id worker_id : string)
    (error_code : option string) (message : string) (exit_code : option Z) (d : Db) :
  let r := start_fail_start now1 now2 now3 id1 id2 job_id worker_id
                            error_code message exit_code d in
  exists n,
    next_attempt_no_of job_id (job_attempts d) n
    /\ fst (fst r) = Ok n
    /\ snd (fst r) = Ok (n + 1)
    /\ List.length (job_attempts (snd r)) = (List.length (job_attempts d) + 2)%nat
    /\ Forall2 (fun j j' =>
                  if String.eqb (j_id j) job_id then
                    j_id j' = j_id j /\ j_status j' = "running"
                    /\ j_progress_percent j' = 0
                    /\ j_error_code j' = None /\ j_error_message j' = None
                    /\ j_finished_at j' = None
                    /\ j_started_at j' = Some (coalesce (j_started_at j) now1)
                  else j' = j)
               (jobs d) (jobs (snd r)).
Proof.
  cbv zeta. unfold start_fail_start.
  rewrite (start_job_attempt_committed now1 id1 job_id worker_id d). cbv zeta.
  cbn [fst snd].
  match goal with
  | |- context [start_job_attempt no_faults now3 id2 job_id worker_id ?d2] =>
      rewrite (start_job_attempt_committed now3 id2 job_id worker_id d2);
      assert (coalesce (max_attempt_no job_id (job_attempts d2)) 0
              = coalesce (max_attempt_no job_id (job_attempts d)) 0 + 1) as Hmax
  end.
  { cbn. rewrite max_attempt_no_map by (intros a; destruct (String.eqb _ _); auto).
    rewrite max_attempt_no_snoc by reflexivity. cbn.
    destruct (max_attempt_no job_id (job_attempts d)); cbn; lia. }
  cbv zeta. cbn [fst snd attempt_no].
  exists (coalesce (max_attempt_no job_id (job_attempts d)) 0 + 1).
  split; [apply next_attempt_no_of_max|]. split; [reflexivity|].
  split; [rewrite Hmax; reflexivity|]. split.
  - cbn. rewrite length_app, length_map, length_app. cbn. lia.
  - cbn. rewrite !map_map. apply Forall2_map_self. intros j _.
    destruct (String.eqb (j_id j) job_id) eqn:Hid; cbn [j_id]; rewrite ?Hid; cbn [j_id];
      rewrite ?Hid; cbn; [|reflexivity].
    repeat split; destruct (j_started_at j); reflexivity.
Qed.

(** X4. An attempt that is started and then marked succeeded, under an id no
    attempt row carries yet, leaves exactly one more attempt row: that
    attempt, 'succeeded' with exit code 0, numbered next for the job. Every
    job row of the id is 'succeeded' at 100 percent with no error; the earlier
    attempts and the other jobs are as they were. *)
Theorem start_then_succeed
    (now1 now2 : Z) (new_id job_id worker_id : string) (d : Db) :
  (forall a, In a (job_attempts d) -> a_id a <> new_id) ->
  let d' := start_succeed now1 now2 new_id job_id worker_id d in
  (exists n,
     next_attempt_no_of job_id (job_attempts d) n
     /\ job_attempts d' =
          (job_attempts d ++ [mkAttemptRow new_id job_id n worker_id "succeeded"
                                           now1 (Some now2) (Some 0) None])%list)
  /\ Forall2 (fun j j' =>
                if String.eqb (j_id j) job_id then
                  j_id j' = j_id j /\ j_status j' = "succeeded"
                  /\ j_progress_percent j' = 100
                  /\ j_error_code j' = None /\ j_error_message j' = None
                  /\ j_started_at j' = Some (coalesce (j_started_at j) now1)
                  /\ j_finished_at j' = Some now2
                else j' = j)
             (jobs d) (jobs d').
Proof.
  intros Hfresh. cbv zeta. unfold start_succeed.
  rewrite (start_job_attempt_committed now1 new_id job_id worker_id d). cbv zeta.
  cbn [attempt_id]. split.
  - exists (coalesce (max_attempt_no job_id (job_attempts d)) 0 + 1).
    split; [apply next_attempt_no_of_max|].
    cbn. rewrite map_app. cbn. rewrite String.eqb_refl. f_equal.
    rewrite <- (map_id (job_attempts d)) at 2. apply map_ext_in.
    intros a Hin. destruct (String.eqb_spec (a_id a) new_id) as [Heq|]; [|reflexivity].
    exfalso. exact (Hfresh a Hin Heq).
  - cbn. rewrite map_map. apply Forall2_map_self. intros j _.
    destruct (String.eqb (j_id j) job_id) eqn:Hid; cbn [j_id]; rewrite ?Hid; cbn;
      [|reflexivity].
    repeat split.
Qed.

End StoreLifecycle.

(** X4 at the sample store: job j1, no attempt yet, attempt id a1. *)
Lemma start_then_succeed_witness :
  exists n,
    Cycles.next_attempt_no_of "j1" (Repo.job_attempts Sample.one_job) n
    /\ Repo.job_attempts (Lifecycle.start_succeed 5 9 "a1" "j1" "w1" Sample.one_job)
       = (Repo.job_attempts Sample.one_job
            ++ [Repo.mkAttemptRow "a1" "j1" n "w1" "succeeded" 5 (Some 9) (Some 0) None])%list.
Proof.
  exact (proj1 (start_then_succeed 5 9 "a1" "j1" "w1" Sample.one_job
                  (fun a (H : In a []) => False_ind _ H))).
Defined.

(** ** The worker registry *)

Section Registry.
Import Workers.

Variables (now : Z) (new_id worker_key display_name status : string).
Variables (ip_address : option string) (tags capacity : string).

Let upsert := insert_on_conflict_update now new_id worker_key display_name status
                ip_address tags capacity.

Let written (w : WorkerRow) : Prop :=
  w_worker_key w = worker_key /\ w_display_name w = display_name
  /\ w_status w = status /\ w_ip_address w = ip_address
  /\ w_tags_json w = tags /\ w_capacity_json w = capacity
  /\ w_last_heartbeat_at w = now /\ w_updated_at w = now.

Lemma upsert_keys (rows : list WorkerRow) :
  map w_worker_key (snd (upsert rows)) =
  (map w_worker_key rows
     ++ (if existsb (has_key worker_key) rows then [] else [worker_key]))%list.
Proof.
  unfold upsert. induction rows as [|w rest IH]; [reflexivity|].
  cbn [insert_on_conflict_update existsb].
  destruct (has_key worker_key w) eqn:Hk.
  - cbn. rewrite app_nil_r. unfold has_key in Hk. apply String.eqb_eq in Hk.
    rewrite Hk. reflexivity.
  - destruct (insert_on_conflict_update _ _ _ _ _ _ _ _ rest) as [ret rest'].
    cbn in *. rewrite IH. reflexivity.
Qed.

Lemma upsert_row (rows : list WorkerRow) :
  exists w,
    In w (snd (upsert rows)) /\ written w
    /\ fst (upsert rows) = (w_id w, worker_key, display_name)
    /\ match find (has_key worker_key) rows with
       | Some old => w_id w = w_id old /\ w_created_at w = w_created_at old
                     /\ List.length (snd (upsert rows)) = List.length rows
       | None => w_id w = new_id /\ w_created_at w = now
                 /\ List.length (snd (upsert rows)) = S (List.length rows)
       end.
Proof.
  unfold upsert, written. induction rows as [|w rest IH].
  - eexists. cbn. split; [left; reflexivity|]. cbn. repeat split.
  - cbn [insert_on_conflict_update find]. destruct (has_key worker_key w) eqn:Hk.
    + eexists. cbn. split; [left; reflexivity|]. cbn.
      unfold has_key in Hk. apply String.eqb_eq in Hk. rewrite Hk. repeat split.
    + destruct IH as (x & Hin & Hw & Hret & Hold).
      destruct (insert_on_conflict_update _ _ _ _ _ _ _ _ rest) as [ret rest'].
      cbn in *. exists x. split; [right; exact Hin|]. split; [exact Hw|].
      split; [exact Hret|].
      destruct (find (has_key worker_key) rest); intuition lia.
Qed.

Lemma upsert_keeps_others (rows : list WorkerRow) (w' : WorkerRow) :
  In w' rows -> w_worker_key w' <> worker_key -> In w' (snd (upsert rows)).
Proof.
  unfold upsert. induction rows as [|w rest IH]; [contradiction|].
  intros Hin Hne. cbn [insert_on_conflict_update].
  destruct (has_key worker_key w) eqn:Hk.
  - cbn. destruct Hin as [->|Hin]; [|right; exact Hin].
    unfold has_key in Hk. apply String.eqb_eq in Hk. contradiction.
  - destruct (insert_on_conflict_update _ _ _ _ _ _ _ _ rest) as [ret rest'].
    cbn in *. destruct Hin as [->|Hin]; [left; reflexivity|right; auto].
Qed.

Lemma upsert_later (later : Z) (other_id : string) (rows : list WorkerRow) :
  keys_unique rows ->
  snd (insert_on_conflict_update later other_id worker_key display_name status
         ip_address tags capacity (snd (upsert rows)))
  = map (fun w =>
           if has_key worker_key w
           then mkWorkerRow (w_id w) (w_worker_key w) (w_display_name w) (w_status w)
                            later (w_ip_address w) (w_tags_json w) (w_capacity_json w)
                            (w_created_at w) later
           else w)
        (snd (upsert rows)).
Proof.
  unfold upsert, keys_unique. induction rows as [|w rest IH]; intros Huniq.
  - cbn. unfold has_key. cbn. rewrite String.eqb_refl. reflexivity.
  - cbn [insert_on_conflict_update]. destruct (has_key worker_key w) eqn:Hk.
    + cbn. unfold has_key in *. cbn. rewrite Hk. f_equal.
      cbn in Huniq. inversion Huniq as [|k ks Hnotin _]; subst.
      apply String.eqb_eq in Hk. cbn [snd]. f_equal.
      rewrite <- (map_id rest) at 1. apply map_ext_in. intros x Hx.
      destruct (String.eqb_spec (w_worker_key x) worker_key) as [Hx'|]; [|reflexivity].
      exfalso. apply Hnotin. rewrite Hk, <- Hx'. apply in_map. exact Hx.
    + cbn in Huniq. inversion Huniq as [|k ks _ Hrest]; subst.
      specialize (IH Hrest).
      destruct (insert_on_conflict_update now new_id _ _ _ _ _ _ rest) as [ret rest'].
      cbn in *. rewrite Hk.
      destruct (insert_on_conflict_update later other_id _ _ _ _ _ _ rest') as [ret2 rest2].
      cbn in *. rewrite IH. reflexivity.
Qed.

Lemma keys_unique_same_key (rows : list WorkerRow) (a b : WorkerRow) :
  keys_unique rows -> In a rows -> In b rows -> w_worker_key a = w_worker_key b -> a = b.
Proof.
  unfold keys_unique. induction rows as [|w rest IH]; cbn; [contradiction|].
  intros Hnd Ha Hb Hk. inversion Hnd as [|k ks Hnotin Hnd']; subst.
  destruct Ha as [->|Ha]; destruct Hb as [->|Hb]; auto.
  - exfalso. apply Hnotin. rewrite Hk. apply in_map. exact Hb.
  - exfalso. apply Hnotin. rewrite <- Hk. apply in_map. exact Ha.
Qed.

(** X5. [upsert_worker_heartbeat] keeps one row per worker key. On a table
    whose keys are unique, a call whose statement does not fail leaves the
    keys unique, with exactly one row for the given key: it carries the given
    display name, status, address, tags and capacity, and the heartbeat time.
    When the key was already registered that row keeps its id and creation
    time and no row is added; otherwise one row is added under the generated
    id. The rows of other keys are untouched and the value returned is that
    row's id, key and display name. Repeating the call at a later time adds
    no row and moves two columns of that row only, [last_heartbeat_at] and
    [updated_at], to the later time. *)
Theorem upsert_worker_heartbeat_one_row_per_key (later : Z) (other_id : string)
    (rows : list WorkerRow) :
  keys_unique rows ->
  let r := upsert_worker_heartbeat false now new_id worker_key display_name status
             ip_address tags capacity rows in
  keys_unique (snd r)
  /\ (exists w,
        In w (snd r) /\ written w
        /\ fst r = Ok (mkWorkerInfo (w_id w) worker_key display_name)
        /\ (forall w', In w' (snd r) -> w_worker_key w' = worker_key -> w' = w)
        /\ match find (has_key worker_key) rows with
           | Some old => w_id w = w_id old /\ w_created_at w = w_created_at old
                         /\ List.length (snd r) = List.length rows
           | None => w_id w = new_id /\ w_created_at w = now
                     /\ List.length (snd r) = S (List.length rows)
           end)
  /\ (forall w', In w' rows -> w_worker_key w' <> worker_key -> In w' (snd r))
  /\ snd (upsert_worker_heartbeat false later other_id worker_key display_name status
            ip_address tags capacity (snd r))
     = map (fun w =>
              if has_key worker_key w
              then mkWorkerRow (w_id w) (w_worker_key w) (w_display_name w) (w_status w)
                               later (w_ip_address w) (w_tags_json w) (w_capacity_json w)
                               (w_created_at w) later
              else w)
           (snd r).
Proof.
  intros Huniq. cbv zeta.
  assert (forall t id rws,
            upsert_worker_heartbeat false t id worker_key display_name status
              ip_address tags capacity rws
            = (match fst (insert_on_conflict_update t id worker_key display_name
                            status ip_address tags capacity rws) with
               | (r0, r1, r2) => Ok (mkWorkerInfo r0 r1 r2)
               end,
               snd (insert_on_conflict_update t id worker_key display_name
                      status ip_address tags capacity rws))) as Hunfold.
  { intros t id rws. unfold upsert_worker_heartbeat.
    destruct (insert_on_conflict_update _ _ _ _ _ _ _ _ rws) as [[[r0 r1] r2] rows'].
    reflexivity. }
  rewrite !Hunfold. cbn [fst snd]. fold upsert.
  assert (keys_unique (snd (upsert rows))) as Huniq'.
  { unfold keys_unique. rewrite upsert_keys.
    destruct (existsb (has_key worker_key) rows) eqn:Hex.
    - rewrite app_nil_r. exact Huniq.
    - apply NoDup_app; [exact Huniq|repeat constructor; intros []|].
      intros k Hin [<-|[]]. apply in_map_iff in Hin. destruct Hin as (x & Hx & Hin).
      assert (existsb (has_key worker_key) rows = true) as Hc.
      { apply existsb_exists. exists x. split; [exact Hin|].
        unfold has_key. apply String.eqb_eq. exact Hx. }
      congruence. }
  split; [exact Huniq'|]. split; [|split].
  - destruct (upsert_row rows) as (w & Hin & Hw & Hret & Hold).
    exists w. split; [exact Hin|]. split; [exact Hw|]. split; [rewrite Hret; reflexivity|].
    split; [|exact Hold].
    intros w' Hin' Hk. apply (keys_unique_same_key _ w' w Huniq' Hin' Hin).
    destruct Hw as [Hkw _]. congruence.
  - apply upsert_keeps_others.
  - apply upsert_later. exact Huniq.
Qed.

End Registry.

(** X5 on a registry that holds the worker already, under id-0 since time 1:
    the heartbeat at 7 rewrites that row in place, and the one at 9 moves its
    two times only. *)
Lemma upsert_worker_heartbeat_one_row_per_key_witness :
  let rows := [Workers.mkWorkerRow "id-0" "gpu-01" "old name" "offline" 1 None
                                   "[]" "{}" 1 1] in
  let r := Workers.upsert_worker_heartbeat false 7 "id-1" "gpu-01" "GPU 01" "online"
             None "{}" "{}" rows in
  snd r = [Workers.mkWorkerRow "id-0" "gpu-01" "GPU 01" "online" 7 None "{}" "{}" 1 7]
  /\ snd (Workers.upsert_worker_heartbeat false 9 "id-2" "gpu-01" "GPU 01" "online"
            None "{}" "{}" (snd r))
     = [Workers.mkWorkerRow "id-0" "gpu-01" "GPU 01" "online" 9 None "{}" "{}" 1 9].
Proof.
  cbv zeta. split; [reflexivity|].
  exact (proj2 (proj2 (proj2
           (upsert_worker_heartbeat_one_row_per_key 7 "id-1" "gpu-01" "GPU 01"
              "online" None "{}" "{}" 9 "id-2"
              [Workers.mkWorkerRow "id-0" "gpu-01" "old name" "offline" 1 None
                                   "[]" "{}" 1 1]
              (NoDup_cons _ (fun H : In "gpu-01" [] => H) (NoDup_nil _)))))).
Defined.

(** ** Interleaved leasing calls, at a sample schedule *)

(** X7 on the sample table: caller 0 has read job c and not committed when
    caller 1 reads; caller 1 gets job b. *)
Lemma read_during_open_transaction_differs_witness :
  let sys := Lease.run [0; 0; 1]%nat (Lease.start Sample.three_jobs) in
  Lease.pcs (Lease.step 1%nat sys) 0%nat
    = Lease.at_commit (Some (Sample.job "c" "queued" 5 30))
  /\ Repo.j_id (Sample.job "b" "queued" 1 20) <> Repo.j_id (Sample.job "c" "queued" 5 30).
Proof.
  apply (read_during_open_transaction_differs Sample.three_jobs [0; 0; 1]%nat
           0%nat 1%nat (Sample.job "c" "queued" 5 30) (Sample.job "b" "queued" 1 20)).
  - discriminate.
  - reflexivity.
  - reflexivity.
  - reflexivity.
Defined.

(** ** Reporters: composition *)

Section ReporterComposition.
Import Ports Composite Nesting.

Lemma bind_assoc {A B C} (m : M A) (k : A -> M B) (k' : B -> M C) (tr : list Call) :
  bind (bind m k) k' tr = bind m (fun a => bind (k a) k') tr.
Proof.
  unfold bind. destruct (m tr) as [[a|e] tr1]; [|reflexivity]. reflexivity.
Qed.

Lemma for_each_app {A} (f : A -> M unit) (xs ys : list A) (tr : list Call) :
  for_each f (xs ++ ys) tr = bind (for_each f xs) (fun _ => for_each f ys) tr.
Proof.
  revert tr. induction xs as [|x xs IH]; intros tr; cbn [app for_each].
  - unfold bind, ret. destruct (for_each f ys tr) as [r tr']. reflexivity.
  - unfold bind in *. destruct (f x tr) as [[u|e] tr1]; [apply IH|reflexivity].
Qed.

(** X8. Fan-out composes. A composite over no reporter makes no call and
    returns. Calling a composite over the concatenation of two lists is
    calling the composite over the first and then, if that returned, the one
    over the second. A composite placed among the reporters of another
    behaves as if its own reporters stood in its place. *)
Theorem composite_fanout_composes
    (xs ys zs : list Sink) (phase message : string) (current total : Z)
    (tr : list Call) :
  report_phase (mkComposite []) phase message tr = (Ok tt, tr)
  /\ report_progress (mkComposite []) current total message tr = (Ok tt, tr)
  /\ report_phase (mkComposite (xs ++ ys)) phase message tr =
       bind (report_phase (mkComposite xs) phase message)
            (fun _ => report_phase (mkComposite ys) phase message) tr
  /\ report_progress (mkComposite (xs ++ ys)) current total message tr =
       bind (report_progress (mkComposite xs) current total message)
            (fun _ => report_progress (mkComposite ys) current total message) tr
  /\ report_phase (mkComposite (xs ++ as_sink (mkComposite ys) :: zs)) phase message tr =
       report_phase (mkComposite (xs ++ ys ++ zs)) phase message tr
  /\ report_progress (mkComposite (xs ++ as_sink (mkComposite ys) :: zs))
                     current total message tr =
       report_progress (mkComposite (xs ++ ys ++ zs)) current total message tr.
Proof.
  unfold report_phase, report_progress. cbn [_reporters].
  split; [reflexivity|]. split; [reflexivity|].
  split; [apply for_each_app|]. split; [apply for_each_app|].
  split.
  - rewrite (for_each_app _ xs (as_sink (mkComposite ys) :: zs)).
    rewrite (for_each_app _ xs (ys ++ zs)). unfold bind.
    destruct (for_each _ xs tr) as [[u|e] tr1]; [|reflexivity].
    rewrite for_each_app. reflexivity.
  - rewrite (for_each_app _ xs (as_sink (mkComposite ys) :: zs)).
    rewrite (for_each_app _ xs (ys ++ zs)). unfold bind.
    destruct (for_each _ xs tr) as [[u|e] tr1]; [|reflexivity].
    rewrite for_each_app. reflexivity.
Qed.

End ReporterComposition.

Section ReporterSeries.
Import Ports DbReporter.

Variable env : Env.

Lemma report_progress_calls (self : DbProgressReporter) (now : float)
    (current total : Z) (message : string) (tr : list Call) :
  exists delta,
    snd (report_progress env self now current total message tr) = (tr ++ delta)%list
    /\ (delta = [] \/ exists p, delta = [UpdateProgress (_job_id self) p])
    /\ forall self', fst (report_progress env self now current total message tr) = Ok self' ->
         _job_id self' = _job_id self
         /\ _min_interval_sec self' = _min_interval_sec self
         /\ (_last_update_at self' = _last_update_at self
             \/ _last_update_at self' = now).
Proof.
  unfold report_progress, bind, lift, call, ret.
  destruct (percent_of current total) as [p|e].
  - destruct (throttled self now current total).
    + exists []. rewrite app_nil_r. split; [reflexivity|]. split; [auto|].
      intros self' H. inversion H; subst. auto.
    + exists [UpdateProgress (_job_id self) p].
      destruct (update_progress_outcome env); (split; [reflexivity|]); (split; [eauto|]);
        intros self' H; [|discriminate].
      inversion H; subst. cbn. auto.
  - exists []. rewrite app_nil_r. split; [reflexivity|]. split; [auto|].
    intros self' H. discriminate.
Qed.

(** X9. A reporter writes to its own job only. Over any series of reports
    with their clock readings, every call the reporter makes is an
    [update_progress] for the job it was created for, there is at most one per
    report, and the reporter that comes out has the same job and the same
    minimum interval; the time it remembers is the one it had or the reading
    of one of the reports. *)
Theorem report_all_updates_own_job_only
    (self : DbProgressReporter) (reports : list (float * Z * Z * string))
    (tr : list Call) :
  exists delta,
    snd (report_all env self reports tr) = (tr ++ delta)%list
    /\ (forall c, In c delta -> exists p, c = UpdateProgress (_job_id self) p)
    /\ (List.length delta <= List.length reports)%nat
    /\ forall self', fst (report_all env self reports tr) = Ok self' ->
         _job_id self' = _job_id self
         /\ _min_interval_sec self' = _min_interval_sec self
         /\ (_last_update_at self' = _last_update_at self
             \/ In (_last_update_at self') (map (fun r => fst (fst (fst r))) reports)).
Proof.
  revert self tr. induction reports as [|[[[now current] total] message] rest IH];
    intros self tr.
  - exists []. cbn. rewrite app_nil_r. split; [reflexivity|].
    split; [intros c []|]. split; [lia|].
    intros self' H. inversion H; subst. auto.
  - cbn [report_all]. unfold bind.
    destruct (report_progress_calls self now current total message tr)
      as (d1 & Htr & Hd1 & Hself).
    destruct (report_progress env self now current total message tr) as [[self1|e] tr1];
      cbn [fst snd] in *; subst tr1.
    + destruct (Hself self1 eq_refl) as (Hj & Hm & Hl).
      destruct (IH self1 (tr ++ d1)%list) as (d2 & Htr2 & Hd2 & Hlen & Hself2).
      exists (d1 ++ d2)%list. rewrite Htr2, app_assoc. split; [reflexivity|].
      split; [|split].
      * intros c Hin. apply in_app_or in Hin. destruct Hin as [Hin|Hin].
        -- destruct Hd1 as [->|[p ->]]; [contradiction|].
           destruct Hin as [<-|[]]. eauto.
        -- rewrite <- Hj. auto.
      * rewrite length_app. cbn [List.length].
        destruct Hd1 as [->|[p ->]]; cbn; lia.
      * intros self' H. destruct (Hself2 self' H) as (Hj2 & Hm2 & Hl2).
        split; [congruence|]. split; [congruence|].
        cbn [map fst]. destruct Hl2 as [Hl2|Hl2]; [|right; right; exact Hl2].
        destruct Hl as [Hl|Hl]; [left; congruence|right; left; congruence].
    + exists d1. split; [reflexivity|]. split; [|split].
      * intros c Hin. destruct Hd1 as [->|[p ->]]; [contradiction|].
        destruct Hin as [<-|[]]. eauto.
      * destruct Hd1 as [->|[p ->]]; cbn; lia.
      * intros self' H. discriminate.
Qed.

End ReporterSeries.

(** ** ConvertVideoToGlbUseCase.execute: what it calls, and when *)

Ltac unfold_convert :=
  unfold Convert.execute, Convert._validate_request, Convert.report_phase,
    Convert.ensure_dir, Ports.try_except, Ports.bind, Ports.call, Ports.raise,
    Ports.ret.

(** Case analysis on the next answer the execution depends on. *)
Ltac next_answer :=
  match goal with
  | |- context [match ?x with _ => _ end] =>
      lazymatch x with
      | context [match _ with _ => _ end] => fail
      | _ => destruct x eqn:?
      end
  | |- context [if ?b then _ else _] =>
      lazymatch b with
      | context [if _ then _ else _] => fail
      | context [match _ with _ => _ end] => fail
      | _ => destruct b eqn:?
      end
  end.

Section ConvertCalls.
Import Ports Variations.

Variable env : Env.

(** X10. With [keep_frames] set, the frames are kept: whatever the adapters
    answer, [ConvertVideoToGlbUseCase.execute] makes no [remove_dir] call. *)
Theorem convert_keeps_frames_when_asked (request : VideoToGlbRequest)
    (tr : list Call) :
  keep_frames request = true ->
  exists delta,
    snd (Convert.execute env request tr) = (tr ++ delta)%list
    /\ forall path, ~ In (RemoveDir path) delta.
Proof.
  intros Hkeep.
  assert (only (fun c => negb (is_RemoveDir c)) (Convert.execute env request)) as Honly.
  { unfold Convert.execute, Convert._validate_request, Convert.report_phase,
      Convert.ensure_dir. rewrite Hkeep. cbn [Bool.eqb]. only_steps. }
  destruct (Honly tr) as (delta & Htr & Hall). exists delta. split; [exact Htr|].
  intros path Hin. rewrite forallb_forall in Hall. specialize (Hall _ Hin). discriminate.
Qed.

(** What a conversion that returns has returned: the result of the export. *)
Lemma convert_returns_the_export (request : VideoToGlbRequest) (r : GlbExportResult)
    (tr : list Call) :
  fst (Convert.execute env request tr) = Ok r ->
  export_glb_from_images_outcome env = Ok r
  /\ exists pre, snd (Convert.execute env request tr) =
                 (pre ++ [ReportPhase "done" "GLB変換が完了しました。"])%list.
Proof.
  unfold_convert. repeat next_answer; cbn [fst snd]; intros H; try discriminate;
    inversion H; subst; (split; [reflexivity|]); eexists; reflexivity.
Qed.

(** X11. Inference runs on extracted frames only. If an
    [export_glb_from_images] call appears among the calls of a conversion,
    the request had passed validation, frame extraction had returned, and the
    images passed are the non-empty list that [list_frame_images] returned for
    the extraction's directory; the output directory and model are the
    request's. *)
Theorem convert_infers_on_extracted_frames_only
    (request : VideoToGlbRequest) (paths : list Path) (o : Path) (m : string) :
  In (ExportGlbFromImages paths o m) (snd (Convert.execute env request [])) ->
  paths <> []
  /\ input_video_exists env (input_video_path request) = true
  /\ PrimFloat.leb (req_fps request) 0%float = false
  /\ (exists extraction,
        extract_frames_outcome env = Ok extraction
        /\ list_frame_images_outcome env (Models.frames_dir extraction) = Ok paths)
  /\ o = output_dir request /\ m = req_model_id request.
Proof.
  unfold_convert.
  destruct (input_video_exists env (input_video_path request)) eqn:Hex; cbn [Bool.eqb];
    [|intros []].
  destruct (PrimFloat.leb (req_fps request) 0%float) eqn:Hfps; [intros []|].
  destruct (report_phase_outcome env "prepare"); [|cbn; intuition discriminate].
  destruct (ensure_dir_outcome env (output_dir request)); [|cbn; intuition discriminate].
  destruct (ensure_dir_outcome env _); [|cbn; intuition discriminate].
  destruct (extract_frames_outcome env) as [extraction|]; [|cbn; intuition discriminate].
  destruct (list_frame_images_outcome env (Models.frames_dir extraction))
    as [images|] eqn:Hlist; [|cbn; intuition discriminate].
  destruct images as [|img images]; [cbn; intuition discriminate|].
  cbn [List.length Nat.eqb].
  assert (forall rest,
            In (ExportGlbFromImages paths o m)
               ([ReportPhase "prepare" "出力ディレクトリを準備します。";
                 EnsureDir (output_dir request);
                 EnsureDir (path_join (output_dir request) "frames");
                 ExtractFrames (input_video_path request)
                   (path_join (output_dir request) "frames") (req_fps request);
                 ListFrameImages (Models.frames_dir extraction)] ++ rest) ->
            (forall c, In c rest -> is_ExportGlbFromImages c = true ->
                       c = ExportGlbFromImages (img :: images) (output_dir request)
                             (req_model_id request)) ->
            paths = img :: images /\ o = output_dir request /\ m = req_model_id request)
    as Hfind.
  { intros rest Hin Hrest. cbn in Hin.
    repeat (destruct Hin as [Habs|Hin]; [discriminate|]).
    specialize (Hrest _ Hin eq_refl). inversion Hrest. auto. }
  intros Hin.
  assert (paths = img :: images /\ o = output_dir request /\ m = req_model_id request)
    as (-> & -> & ->).
  { revert Hin. cbn [app].
    repeat next_answer; cbn [fst snd app]; intros Hin;
      (eapply Hfind; [cbn [app]; exact Hin|]);
      intros c Hc Hexp; cbn in Hc;
      repeat (destruct Hc as [<-|Hc]; [first [reflexivity|discriminate]|]);
      contradiction. }
  split; [discriminate|]. split; [reflexivity|]. split; [reflexivity|].
  split; [eauto|]. split; reflexivity.
Qed.

End ConvertCalls.

(** X10 at a request that keeps its frames. *)
Lemma convert_keeps_frames_when_asked_witness :
  exists delta,
    snd (Convert.execute Sample.all_fine
           (mkVideoToGlbRequest "in.mp4" "out" 2%float true "m") [])
    = ([] ++ delta)%list
    /\ forall path, ~ In (Ports.RemoveDir path) delta.
Proof.
  exact (convert_keeps_frames_when_asked Sample.all_fine
           (mkVideoToGlbRequest "in.mp4" "out" 2%float true "m") [] eq_refl).
Defined.

(** X11 where every adapter succeeds: the one image listed is the one passed. *)
Lemma convert_infers_on_extracted_frames_only_witness :
  ["work/j1/output/frames/frame_000001.png"] <> ([] : list Path)
  /\ Ports.input_video_exists Sample.all_fine "in.mp4" = true
  /\ PrimFloat.leb 2%float 0%float = false
  /\ (exists extraction,
        Ports.extract_frames_outcome Sample.all_fine = Ok extraction
        /\ Ports.list_frame_images_outcome Sample.all_fine (Models.frames_dir extraction)
           = Ok ["work/j1/output/frames/frame_000001.png"])
  /\ "out" = "out" /\ "m" = "m".
Proof.
  apply (convert_infers_on_extracted_frames_only Sample.all_fine
           (mkVideoToGlbRequest "in.mp4" "out" 2%float false "m")
           ["work/j1/output/frames/frame_000001.png"] "out" "m").
  cbn. tauto.
Defined.

Section ConvertCleanup.
Import Ports Variations.

(** X12. A failing cleanup does not fail the conversion. Let two environments
    differ only in [remove_dir], which raises an [Exception] in one and
    returns in the other; if the 'cleanup_warn' phase report returns, the
    conversion ends the same way in both: the same result, or the same
    exception. *)
Theorem convert_survives_failing_cleanup
    (env : Env) (request : VideoToGlbRequest) (e : PyExc) (tr : list Call) :
  exc_is_Exception e = true ->
  (exists u, report_phase_outcome env "cleanup_warn" = Ok u) ->
  fst (Convert.execute (with_remove_dir (fun _ => Raise e) env) request tr)
  = fst (Convert.execute (with_remove_dir (fun _ => Ok tt) env) request tr).
Proof.
  intros He [u Hwarn]. unfold_convert. unfold with_remove_dir.
  cbn [ensure_dir_outcome list_frame_images_outcome remove_dir_outcome
       extract_frames_outcome export_glb_from_images_outcome report_phase_outcome
       input_video_exists].
  repeat first [ progress cbv beta iota | rewrite He | rewrite Hwarn | next_answer ];
    cbn [fst snd]; try reflexivity; try congruence.
Qed.

(** X13. What a conversion that returns has done: its value is the result the
    export returned, and its last call is the 'done' phase report. *)
Theorem convert_returns_export_result
    (env : Env) (request : VideoToGlbRequest) (r : GlbExportResult) (tr : list Call) :
  fst (Convert.execute env request tr) = Ok r ->
  export_glb_from_images_outcome env = Ok r
  /\ input_video_exists env (input_video_path request) = true
  /\ PrimFloat.leb (req_fps request) 0%float = false
  /\ exists pre, snd (Convert.execute env request tr) =
                 (pre ++ [ReportPhase "done" "GLB変換が完了しました。"])%list.
Proof.
  intros H. destruct (convert_returns_the_export env request r tr H) as [Hexp Hpre].
  split; [exact Hexp|]. split; [|split; [|exact Hpre]].
  - destruct (input_video_exists env (input_video_path request)) eqn:Hex; [reflexivity|].
    rewrite (validate_missing_input env request tr Hex) in H. discriminate.
  - destruct (input_video_exists env (input_video_path request)) eqn:Hex.
    + destruct (PrimFloat.leb (req_fps request) 0%float) eqn:Hf; [|reflexivity].
      rewrite (validate_bad_fps env request tr Hex Hf) in H. discriminate.
    + rewrite (validate_missing_input env request tr Hex) in H. discriminate.
Qed.

End ConvertCleanup.

(** X12 with a read-only frames directory. *)
Lemma convert_survives_failing_cleanup_witness :
  fst (Convert.execute
         (Variations.with_remove_dir (fun _ => Raise Sample.PermissionError)
            Sample.all_fine)
         (mkVideoToGlbRequest "in.mp4" "out" 2%float false "m") [])
  = fst (Convert.execute
           (Variations.with_remove_dir (fun _ => Ok tt) Sample.all_fine)
           (mkVideoToGlbRequest "in.mp4" "out" 2%float false "m") []).
Proof.
  apply (convert_survives_failing_cleanup Sample.all_fine
           (mkVideoToGlbRequest "in.mp4" "out" 2%float false "m")
           Sample.PermissionError []).
  - reflexivity.
  - exists tt. reflexivity.
Defined.

(** X13 where every adapter succeeds. *)
Lemma convert_returns_export_result_witness :
  Ports.export_glb_from_images_outcome Sample.all_fine
  = Ok (mkGlbExportResult "work/j1/output" (Some "work/j1/output/scene.glb") 1).
Proof.
  exact (proj1 (convert_returns_export_result Sample.all_fine
                  (mkVideoToGlbRequest "in.mp4" "out" 2%float false "m")
                  (mkGlbExportResult "work/j1/output" (Some "work/j1/output/scene.glb") 1)
                  [] eq_refl)).
Defined.

(** ** RunSingleJobUseCase.execute: the way to success *)

Section RunToSuccess.
Import Ports Variations.

Variable env : Env.
Variables ib ob : string.
Variable keep : bool.
Variable job : VideoJob.
Variable worker : WorkerInfo.

Let run := RunJob.execute env ib ob keep job worker [].

Let request :=
  mkVideoToGlbRequest (RunJob.local_video_path job) (RunJob.output_dir job) (fps job)
                      keep (model_id job).

Let before_conversion :=
  [EnsureDir (RunJob.input_dir job);
   EnsureDir (RunJob.output_dir job);
   StartJobAttempt (job_id job) (worker_id worker);
   ReportPhase "download" "入力動画をストレージから取得します。";
   DownloadFile ib (input_object_key job) (RunJob.local_video_path job)].

Let finishing (glb : Path) (info : JobAttemptInfo) :=
  [ReportPhase "upload" "GLBをストレージへアップロードします。";
   UploadFile glb ob (glb_object_key job) (Some "model/gltf-binary");
   AddArtifact (job_id job) "glb" (glb_object_key job) (Some "model/gltf-binary")
               (if glb_exists env glb then Some (glb_st_size env glb) else None);
   MarkJobSucceeded (job_id job) (attempt_id info)].

Lemma Convert_execute_conversion_calls (req : VideoToGlbRequest) :
  only is_conversion_call (Convert.execute env req).
Proof.
  unfold Convert.execute, Convert._validate_request, Convert.report_phase,
    Convert.ensure_dir.
  only_steps.
Qed.

(** The calls of an execution that returns, from first to last. *)
Lemma execute_success_shape (u : unit) :
  fst run = Ok u ->
  exists info r glb delta,
    start_job_attempt_outcome env = Ok info
    /\ export_glb_from_images_outcome env = Ok r
    /\ glb_path r = Some glb
    /\ forallb is_conversion_call delta = true
    /\ snd run = (before_conversion ++ delta ++ finishing glb info)%list.
Proof.
  unfold run, RunJob.execute, RunJob.guarded, RunJob.after_start, RunJob.on_exception,
    try_assigning_except, Convert.ensure_dir, Convert.report_phase, bind, call, raise.
  cbn [app]. fold request.
  destruct (ensure_dir_outcome env (RunJob.input_dir job)); [|discriminate].
  destruct (ensure_dir_outcome env (RunJob.output_dir job)); [|discriminate].
  destruct (start_job_attempt_outcome env) as [info|e0];
    [|destruct (exc_is_Exception e0); [destruct (mark_job_failed_outcome env)|];
      discriminate].
  destruct (report_phase_outcome env "download");
    [|destruct (exc_is_Exception e); [destruct (mark_job_failed_outcome env)|];
      discriminate].
  destruct (download_file_outcome env);
    [|destruct (exc_is_Exception e); [destruct (mark_job_failed_outcome env)|];
      discriminate].
  fold before_conversion.
  destruct (Convert_execute_conversion_calls request before_conversion)
    as (delta & Hd & HP).
  pose proof (convert_returns_the_export env request) as Hret.
  specialize (fun r => Hret r before_conversion).
  destruct (Convert.execute env request before_conversion) as [[r|e] trc];
    cbn [fst snd] in *; subst trc;
    [|destruct (exc_is_Exception e); [destruct (mark_job_failed_outcome env)|];
      discriminate].
  destruct (Hret r eq_refl) as [Hexp _].
  destruct (glb_path r) as [glb|] eqn:Hglb; cbn [exc_is_Exception RuntimeError];
    [|destruct (mark_job_failed_outcome env); discriminate].
  destruct (report_phase_outcome env "upload");
    [|destruct (exc_is_Exception e); [destruct (mark_job_failed_outcome env)|];
      discriminate].
  destruct (upload_file_outcome env);
    [|destruct (exc_is_Exception e); [destruct (mark_job_failed_outcome env)|];
      discriminate].
  destruct (add_artifact_outcome env);
    [|destruct (exc_is_Exception e); [destruct (mark_job_failed_outcome env)|];
      discriminate].
  destruct (mark_job_succeeded_outcome env);
    [|destruct (exc_is_Exception e); [destruct (mark_job_failed_outcome env)|];
      discriminate].
  intros _. exists info, r, glb, delta.
  repeat split; auto. cbn [fst snd]. unfold finishing, glb_object_key.
  rewrite <- !app_assoc. reflexivity.
Qed.

(** X14. An execution that returns has started an attempt, downloaded the
    input, converted it, and then, as its last four calls and in this order:
    reported the upload phase, uploaded the asset the export named to the
    output bucket under '<output_prefix without trailing slashes>/result.glb',
    recorded an artifact under that same key with the file size when the file
    exists, and marked the job succeeded with the id of the attempt it had
    started. It has made no [mark_job_failed] call. *)
Theorem execute_success_path (u : unit) :
  fst run = Ok u ->
  exists info r glb before,
    start_job_attempt_outcome env = Ok info
    /\ export_glb_from_images_outcome env = Ok r
    /\ glb_path r = Some glb
    /\ snd run = (before ++ finishing glb info)%list
    /\ (forall c, In c before -> is_finishing_call c = false)
    /\ In (DownloadFile ib (input_object_key job) (RunJob.local_video_path job)) before
    /\ mark_job_failed_calls (snd run) = 0%nat.
Proof.
  intros Hok. destruct (execute_success_shape u Hok)
    as (info & r & glb & delta & Hs & He & Hg & HP & Htr).
  exists info, r, glb, (before_conversion ++ delta)%list.
  split; [exact Hs|]. split; [exact He|]. split; [exact Hg|].
  split; [rewrite Htr, app_assoc; reflexivity|]. split; [|split].
  - intros c Hin. apply in_app_or in Hin. destruct Hin as [Hin|Hin].
    + cbn in Hin. repeat (destruct Hin as [<-|Hin]; [reflexivity|]). contradiction.
    + rewrite forallb_forall in HP. specialize (HP c Hin).
      unfold is_conversion_call in HP. apply andb_true_iff in HP.
      destruct HP as [HP _]. apply negb_true_iff in HP. exact HP.
  - apply in_or_app. left. cbn. tauto.
  - rewrite Htr, !mark_job_failed_calls_app.
    assert (mark_job_failed_calls delta = 0%nat) as ->.
    { apply mark_job_failed_calls_none. rewrite forallb_forall in *.
      intros c Hin. specialize (HP c Hin). unfold is_conversion_call in HP.
      apply andb_true_iff in HP. destruct HP as [_ HP].
      unfold not_MarkJobFailed. destruct c; try reflexivity; discriminate. }
    reflexivity.
Qed.

End RunToSuccess.

(** X14 where every adapter succeeds. *)
Lemma execute_success_path_witness :
  exists info r glb before,
    Ports.start_job_attempt_outcome Sample.all_fine = Ok info
    /\ Ports.export_glb_from_images_outcome Sample.all_fine = Ok r
    /\ glb_path r = Some glb
    /\ snd (RunJob.execute Sample.all_fine "in" "out" false
              (Sample.video_job 2%float) Sample.worker []) =
       (before ++
        [Ports.ReportPhase "upload" "GLBをストレージへアップロードします。";
         Ports.UploadFile glb "out" (Variations.glb_object_key (Sample.video_job 2%float))
                          (Some "model/gltf-binary");
         Ports.AddArtifact (job_id (Sample.video_job 2%float)) "glb"
                           (Variations.glb_object_key (Sample.video_job 2%float))
                           (Some "model/gltf-binary")
                           (if Ports.glb_exists Sample.all_fine glb
                            then Some (Ports.glb_st_size Sample.all_fine glb) else None);
         Ports.MarkJobSucceeded (job_id (Sample.video_job 2%float)) (attempt_id info)])%list
    /\ (forall c, In c before -> Variations.is_finishing_call c = false)
    /\ In (Ports.DownloadFile "in" (input_object_key (Sample.video_job 2%float))
             (RunJob.local_video_path (Sample.video_job 2%float))) before
    /\ Ports.mark_job_failed_calls
         (snd (RunJob.execute Sample.all_fine "in" "out" false
                 (Sample.video_job 2%float) Sample.worker [])) = 0%nat.
Proof.
  exact (execute_success_path Sample.all_fine "in" "out" false
           (Sample.video_job 2%float) Sample.worker tt eq_refl).
Defined.

Section SucceededOnlyAfterUpload.
Import Ports Variations.

Variable env : Env.
Variables ib ob : string.
Variable keep : bool.
Variable job : VideoJob.
Variable worker : WorkerInfo.

Let run := RunJob.execute env ib ob keep job worker [].

Lemma conversion_call_is_not_MarkJobSucceeded (delta : list Call) (j a : string) :
  forallb is_conversion_call delta = true -> ~ In (MarkJobSucceeded j a) delta.
Proof.
  intros HP Hin. rewrite forallb_forall in HP. specialize (HP _ Hin). discriminate.
Qed.

(** X15. A job is marked succeeded only once its asset is stored and
    recorded. If a [mark_job_succeeded] call appears among the calls of an
    execution, it is for this job and for the attempt [start_job_attempt]
    returned, the export had named an asset, and the upload and the artifact
    record had both returned. If [mark_job_succeeded] then returns too, the
    execution returns and has made no [mark_job_failed] call: a job is
    recorded as failed after being marked succeeded only when the marking
    itself raised. *)
Theorem mark_job_succeeded_only_after_upload (j a : string) :
  In (MarkJobSucceeded j a) (snd run) ->
  j = job_id job
  /\ (exists info r glb,
        start_job_attempt_outcome env = Ok info /\ a = attempt_id info
        /\ export_glb_from_images_outcome env = Ok r /\ glb_path r = Some glb)
  /\ (exists u, upload_file_outcome env = Ok u)
  /\ (exists u, add_artifact_outcome env = Ok u)
  /\ ((exists u, mark_job_succeeded_outcome env = Ok u) ->
      fst run = Ok tt /\ mark_job_failed_calls (snd run) = 0%nat).
Proof.
  unfold run, RunJob.execute, RunJob.guarded, RunJob.after_start, RunJob.on_exception,
    try_assigning_except, Convert.ensure_dir, Convert.report_phase, bind, call, raise.
  cbn [app].
  set (request := mkVideoToGlbRequest (RunJob.local_video_path job)
                    (RunJob.output_dir job) (fps job) keep (model_id job)).
  set (tr5 := [EnsureDir (RunJob.input_dir job); EnsureDir (RunJob.output_dir job);
               StartJobAttempt (job_id job) (worker_id worker);
               ReportPhase "download" "入力動画をストレージから取得します。";
               DownloadFile ib (input_object_key job) (RunJob.local_video_path job)]).
  destruct (Convert_execute_conversion_calls env request tr5) as (delta & Hd & HP).
  pose proof (conversion_call_is_not_MarkJobSucceeded delta j a HP) as Hdelta.
  pose proof (convert_returns_the_export env request) as Hret.
  specialize (fun r => Hret r tr5).
  assert (mark_job_failed_calls delta = 0%nat) as Hnone.
  { apply mark_job_failed_calls_none. rewrite forallb_forall in *.
    intros c Hin. specialize (HP c Hin). unfold is_conversion_call in HP.
    apply andb_true_iff in HP. destruct HP as [_ HP].
    unfold not_MarkJobFailed. destruct c; try reflexivity; discriminate. }
  destruct (Convert.execute env request tr5) as [rc trc]. cbn [snd] in Hd. subst trc.
  destruct (ensure_dir_outcome env (RunJob.input_dir job)) as [u1|e1].
  2:{ cbn. intuition discriminate. }
  destruct (ensure_dir_outcome env (RunJob.output_dir job)) as [u2|e2].
  2:{ cbn. intuition discriminate. }
  destruct (start_job_attempt_outcome env) as [info|e0].
  2:{ destruct (exc_is_Exception e0); [destruct (mark_job_failed_outcome env)|];
        cbn; intuition discriminate. }
  repeat next_answer; cbn [fst snd]; intros Hin;
    repeat (rewrite in_app_iff in Hin; cbn [In] in Hin);
    unfold tr5 in Hin; cbn [In] in Hin;
    try solve [ exfalso; intuition (try discriminate; auto) ].
  all: assert (j = job_id job /\ a = attempt_id info) as [-> ->]
         by (intuition (try discriminate; try contradiction);
             match goal with H : MarkJobSucceeded _ _ = MarkJobSucceeded _ _ |- _ =>
               inversion H; auto end).
  all: destruct (Hret _ eq_refl) as [Hexp _].
  all: (split; [reflexivity|]); (split; [eauto 8|]); (split; [eauto|]); (split; [eauto|]).
  all: intros [u' Hu']; try discriminate.
  all: split; [match goal with |- Ok ?x = Ok tt => destruct x; reflexivity end|].
  all: rewrite !mark_job_failed_calls_app, Hnone; reflexivity.
Qed.

End SucceededOnlyAfterUpload.

(** X15 where every adapter succeeds. *)
Lemma mark_job_succeeded_only_after_upload_witness :
  exists u, Ports.upload_file_outcome Sample.all_fine = Ok u.
Proof.
  refine (proj1 (proj2 (proj2
    (mark_job_succeeded_only_after_upload Sample.all_fine "in" "out" false
       (Sample.video_job 2%float) Sample.worker "j1" "a1" _)))).
  cbn. tauto.
Defined.

(** ** The object key of the asset *)

Section ObjectKey.
Import Variations.

Lemma rstrip_slash_slashes (n : nat) : rstrip_slash (slashes n) = EmptyString.
Proof. induction n as [|n IH]; cbn; [reflexivity|]. rewrite IH. reflexivity. Qed.

Lemma rstrip_slash_splits (s : string) :
  exists n, s = (rstrip_slash s ++ slashes n)%string
            /\ ends_with_slash (rstrip_slash s) = false.
Proof.
  induction s as [|c s' (n & Hs & He)]; [exists 0%nat; auto|].
  cbn [rstrip_slash]. destruct (rstrip_slash s') as [|a b] eqn:Hr.
  - destruct (Ascii.eqb c "/"%char) eqn:Hc.
    + exists (S n). apply Ascii.eqb_eq in Hc. subst c. cbn in *. rewrite <- Hs. auto.
    + exists n. cbn in *. rewrite <- Hs. rewrite Hc. auto.
  - exists n. split; [cbn in *; rewrite <- Hs; reflexivity|]. exact He.
Qed.

Lemma rstrip_slash_complete (t : string) (n : nat) :
  ends_with_slash t = false -> rstrip_slash (t ++ slashes n) = t.
Proof.
  induction t as [|c t' IH]; intros He.
  - apply rstrip_slash_slashes.
  - cbn [append rstrip_slash]. destruct t' as [|a b].
    + cbn [append]. rewrite rstrip_slash_slashes. cbn in He. rewrite He. reflexivity.
    + rewrite IH by exact He. reflexivity.
Qed.

(** X16. [output_prefix.rstrip("/")] removes the trailing slashes and nothing
    else: the prefix is the stripped str followed by slashes only, the
    stripped str does not end in a slash, and it is the only str with these
    two properties; stripping again changes nothing. So the asset's key
    '<stripped>/result.glb' has exactly one slash before 'result.glb',
    however many the prefix ends with. *)
Theorem glb_object_key_strips_trailing_slashes (job : VideoJob) :
  (exists n,
     output_prefix job = (rstrip_slash (output_prefix job) ++ slashes n)%string)
  /\ ends_with_slash (rstrip_slash (output_prefix job)) = false
  /\ (forall t n, output_prefix job = (t ++ slashes n)%string ->
                  ends_with_slash t = false ->
                  rstrip_slash (output_prefix job) = t)
  /\ rstrip_slash (rstrip_slash (output_prefix job)) = rstrip_slash (output_prefix job)
  /\ (forall n,
        glb_object_key (mkVideoJob (job_id job) (input_object_key job)
                          (output_prefix job ++ slashes n)%string (fps job) (model_id job))
        = glb_object_key job).
Proof.
  destruct (rstrip_slash_splits (output_prefix job)) as (n & Hs & He).
  split; [eauto|]. split; [exact He|]. split; [|split].
  - intros t k Ht Hk. rewrite Ht. apply rstrip_slash_complete. exact Hk.
  - rewrite <- (rstrip_slash_complete (rstrip_slash (output_prefix job)) 0 He) at 2.
    cbn [slashes]. f_equal. clear. induction (rstrip_slash (output_prefix job));
      cbn; congruence.
  - intros k. unfold glb_object_key. cbn [output_prefix]. f_equal.
    rewrite Hs at 1.
    assert (forall a b, (slashes a ++ slashes b)%string = slashes (a + b)) as Hadd.
    { intros a b. induction a as [|a IH]; cbn; [reflexivity|]. rewrite IH. reflexivity. }
    assert (forall x y z : string, ((x ++ y) ++ z)%string = (x ++ (y ++ z))%string)
      as Hassoc.
    { intros x y z. induction x as [|c x IH]; cbn; [reflexivity|]. rewrite IH.
      reflexivity. }
    rewrite Hassoc, Hadd. apply rstrip_slash_complete. exact He.
Qed.

End ObjectKey.

(** ** Progress updates during an attempt *)

Section ProgressDuringAttempt.
Import Repo Lifecycle ProgressSpec.

Let with_progress (p : Z) (j : JobRow) : JobRow :=
  mkJobRow (j_id j) (j_input_object_key j) (j_output_prefix j)
           (j_params_fps j) (j_params_modelId j)
           (j_status j) (j_priority j) (j_created_at j)
           p (j_error_code j) (j_error_message j)
           (j_started_at j) (j_finished_at j).

(** The percentage a row shows after the updates [ps]: the last of them,
    clamped, or the one it had when there is none. *)
Let shown (ps : list Z) (before : Z) : Z :=
  match ps with
  | [] => before
  | _ :: _ => clamp (last ps 0)
  end.

Lemma update_progress_all_jobs (job_id : string) (ps : list Z) (d : Db) :
  update_progress_all job_id ps d =
  mkDb (map (fun j => if String.eqb (j_id j) job_id
                      then with_progress (shown ps (j_progress_percent j)) j
                      else j)
            (jobs d))
       (job_attempts d).
Proof.
  unfold update_progress_all. revert d. induction ps as [|p rest IH]; intros d.
  - cbn [fold_left shown]. destruct d as [js ats]. cbn [jobs job_attempts]. f_equal.
    rewrite <- (map_id js) at 1. apply map_ext. intros j.
    destruct (String.eqb (j_id j) job_id); [destruct j|]; reflexivity.
  - cbn [fold_left]. rewrite IH, update_progress_committed. cbn [snd].
    unfold update_jobs. cbn [jobs job_attempts]. f_equal.
    rewrite map_map. apply map_ext. intros j.
    destruct (String.eqb (j_id j) job_id) eqn:Hid; cbn [j_id]; rewrite Hid;
      [|reflexivity].
    unfold with_progress. cbn. f_equal.
    destruct rest as [|q rest']; reflexivity.
Qed.

(** X17. A success overrides the progress reported during the attempt:
    whatever progress updates of the job commit before it,
    [mark_job_succeeded] leaves the store it leaves without them. So an
    attempt that is started, reports progress any number of times and is
    marked succeeded leaves what starting and marking alone leave: the job at
    100 percent, whatever was last reported. *)
Theorem success_overrides_reported_progress
    (now1 now2 : Z) (new_id job_id attempt_id worker_id : string)
    (ps : list Z) (d : Db) :
  snd (mark_job_succeeded no_faults now2 job_id attempt_id
         (update_progress_all job_id ps d))
  = snd (mark_job_succeeded no_faults now2 job_id attempt_id d)
  /\ snd (mark_job_succeeded no_faults now2 job_id new_id
            (update_progress_all job_id ps
               (snd (start_job_attempt no_faults now1 new_id job_id worker_id d))))
     = start_succeed now1 now2 new_id job_id worker_id d
  /\ (forall j, In j (jobs (snd (mark_job_succeeded no_faults now2 job_id attempt_id
                                   (update_progress_all job_id ps d)))) ->
                j_id j = job_id -> j_progress_percent j = 100).
Proof.
  assert (forall a d0,
            snd (mark_job_succeeded no_faults now2 job_id a
                   (update_progress_all job_id ps d0))
            = snd (mark_job_succeeded no_faults now2 job_id a d0)) as Hover.
  { intros a d0. rewrite update_progress_all_jobs. cbn.
    unfold update_jobs, update_attempts. cbn [jobs job_attempts]. f_equal.
    rewrite map_map. apply map_ext. intros j.
    destruct (String.eqb (j_id j) job_id) eqn:Hid; unfold with_progress; cbn [j_id];
      rewrite ?Hid; reflexivity. }
  split; [apply Hover|]. split.
  - rewrite Hover. unfold start_succeed.
    rewrite (start_job_attempt_committed now1 new_id job_id worker_id d).
    reflexivity.
  - rewrite Hover. cbn. intros j Hin Hj.
    apply in_map_iff in Hin. destruct Hin as (j0 & Hj0 & _).
    destruct (String.eqb_spec (j_id j0) job_id) as [Heq|Hne]; subst j.
    + reflexivity.
    + contradiction.
Qed.

(** X18. A failure keeps the progress last reported. When an attempt is
    started, progress updates of the job commit and the job is then marked
    failed, every job row of the id is 'failed' with the given code, the
    stored message and the finish time, and shows the last percentage
    reported, clamped to [0,100], or 0 when none was: [mark_job_failed] does
    not reset it. The updates touch no attempt row, and marking failed before
    or after them comes to the same store. *)
Theorem failure_keeps_reported_progress
    (now1 now2 : Z) (new_id job_id worker_id : string)
    (error_code : option string) (message : string) (exit_code : option Z)
    (ps : list Z) (d : Db) :
  let d1 := snd (start_job_attempt no_faults now1 new_id job_id worker_id d) in
  let d' := snd (mark_job_failed no_faults now2 job_id (Some new_id) error_code
                   message exit_code (update_progress_all job_id ps d1)) in
  Forall2 (fun j j' =>
             if String.eqb (j_id j) job_id then
               j_id j' = j_id j /\ j_status j' = "failed"
               /\ j_progress_percent j' =
                    match ps with [] => 0 | _ :: _ => clamp (last ps 0) end
               /\ 0 <= j_progress_percent j' <= 100
               /\ j_error_code j' = error_code
               /\ j_error_message j' = Some (slice_to 4000 message)
               /\ j_started_at j' = Some (coalesce (j_started_at j) now1)
               /\ j_finished_at j' = Some now2
               /\ j_priority j' = j_priority j /\ j_created_at j' = j_created_at j
               /\ j_input_object_key j' = j_input_object_key j
               /\ j_output_prefix j' = j_output_prefix j
               /\ j_params_fps j' = j_params_fps j
               /\ j_params_modelId j' = j_params_modelId j
             else j' = j)
          (jobs d) (jobs d')
  /\ job_attempts d' =
     job_attempts (snd (mark_job_failed no_faults now2 job_id (Some new_id) error_code
                          message exit_code d1))
  /\ (forall attempt_id d0,
        snd (mark_job_failed no_faults now2 job_id attempt_id error_code message
               exit_code (update_progress_all job_id ps d0))
        = update_progress_all job_id ps
            (snd (mark_job_failed no_faults now2 job_id attempt_id error_code message
                    exit_code d0))).
Proof.
  cbv zeta. split; [|split].
  - rewrite update_progress_all_jobs.
    rewrite (start_job_attempt_committed now1 new_id job_id worker_id d).
    cbn -[slice_to clamp last]. rewrite !map_map. apply Forall2_map_self. intros j _.
    destruct (String.eqb (j_id j) job_id) eqn:Hid; cbn [j_id]; rewrite ?Hid;
      cbn -[slice_to clamp last]; rewrite ?Hid; cbn -[slice_to clamp last];
      [|reflexivity].
    destruct ps as [|p rest]; cbn [shown];
      repeat split; try reflexivity; unfold clamp; lia.
  - rewrite update_progress_all_jobs. reflexivity.
  - intros attempt_id d0. rewrite !update_progress_all_jobs.
    destruct attempt_id as [a|]; cbn -[slice_to clamp last shown];
      unfold update_jobs, update_attempts; cbn [jobs job_attempts]; f_equal;
      rewrite !map_map; apply map_ext; intros j;
      destruct (String.eqb (j_id j) job_id) eqn:Hid; unfold with_progress;
      cbn -[slice_to clamp last shown]; rewrite ?Hid; reflexivity.
Qed.

End ProgressDuringAttempt.

(** ** MinioObjectStorageAdapter *)

Section ObjectStorage.
Import Storage.

Variable client : Client.

(** X19. An upload creates the bucket only when it is missing, and puts the
    object only into a bucket known to exist. Among the client calls of
    [upload_file] there is a [make_bucket] exactly when [bucket_exists]
    answered False, and an [fput_object] only when the check answered True or
    the creation returned; the put is for the given bucket, key, file and
    content type (not passed when None), and an upload that returns has made
    it. A download makes no bucket call at all. *)
Theorem upload_creates_missing_bucket_only
    (local_path : Path) (bucket key : string) (content_type : option string)
    (tr : list ClientCall) :
  let r := upload_file client local_path bucket key content_type tr in
  exists delta,
    snd r = (tr ++ delta)%list
    /\ (forall b, In (MakeBucket b) delta <->
                  b = bucket /\ bucket_exists_outcome client bucket = Ok false)
    /\ (forall b k f c,
          In (FputObject b k f c) delta ->
          b = bucket /\ k = key /\ f = local_path /\ c = content_type
          /\ (bucket_exists_outcome client bucket = Ok true
              \/ exists u, make_bucket_outcome client bucket = Ok u))
    /\ (forall u, fst r = Ok u -> In (FputObject bucket key local_path content_type) delta)
    /\ exists delta',
         snd (download_file client bucket key local_path tr) = (tr ++ delta')%list
         /\ forallb (fun c => negb (is_bucket_call c)) delta' = true.
Proof.
  cbv zeta. unfold upload_file, download_file, _ensure_bucket_exists, bind, call, ret.
  assert (exists delta',
            snd (let (r, tr') := (mkdir_outcome client local_path,
                                  (tr ++ [MkdirParent local_path])%list) in
                 match r with
                 | Ok _ => (fget_object_outcome client bucket key,
                            (tr' ++ [FgetObject bucket key local_path])%list)
                 | Raise e => (Raise e, tr')
                 end) = (tr ++ delta')%list
            /\ forallb (fun c => negb (is_bucket_call c)) delta' = true) as Hdown.
  { destruct (mkdir_outcome client local_path); cbn [snd].
    - exists [MkdirParent local_path; FgetObject bucket key local_path].
      rewrite <- app_assoc. auto.
    - exists [MkdirParent local_path]. auto. }
  destruct (bucket_exists_outcome client bucket) as [[|]|e] eqn:Hex; cbn [Bool.eqb].
  - exists [BucketExists bucket; FputObject bucket key local_path content_type].
    split; [destruct content_type; cbn; rewrite <- app_assoc; reflexivity|].
    split; [|split; [|split]].
    + intros b. cbn. split; [intros [H|[H|[]]]; discriminate|intros [_ H]; discriminate].
    + intros b k f c [H|[H|[]]]; [discriminate|]. inversion H; subst. auto 8.
    + intros _ _. cbn. auto.
    + exact Hdown.
  - destruct (make_bucket_outcome client bucket) as [u|e] eqn:Hmk.
    + exists [BucketExists bucket; MakeBucket bucket;
              FputObject bucket key local_path content_type].
      split; [destruct content_type; cbn; rewrite <- !app_assoc; reflexivity|].
      split; [|split; [|split]].
      * intros b. cbn. split.
        -- intros [H|[H|[H|[]]]]; try discriminate. inversion H. auto.
        -- intros [-> _]. auto.
      * intros b k f c [H|[H|[H|[]]]]; try discriminate. inversion H; subst.
        repeat split; eauto.
      * intros _ _. cbn. auto.
      * exact Hdown.
    + exists [BucketExists bucket; MakeBucket bucket].
      split; [cbn; rewrite <- !app_assoc; reflexivity|].
      split; [|split; [|split]].
      * intros b. cbn. split.
        -- intros [H|[H|[]]]; try discriminate. inversion H. auto.
        -- intros [-> _]. auto.
      * intros b k f c [H|[H|[]]]; discriminate.
      * intros u H. discriminate.
      * exact Hdown.
  - exists [BucketExists bucket]. split; [reflexivity|].
    split; [|split; [|split]].
    + intros b. cbn. split; [intros [H|[]]; discriminate|intros [_ H]; discriminate].
    + intros b k f c [H|[]]. discriminate.
    + intros u H. discriminate.
    + exact Hdown.
Qed.

End ObjectStorage.

(** ** The poll loop *)

Ltac unfold_worker :=
  unfold Worker.iteration, Worker.run_job, Worker.try_finally, Worker.try_except,
    Worker.print, Worker.emit, Worker.set_status, Worker.get_snapshot, Worker.call,
    Worker.bind, Worker.ret, Worker.raise.

Section PollLoop.
Import Worker.

Variable cfg : Config.

Let draining_heartbeat :=
  Heartbeat (worker_key cfg) (worker_display_name cfg) "draining" (worker_ip cfg)
            (tags_json_text cfg) (capacity_json_text cfg).

(** X20. Whatever happens to a leased job, the worker ends the pass 'online'
    with no job. When the lease returns a job, the pass publishes 'draining'
    with the job's id before it sends the draining heartbeat and runs the
    job, changes the state at no other moment during the job, and publishes
    ('online', None) as its last act, whether the job returned or raised. An
    [Exception] of the heartbeat or of the execution does not leave the pass;
    only an exception that is not an [Exception] does. *)
Theorem iteration_with_job_ends_online (tick : Tick) (job : VideoJob) (w : World) :
  fetch_outcome tick = Ok (Some job) ->
  let r := iteration cfg tick w in
  state (snd r) = mkWorkerState "online" None
  /\ (fst r = Ok tt \/ exists e, fst r = Raise e /\ exc_is_Exception e = false)
  /\ exists pre mid,
       events (snd r) =
         (events w ++ pre
            ++ [Fetch (worker_key cfg); StatusSet "draining" (Some (job_id job));
                draining_heartbeat]
            ++ mid ++ [StatusSet "online" None])%list
       /\ (pre = [] \/ pre = [StatusSet "online" None])
       /\ forallb (fun ev => negb (is_StatusSet ev)) mid = true.
Proof.
  intros Hf. cbv zeta. unfold_worker. cbn [fst snd state events].
  assert (forall (calls : list Ports.Call),
            forallb (fun ev => negb (is_StatusSet ev)) (map Port calls) = true) as Hports.
  { induction calls; cbn; auto. }
  assert (forall (l : list Event) (pre mid : list Event) (st : WorkerState) (r : result unit),
            l = (events w ++ pre
                   ++ [Fetch (worker_key cfg); StatusSet "draining" (Some (job_id job));
                       draining_heartbeat]
                   ++ mid ++ [StatusSet "online" None])%list ->
            (pre = [] \/ pre = [StatusSet "online" None]) ->
            forallb (fun ev => negb (is_StatusSet ev)) mid = true ->
            st = mkWorkerState "online" None ->
            (r = Ok tt \/ exists e, r = Raise e /\ exc_is_Exception e = false) ->
            st = mkWorkerState "online" None
            /\ (r = Ok tt \/ exists e, r = Raise e /\ exc_is_Exception e = false)
            /\ exists pre mid,
                 l = (events w ++ pre
                        ++ [Fetch (worker_key cfg);
                            StatusSet "draining" (Some (job_id job));
                            draining_heartbeat]
                        ++ mid ++ [StatusSet "online" None])%list
                 /\ (pre = [] \/ pre = [StatusSet "online" None])
                 /\ forallb (fun ev => negb (is_StatusSet ev)) mid = true) as Hpack.
  { intros l pre mid st r Hl Hpre Hmid Hst Hr. split; [exact Hst|]. split; [exact Hr|].
    exists pre, mid. auto. }
  destruct (negb (String.eqb (_status (state w)) "online")); cbn [fst snd state events];
    rewrite Hf; cbn [fst snd state events];
    (destruct (heartbeat_outcome tick) as [worker|e]; cbn [fst snd state events];
     [ destruct (RunJob.execute (ports tick) (input_bucket cfg) (output_bucket cfg)
                   (keep_frames_for_debug cfg) job worker []) as [[u|e] calls];
       cbn [fst snd state events]
     | ]);
    try (destruct u); try (destruct (exc_is_Exception e) eqn:He);
    cbn [fst snd state events].
  (* pre = [StatusSet online None] *)
  - apply (Hpack _ [StatusSet "online" None]
             ([Print ("[INFO] start job_id=" ++ job_id job ++ " worker_key="
                        ++ Models.worker_key worker)%string]
                ++ map Port calls
                ++ [Print ("[INFO] completed job_id=" ++ job_id job)%string])%list);
      [ unfold draining_heartbeat; rewrite <- ?app_assoc; reflexivity | auto
      | cbn [app forallb is_StatusSet negb andb]; rewrite forallb_app, Hports; reflexivity
      | reflexivity | auto ].
  - apply (Hpack _ [StatusSet "online" None]
             ([Print ("[INFO] start job_id=" ++ job_id job ++ " worker_key="
                        ++ Models.worker_key worker)%string]
                ++ map Port calls
                ++ [Print ("[ERROR] job failed job_id=" ++ job_id job ++ " error="
                             ++ exc_str e)%string])%list);
      [ unfold draining_heartbeat; rewrite <- ?app_assoc; reflexivity | auto
      | cbn [app forallb is_StatusSet negb andb]; rewrite forallb_app, Hports; reflexivity
      | reflexivity | auto ].
  - apply (Hpack _ [StatusSet "online" None]
             ([Print ("[INFO] start job_id=" ++ job_id job ++ " worker_key="
                        ++ Models.worker_key worker)%string]
                ++ map Port calls)%list);
      [ unfold draining_heartbeat; rewrite <- ?app_assoc; reflexivity | auto
      | cbn [app forallb is_StatusSet negb andb]; rewrite Hports; reflexivity
      | reflexivity | eauto ].
  - apply (Hpack _ [StatusSet "online" None]
             [Print ("[ERROR] job failed job_id=" ++ job_id job ++ " error="
                       ++ exc_str e)%string]);
      [ unfold draining_heartbeat; rewrite <- ?app_assoc; reflexivity | auto
      | reflexivity | reflexivity | auto ].
  - apply (Hpack _ [StatusSet "online" None] []);
      [ unfold draining_heartbeat; rewrite <- ?app_assoc; reflexivity | auto
      | reflexivity | reflexivity | eauto ].
  (* pre = [] *)
  - apply (Hpack _ []
             ([Print ("[INFO] start job_id=" ++ job_id job ++ " worker_key="
                        ++ Models.worker_key worker)%string]
                ++ map Port calls
                ++ [Print ("[INFO] completed job_id=" ++ job_id job)%string])%list);
      [ unfold draining_heartbeat; rewrite <- ?app_assoc; reflexivity | auto
      | cbn [app forallb is_StatusSet negb andb]; rewrite forallb_app, Hports; reflexivity
      | reflexivity | auto ].
  - apply (Hpack _ []
             ([Print ("[INFO] start job_id=" ++ job_id job ++ " worker_key="
                        ++ Models.worker_key worker)%string]
                ++ map Port calls
                ++ [Print ("[ERROR] job failed job_id=" ++ job_id job ++ " error="
                             ++ exc_str e)%string])%list);
      [ unfold draining_heartbeat; rewrite <- ?app_assoc; reflexivity | auto
      | cbn [app forallb is_StatusSet negb andb]; rewrite forallb_app, Hports; reflexivity
      | reflexivity | auto ].
  - apply (Hpack _ []
             ([Print ("[INFO] start job_id=" ++ job_id job ++ " worker_key="
                        ++ Models.worker_key worker)%string]
                ++ map Port calls)%list);
      [ unfold draining_heartbeat; rewrite <- ?app_assoc; reflexivity | auto
      | cbn [app forallb is_StatusSet negb andb]; rewrite Hports; reflexivity
      | reflexivity | eauto ].
  - apply (Hpack _ []
             [Print ("[ERROR] job failed job_id=" ++ job_id job ++ " error="
                       ++ exc_str e)%string]);
      [ unfold draining_heartbeat; rewrite <- ?app_assoc; reflexivity | auto
      | reflexivity | reflexivity | auto ].
  - apply (Hpack _ [] []);
      [ unfold draining_heartbeat; rewrite <- ?app_assoc; reflexivity | auto
      | reflexivity | reflexivity | eauto ].
Qed.

End PollLoop.

(** X20 with a job whose every adapter succeeds. *)
Lemma iteration_with_job_ends_online_witness :
  Worker.state
    (snd (Worker.iteration
            (Worker.mkConfig "gpu-01" "GPU 01" None "{}" "{}" 2%float "in" "out" false)
            (Worker.mkTick (Ok (Some (Sample.video_job 2%float))) (Ok tt)
                           (Ok Sample.worker) Sample.all_fine)
            (Worker.mkWorld (Worker.mkWorkerState "online" None) [])))
  = Worker.mkWorkerState "online" None.
Proof.
  exact (proj1 (iteration_with_job_ends_online
                  (Worker.mkConfig "gpu-01" "GPU 01" None "{}" "{}" 2%float "in" "out" false)
                  (Worker.mkTick (Ok (Some (Sample.video_job 2%float))) (Ok tt)
                                 (Ok Sample.worker) Sample.all_fine)
                  (Sample.video_job 2%float)
                  (Worker.mkWorld (Worker.mkWorkerState "online" None) [])
                  eq_refl)).
Defined.

Section PollLoopEnds.
Import Worker.

Variable cfg : Config.

Let offline_heartbeat :=
  Heartbeat (worker_key cfg) (worker_display_name cfg) "offline" (worker_ip cfg)
            (tags_json_text cfg) (capacity_json_text cfg).

(** X21. A failing lease ends the worker. An exception raised by
    [fetch_next_queued_job], an [Exception] included, is caught by nothing in
    the loop: the pass and the loop raise it at once, with no pause and no
    further lease. On the way out [main] sets the stop event, joins the
    heartbeat thread and sends the 'offline' heartbeat; it then returns 0 if
    the exception was a KeyboardInterrupt and raises it again otherwise
    (provided the offline heartbeat returned or raised an [Exception], which
    is printed and dropped). *)
Theorem lease_failure_ends_the_worker
    (tick : Tick) (rest : list Tick) (offline : result WorkerInfo) (e : PyExc)
    (w : World) :
  fetch_outcome tick = Raise e ->
  let r := poll cfg (tick :: rest) w in
  let r' := leave_loop cfg offline e (snd r) in
  fst r = Raise e
  /\ (exists pre,
        events (snd r) = (events w ++ pre ++ [Fetch (worker_key cfg)])%list
        /\ (pre = [] \/ pre = [StatusSet "online" None]))
  /\ (exists pre post,
        events (snd r') =
          (events (snd r) ++ pre ++ [StopEventSet; Join 3%float; offline_heartbeat]
             ++ post)%list
        /\ (forall ev, In ev (pre ++ post) -> exists line, ev = Print line))
  /\ (recoverable offline = true ->
      fst r' = if String.eqb (exc_class e) "KeyboardInterrupt" then Ok 0 else Raise e).
Proof.
  intros Hf. cbv zeta. cbn [poll]. unfold leave_loop, shutdown. unfold_worker.
  cbn [fst snd state events]. rewrite Hf.
  destruct (negb (String.eqb (_status (state w)) "online")); cbn [fst snd state events];
    (split; [reflexivity|]);
    (split; [first [ exists [StatusSet "online" None]; split; [|auto];
                     rewrite <- ?app_assoc; reflexivity
                   | exists []; split; [|auto]; reflexivity ]|]);
    destruct (String.eqb (exc_class e) "KeyboardInterrupt"); cbn [fst snd state events];
    destruct offline as [wi|e']; cbn [fst snd state events recoverable];
    try (destruct (exc_is_Exception e') eqn:He'); cbn [fst snd state events].
  all: split;
    [ first
        [ exists [Print "[INFO] stopping worker..."], [];
            split; [unfold offline_heartbeat; rewrite <- ?app_assoc; reflexivity|];
            intros ev [<-|[]]; eauto
        | exists [Print "[INFO] stopping worker..."],
                 [Print ("[WARN] failed to set offline heartbeat: " ++ exc_str e')%string];
            split; [unfold offline_heartbeat; rewrite <- ?app_assoc; reflexivity|];
            intros ev [<-|[<-|[]]]; eauto
        | exists [], [];
            split; [unfold offline_heartbeat; rewrite <- ?app_assoc; reflexivity|];
            intros ev []
        | exists [],
                 [Print ("[WARN] failed to set offline heartbeat: " ++ exc_str e')%string];
            split; [unfold offline_heartbeat; rewrite <- ?app_assoc; reflexivity|];
            intros ev [<-|[]]; eauto ]
    | intros Hrec; first [reflexivity | discriminate] ].
Qed.

Lemma iteration_survives (tick : Tick) (w : World) :
  survivable cfg tick = true ->
  fst (iteration cfg tick w) = Ok tt
  /\ List.length (filter is_Fetch (events (snd (iteration cfg tick w))))
     = S (List.length (filter is_Fetch (events w))).
Proof.
  unfold survivable. intros Hs.
  assert (forall calls : list Ports.Call, filter is_Fetch (map Port calls) = []) as Hports.
  { induction calls; cbn; auto. }
  unfold_worker. cbn [fst snd state events].
  destruct (fetch_outcome tick) as [[job|]|e]; [| |discriminate].
  - destruct (negb (String.eqb (_status (state w)) "online")); cbn [fst snd state events];
      (destruct (heartbeat_outcome tick) as [worker|e]; cbn [fst snd state events];
       [ destruct (RunJob.execute (ports tick) (input_bucket cfg) (output_bucket cfg)
                     (keep_frames_for_debug cfg) job worker []) as [[u|e] calls];
         cbn [fst snd state events recoverable] in *
       | ]);
      try (destruct u); try rewrite Hs; cbn [fst snd state events];
      (split; [reflexivity|]);
      rewrite ?filter_app, ?Hports, ?length_app; cbn; lia.
  - destruct (sleep_outcome tick) as [[]|e]; [|discriminate].
    destruct (negb (String.eqb (_status (state w)) "online")); cbn [fst snd state events];
      (split; [reflexivity|]);
      rewrite ?filter_app, ?length_app; cbn; lia.
Qed.

(** X22. The loop survives the failures of jobs. Over any number of passes in
    which the lease and the idle pause return, and in which whatever the
    draining heartbeat or the job execution raises is an [Exception], the loop
    goes on: no exception leaves it, and it has asked for a job once per
    pass. *)
Theorem poll_survives_job_failures (ticks : list Tick) (w : World) :
  forallb (survivable cfg) ticks = true ->
  fst (poll cfg ticks w) = Ok tt
  /\ List.length (filter is_Fetch (events (snd (poll cfg ticks w))))
     = (List.length (filter is_Fetch (events w)) + List.length ticks)%nat.
Proof.
  revert w. induction ticks as [|tick rest IH]; intros w H.
  - cbn. split; [reflexivity|lia].
  - cbn in H. apply andb_true_iff in H. destruct H as [Ht Hrest].
    destruct (iteration_survives tick w Ht) as [Hok Hcount].
    cbn [poll]. unfold bind.
    destruct (iteration cfg tick w) as [r w1]. cbn [fst snd] in *. subst r.
    destruct (IH w1 Hrest) as [IH1 IH2]. split; [exact IH1|].
    rewrite IH2, Hcount. cbn [List.length]. lia.
Qed.

End PollLoopEnds.

(** X22 over two passes: an idle one, then a job whose download fails. *)
Lemma poll_survives_job_failures_witness :
  fst (Worker.poll
         (Worker.mkConfig "gpu-01" "GPU 01" None "{}" "{}" 2%float "in" "out" false)
         [Worker.mkTick (Ok None) (Ok tt) (Ok Sample.worker) Sample.all_fine;
          Worker.mkTick (Ok (Some (Sample.video_job 2%float))) (Ok tt)
                        (Ok Sample.worker) Sample.storage_down]
         (Worker.mkWorld (Worker.mkWorkerState "online" None) []))
  = Ok tt.
Proof.
  exact (proj1 (poll_survives_job_failures
                  (Worker.mkConfig "gpu-01" "GPU 01" None "{}" "{}" 2%float "in" "out" false)
                  [Worker.mkTick (Ok None) (Ok tt) (Ok Sample.worker) Sample.all_fine;
                   Worker.mkTick (Ok (Some (Sample.video_job 2%float))) (Ok tt)
                                 (Ok Sample.worker) Sample.storage_down]
                  (Worker.mkWorld (Worker.mkWorkerState "online" None) [])
                  eq_refl)).
Defined.

(** X21 with the database away at the first lease. *)
Lemma lease_failure_ends_the_worker_witness :
  fst (Worker.poll
         (Worker.mkConfig "gpu-01" "GPU 01" None "{}" "{}" 2%float "in" "out" false)
         [Worker.mkTick (Raise Repo.DatabaseError) (Ok tt) (Ok Sample.worker)
                        Sample.all_fine]
         (Worker.mkWorld (Worker.mkWorkerState "online" None) []))
  = Raise Repo.DatabaseError.
Proof.
  exact (proj1 (lease_failure_ends_the_worker
                  (Worker.mkConfig "gpu-01" "GPU 01" None "{}" "{}" 2%float "in" "out" false)
                  (Worker.mkTick (Raise Repo.DatabaseError) (Ok tt) (Ok Sample.worker)
                                 Sample.all_fine)
                  [] (Ok Sample.worker) Repo.DatabaseError
                  (Worker.mkWorld (Worker.mkWorkerState "online" None) [])
                  eq_refl)).
Defined.

(** ** The published state and the heartbeat *)

Section Heartbeats.
Import Worker.

Variable cfg : Config.

Lemma status_ok_ports (calls : list Ports.Call) :
  forallb status_ok (map Port calls) = true.
Proof. induction calls; cbn; auto. Qed.

Lemma iteration_consistent (tick : Tick) (w : World) :
  consistent (state w) -> forallb status_ok (events w) = true ->
  consistent (state (snd (iteration cfg tick w)))
  /\ forallb status_ok (events (snd (iteration cfg tick w))) = true.
Proof.
  intros Hc Hev.
  assert (consistent (mkWorkerState "online" None)) as Honline.
  { unfold consistent. cbn. split; [discriminate|congruence]. }
  unfold_worker. cbn [fst snd state events].
  destruct (negb (String.eqb (_status (state w)) "online")); cbn [fst snd state events];
    (destruct (fetch_outcome tick) as [[job|]|e]; cbn [fst snd state events];
     [ destruct (heartbeat_outcome tick) as [worker|e]; cbn [fst snd state events];
       [ destruct (RunJob.execute (ports tick) (input_bucket cfg) (output_bucket cfg)
                     (keep_frames_for_debug cfg) job worker []) as [[u|e] calls];
         cbn [fst snd state events]
       | ]
     | | ]);
    try (destruct (exc_is_Exception e)); cbn [fst snd state events];
    (split; [first [exact Honline | exact Hc]|]);
    rewrite ?forallb_app, ?Hev, ?status_ok_ports; reflexivity.
Qed.

(** X23. The state the worker publishes is consistent: if it starts with a
    status that is 'draining' exactly when a job id is set, then after any
    number of passes of the loop, however they end, the state still is, and so
    is every state the loop has published on the way. *)
Theorem published_state_stays_consistent (ticks : list Tick) (w : World) :
  consistent (state w) -> forallb status_ok (events w) = true ->
  consistent (state (snd (poll cfg ticks w)))
  /\ forallb status_ok (events (snd (poll cfg ticks w))) = true.
Proof.
  revert w. induction ticks as [|tick rest IH]; intros w Hc Hev; [cbn; auto|].
  cbn [poll]. unfold bind.
  destruct (iteration_consistent tick w Hc Hev) as [Hc1 Hev1].
  destruct (iteration cfg tick w) as [[u|e] w1]; cbn [fst snd] in *; auto.
Qed.

Lemma heartbeat_pass_run (interval_sec : float) (outcome : result WorkerInfo) (w : World) :
  let display_name :=
    match _current_job_id (state w) with
    | None => worker_display_name cfg
    | Some _ => (worker_display_name cfg ++ " (busy)")%string
    end in
  let sent := Heartbeat (worker_key cfg) display_name (_status (state w))
                        (worker_ip cfg) (tags_json_text cfg) (capacity_json_text cfg) in
  heartbeat_pass cfg interval_sec outcome w =
  match outcome with
  | Ok _ => (Ok tt, mkWorld (state w)
                      (events w ++ [sent; StopEventWait interval_sec])%list)
  | Raise e =>
      if exc_is_Exception e
      then (Ok tt, mkWorld (state w)
                     (events w ++ [sent; Print ("[WARN] heartbeat failed: " ++ exc_str e)%string;
                                   StopEventWait interval_sec])%list)
      else (Raise e, mkWorld (state w) (events w ++ [sent])%list)
  end.
Proof.
  cbv zeta. unfold heartbeat_pass. unfold_worker. cbn [fst snd state events].
  destruct outcome as [wi|e]; cbn [fst snd state events].
  - rewrite <- app_assoc. reflexivity.
  - destruct (exc_is_Exception e); cbn [fst snd state events];
      rewrite <- ?app_assoc; reflexivity.
Qed.

(** X24. The heartbeat thread outlives its failures and reports the state
    it reads. As long as the stop event is not set and whatever the
    repository raises is an [Exception], [_heartbeat_loop] keeps going: it
    sends one heartbeat per pass, never changes the worker state, and no
    exception leaves it. Run while the poll loop leaves the state alone, each
    heartbeat carries the status of that state, and the display name with
    ' (busy)' appended exactly when a job id is set. Once the stop event is
    set it sends nothing more. *)
Theorem heartbeat_loop_outlives_failures
    (interval_sec : float) (passes : list (bool * result WorkerInfo)) (w : World) :
  forallb (fun p => negb (fst p) && recoverable (snd p)) passes = true ->
  let r := _heartbeat_loop cfg interval_sec passes w in
  let display_name :=
    match _current_job_id (state w) with
    | None => worker_display_name cfg
    | Some _ => (worker_display_name cfg ++ " (busy)")%string
    end in
  fst r = Ok tt
  /\ state (snd r) = state w
  /\ (exists delta,
        events (snd r) = (events w ++ delta)%list
        /\ List.length (filter is_Heartbeat delta) = List.length passes
        /\ forall ev, In ev delta -> is_Heartbeat ev = true ->
             ev = Heartbeat (worker_key cfg) display_name (_status (state w))
                            (worker_ip cfg) (tags_json_text cfg) (capacity_json_text cfg))
  /\ (forall outcome rest,
        _heartbeat_loop cfg interval_sec ((true, outcome) :: rest) w = (Ok tt, w)).
Proof.
  intros Hall. cbv zeta. split; [|split; [|split]]; [| | |reflexivity].
  - revert w. induction passes as [|[is_set outcome] rest IH]; intros w; [reflexivity|].
    cbn in Hall. apply andb_true_iff in Hall. destruct Hall as [Hp Hrest].
    apply andb_true_iff in Hp. destruct Hp as [Hset Hrec].
    apply negb_true_iff in Hset. subst is_set. cbn [_heartbeat_loop Bool.eqb]. unfold bind.
    pose proof (heartbeat_pass_run interval_sec outcome w) as Hrun. cbv zeta in Hrun.
    rewrite Hrun. destruct outcome as [wi|e]; cbn [recoverable] in Hrec.
    + apply IH. exact Hrest.
    + rewrite Hrec. apply IH. exact Hrest.
  - revert w. induction passes as [|[is_set outcome] rest IH]; intros w; [reflexivity|].
    cbn in Hall. apply andb_true_iff in Hall. destruct Hall as [Hp Hrest].
    apply andb_true_iff in Hp. destruct Hp as [Hset Hrec].
    apply negb_true_iff in Hset. subst is_set. cbn [_heartbeat_loop Bool.eqb]. unfold bind.
    pose proof (heartbeat_pass_run interval_sec outcome w) as Hrun. cbv zeta in Hrun.
    rewrite Hrun. destruct outcome as [wi|e]; cbn [recoverable] in Hrec.
    + rewrite IH by exact Hrest. reflexivity.
    + rewrite Hrec. rewrite IH by exact Hrest. reflexivity.
  - revert w. induction passes as [|[is_set outcome] rest IH]; intros w.
    + exists []. cbn. rewrite app_nil_r. split; [reflexivity|]. split; [reflexivity|].
      intros ev [].
    + cbn in Hall. apply andb_true_iff in Hall. destruct Hall as [Hp Hrest].
      apply andb_true_iff in Hp. destruct Hp as [Hset Hrec].
      apply negb_true_iff in Hset. subst is_set. cbn [_heartbeat_loop Bool.eqb].
      unfold bind.
      pose proof (heartbeat_pass_run interval_sec outcome w) as Hrun. cbv zeta in Hrun.
      rewrite Hrun.
      destruct outcome as [wi|e]; cbn [recoverable] in Hrec; rewrite ?Hrec;
        match goal with
        | |- context [_heartbeat_loop cfg interval_sec rest ?w1] =>
            destruct (IH Hrest w1) as (delta & Hev & Hlen & Hsent)
        end;
        cbn [state events] in *; rewrite Hev.
      * eexists. rewrite <- app_assoc. split; [reflexivity|].
        split; [cbn; rewrite Hlen; reflexivity|].
        intros ev Hin Hhb. cbn in Hin. destruct Hin as [<-|[<-|Hin]];
          [reflexivity|discriminate|auto].
      * eexists. rewrite <- app_assoc. split; [reflexivity|].
        split; [cbn; rewrite Hlen; reflexivity|].
        intros ev Hin Hhb. cbn in Hin. destruct Hin as [<-|[<-|[<-|Hin]]];
          [reflexivity|discriminate|discriminate|auto].
Qed.

End Heartbeats.

(** X23 from the initial state, over an idle pass and a job. *)
Lemma published_state_stays_consistent_witness :
  Worker.consistent
    (Worker.state
       (snd (Worker.poll
               (Worker.mkConfig "gpu-01" "GPU 01" None "{}" "{}" 2%float "in" "out" false)
               [Worker.mkTick (Ok None) (Ok tt) (Ok Sample.worker) Sample.all_fine;
                Worker.mkTick (Ok (Some (Sample.video_job 2%float))) (Ok tt)
                              (Ok Sample.worker) Sample.all_fine]
               (Worker.mkWorld (Worker.mkWorkerState "online" None) [])))).
Proof.
  refine (proj1 (published_state_stays_consistent
                   (Worker.mkConfig "gpu-01" "GPU 01" None "{}" "{}" 2%float "in" "out" false)
                   [Worker.mkTick (Ok None) (Ok tt) (Ok Sample.worker) Sample.all_fine;
                    Worker.mkTick (Ok (Some (Sample.video_job 2%float))) (Ok tt)
                                  (Ok Sample.worker) Sample.all_fine]
                   (Worker.mkWorld (Worker.mkWorkerState "online" None) [])
                   _ eq_refl)).
  unfold Worker.consistent. cbn. split; [discriminate|congruence].
Defined.

(** X24 over three passes, the second failing, while a job is in flight. *)
Lemma heartbeat_loop_outlives_failures_witness :
  fst (Worker._heartbeat_loop
         (Worker.mkConfig "gpu-01" "GPU 01" None "{}" "{}" 2%float "in" "out" false)
         2%float
         [(false, Ok Sample.worker); (false, Raise Repo.DatabaseError);
          (false, Ok Sample.worker)]
         (Worker.mkWorld (Worker.mkWorkerState "draining" (Some "j1")) []))
  = Ok tt.
Proof.
  exact (proj1 (heartbeat_loop_outlives_failures
                  (Worker.mkConfig "gpu-01" "GPU 01" None "{}" "{}" 2%float "in" "out" false)
                  2%float
                  [(false, Ok Sample.worker); (false, Raise Repo.DatabaseError);
                   (false, Ok Sample.worker)]
                  (Worker.mkWorld (Worker.mkWorkerState "draining" (Some "j1")) [])
                  eq_refl)).
Defined.
